(** * OAuth2 Authorization Code flow with PKCE: a model of the client library

    Shallow embedding of [src/utils/crypto.ts], [src/utils/url.ts],
    [src/utils/storage.ts], [src/core/constants.ts] and
    [src/core/OAuth2Service.ts].

    Conventions of the embedding.
    - A JavaScript string is a Rocq [string]: a sequence of code units in the
      range U+0000..U+00FF.  Everything the library itself generates (random
      strings, base64 text, decimal numbers, storage keys) lives in that range.
    - A JavaScript number that holds a time or a duration is an integer [Z]
      (epoch milliseconds, seconds); [NaN] is a separate constructor.
    - [null] and [undefined] are [None].
    - A [Uint8Array] / [ArrayBuffer] is a [list Byte.byte].
    - The clock ([Date.now()]), the secure random source, the answer of the
      token endpoint and the platform's [URL] parser and digest are inputs of
      the operations: nothing is drawn from an ambient world. *)

From Stdlib Require Import ZArith NArith String Ascii List Bool Lia.
From Stdlib Require Import Permutation.
From Stdlib Require Import Strings.Byte.
From stdpp Require Import base gmap strings list.

Import ListNotations.
Local Open Scope string_scope.
Local Open Scope Z_scope.

(** ** JavaScript values *)

Module JS.

(** [!!s] for a value of type [string | null | undefined]. *)
Definition truthy (v : option string) : bool :=
  match v with
  | Some s => negb (String.eqb s "")
  | None => false
  end.

(** A number as [parseInt] may return it. *)
Inductive Num : Type :=
| NaN
| Int (z : Z).

(** [!!n] for a value of type [number | null]. *)
Definition truthy_num (v : option Num) : bool :=
  match v with
  | Some (Int z) => negb (z =? 0)
  | Some NaN => false
  | None => false
  end.

(** [a >= b] on numbers: every comparison with [NaN] is false. *)
Definition geb (a : Z) (b : Num) : bool :=
  match b with
  | Int z => z <=? a
  | NaN => false
  end.

Definition digit_char (d : N) : ascii := ascii_of_N (48 + d).

Definition digit_val (c : ascii) : option N :=
  let n := N_of_ascii c in
  if ((48 <=? n) && (n <=? 57))%N then Some (n - 48)%N else None.

Definition is_digit (c : ascii) : bool :=
  match digit_val c with Some _ => true | None => false end.

(** Decimal digits of [n], most significant first, put in front of [acc]. *)
Fixpoint digits_fuel (fuel : nat) (n : N) (acc : string) : string :=
  match fuel with
  | O => acc
  | S fuel' =>
      let acc' := String (digit_char (n mod 10)) acc in
      if (n / 10 =? 0)%N then acc' else digits_fuel fuel' (n / 10) acc'
  end.

Definition N_digits (n : N) : string :=
  digits_fuel (S (N.to_nat (N.log2 n))) n "".

(** [Number.prototype.toString()] on an integer. *)
Definition Number_toString (z : Z) : string :=
  match z with
  | Z0 => "0"
  | Zpos p => N_digits (Npos p)
  | Zneg p => String "-" (N_digits (Npos p))
  end.

(** The white space [parseInt] skips, within U+0000..U+00FF. *)
Definition is_space (c : ascii) : bool :=
  let n := N_of_ascii c in
  ((9 <=? n) && (n <=? 13) || (n =? 32) || (n =? 160))%N.

Fixpoint trim_start (s : string) : string :=
  match s with
  | String c r => if is_space c then trim_start r else s
  | EmptyString => s
  end.

(** Value of the longest prefix of decimal digits, continuing from [acc]. *)
Fixpoint parse_dec (acc : N) (s : string) : N :=
  match s with
  | String c r =>
      match digit_val c with
      | Some d => parse_dec (10 * acc + d) r
      | None => acc
      end
  | EmptyString => acc
  end.

Definition parse_unsigned (neg : bool) (s : string) : Num :=
  match s with
  | String c _ =>
      if is_digit c
      then Int (if neg then - Z.of_N (parse_dec 0 s) else Z.of_N (parse_dec 0 s))
      else NaN
  | EmptyString => NaN
  end.

(** [parseInt(s, 10)]. *)
Definition parseInt (s : string) : Num :=
  match trim_start s with
  | String c r =>
      if Ascii.eqb c "-" then parse_unsigned true r
      else if Ascii.eqb c "+" then parse_unsigned false r
      else parse_unsigned false (String c r)
  | EmptyString => NaN
  end.

End JS.

(** ** The platform

    What the library takes from the browser: the [URL] constructor, the
    digest of [crypto.subtle] and the location of the window.  A [URL]
    object is kept as its query parameters and the rest of the address;
    parsing and serialising are the platform's. *)

Record URL : Type := mkURL {
  url_base : string;                       (* scheme, authority and path *)
  searchParams : list (string * string);   (* decoded name/value pairs, in order *)
}.

Class Platform : Type := {
  (** [new URL(s)]; [None] when the constructor throws a [TypeError]. *)
  URL_new : string -> option URL;
  (** [crypto.subtle.digest(algorithm, data)]. *)
  subtle_digest : string -> list Byte.byte -> list Byte.byte;
  (** [window.location.origin]. *)
  location_origin : string;
  (** [window.location.href], as the page was loaded. *)
  location_href : string;
}.

(** ** src/utils/crypto.ts *)

Module Crypto.

Definition charset : string :=
  "ABCDEFGHIJKLMNOPQRSTUVWXYZabcdefghijklmnopqrstuvwxyz0123456789-._~".

(** [charset[i]], followed by what [join('')] makes of it: an index out of
    range reads [undefined], which joins as the empty string. *)
Definition char_at (s : string) (i : nat) : string :=
  match String.get i s with
  | Some c => String c ""
  | None => ""
  end.

(** [crypto.getRandomValues(new Uint8Array(length))], reading the random
    source [rng] position by position. *)
Definition getRandomValues (rng : nat -> Byte.byte) (length : nat) : list Byte.byte :=
  map rng (seq 0 length).

Definition generateRandomString (rng : nat -> Byte.byte) (length : nat) : string :=
  let randomValues := getRandomValues rng length in
  String.concat ""
    (map (fun value =>
            char_at charset (N.to_nat (Byte.to_N value mod N.of_nat (String.length charset))))
         randomValues).

(** [new TextEncoder().encode(plain)]: UTF-8, for code units below U+0100. *)
Definition utf8_unit (c : ascii) : list Byte.byte :=
  let n := N_of_ascii c in
  if (n <? 128)%N then [byte_of_ascii c]
  else [byte_of_ascii (ascii_of_N (N.lor 192 (N.shiftr n 6)));
        byte_of_ascii (ascii_of_N (N.lor 128 (N.land n 63)))].

Definition TextEncoder_encode (plain : string) : list Byte.byte :=
  flat_map utf8_unit (list_ascii_of_string plain).

Definition sha256 `{Platform} (plain : string) : list Byte.byte :=
  let data := TextEncoder_encode plain in
  subtle_digest "SHA-256" data.

(** *** [btoa] *)

Definition b64_std : string :=
  "ABCDEFGHIJKLMNOPQRSTUVWXYZabcdefghijklmnopqrstuvwxyz0123456789+/".

Definition b64_url : string :=
  "ABCDEFGHIJKLMNOPQRSTUVWXYZabcdefghijklmnopqrstuvwxyz0123456789-_".

Definition alphabet_char (alphabet : string) (i : N) : ascii :=
  match String.get (N.to_nat i) alphabet with
  | Some c => c
  | None => "="%char
  end.

(** The 6-bit groups of one, two or three input octets. *)
Definition sextets1 (a : N) : list N :=
  [N.shiftr a 2; N.shiftl (N.land a 3) 4].

Definition sextets2 (a b : N) : list N :=
  [N.shiftr a 2;
   N.lor (N.shiftl (N.land a 3) 4) (N.shiftr b 4);
   N.shiftl (N.land b 15) 2].

Definition sextets3 (a b c : N) : list N :=
  [N.shiftr a 2;
   N.lor (N.shiftl (N.land a 3) 4) (N.shiftr b 4);
   N.lor (N.shiftl (N.land b 15) 2) (N.shiftr c 6);
   N.land c 63].

Definition chars (alphabet : string) (l : list N) : string :=
  string_of_list_ascii (map (alphabet_char alphabet) l).

(** [btoa(binary)]: base64 with the standard alphabet and '=' padding. *)
Fixpoint btoa_codes (l : list N) : string :=
  match l with
  | a :: b :: c :: r => chars b64_std (sextets3 a b c) ++ btoa_codes r
  | [a; b] => chars b64_std (sextets2 a b) ++ "="
  | [a] => chars b64_std (sextets1 a) ++ "=="
  | [] => ""
  end.

Definition btoa (binary : string) : string :=
  btoa_codes (map N_of_ascii (list_ascii_of_string binary)).

(** [s.replace(/c/g, by)] for a one-character pattern. *)
Fixpoint replace_all (c : ascii) (by_ : string) (s : string) : string :=
  match s with
  | String x r =>
      if Ascii.eqb x c then by_ ++ replace_all c by_ r
      else String x (replace_all c by_ r)
  | EmptyString => EmptyString
  end.

Definition base64UrlEncode (buffer : list Byte.byte) : string :=
  let bytes := buffer in
  let binary :=
    fold_left (fun binary byte => binary ++ String (ascii_of_byte byte) "") bytes "" in
  replace_all "=" "" (replace_all "/" "_" (replace_all "+" "-" (btoa binary))).

Definition generatePKCEParams `{Platform} (rng : nat -> Byte.byte) : string * string :=
  let codeVerifier := generateRandomString rng 128 in
  let hashed := sha256 codeVerifier in
  let codeChallenge := base64UrlEncode hashed in
  (codeVerifier, codeChallenge).

(** [received === stored && received.length > 0]; the callback may carry no
    [state] parameter at all, in which case [received] is [undefined]. *)
Definition validateState (received : option string) (stored : string) : bool :=
  match received with
  | Some r => String.eqb r stored && (0 <? String.length r)%nat
  | None => false
  end.

(** The unreserved characters of RFC 3986: letters, digits, '-', '.', '_', '~'. *)
Definition unreserved (c : ascii) : bool :=
  let n := N_of_ascii c in
  ((65 <=? n) && (n <=? 90) || (97 <=? n) && (n <=? 122) || (48 <=? n) && (n <=? 57)
   || (n =? 45) || (n =? 46) || (n =? 95) || (n =? 126))%N.

End Crypto.

(** ** Plain objects used as parameter records *)

Module Obj.

(** An object with string keys, its properties in creation order; a
    property may hold [undefined]. *)
Definition t : Type := list (string * option string).

(** [o[k] = v]: an existing property keeps its place and takes the new
    value, a new one is created last. *)
Fixpoint set (k : string) (v : option string) (o : t) : t :=
  match o with
  | [] => [(k, v)]
  | (k', v') :: r =>
      if String.eqb k' k then (k', v) :: r else (k', v') :: set k v r
  end.

(** A key is an array index when it is the canonical decimal form of an
    integer below 2^32 - 1. *)
Definition array_index (k : string) : option N :=
  match k with
  | EmptyString => None
  | String c r =>
      if forallb JS.is_digit (list_ascii_of_string k)
         && (negb (Ascii.eqb c "0") || String.eqb r "")
      then
        let n := JS.parse_dec 0 k in
        if (n <=? 4294967294)%N then Some n else None
      else None
  end.

Fixpoint insert_index {A} (i : N) (x : A) (l : list (N * A)) : list (N * A) :=
  match l with
  | [] => [(i, x)]
  | (j, y) :: r =>
      if (i <=? j)%N then (i, x) :: l else (j, y) :: insert_index i x r
  end.

Definition indexed {A} (key : A -> string) (l : list A) : list (N * A) :=
  fold_right
    (fun x acc =>
       match array_index (key x) with
       | Some i => insert_index i x acc
       | None => acc
       end)
    [] l.

Definition named {A} (key : A -> string) (l : list A) : list A :=
  List.filter (fun x => match array_index (key x) with Some _ => false | None => true end) l.

(** Own property order: array indices ascending, then the other keys in
    creation order. *)
Definition own_order {A} (key : A -> string) (l : list A) : list A :=
  map snd (indexed key l) ++ named key l.

(** [Object.entries(o)]. *)
Definition entries (o : t) : list (string * option string) :=
  own_order fst o.

(** [{ ...o, ...src }] where [src] is a [Record<string, string>] given by
    its properties in creation order. *)
Definition spread (src : list (string * string)) (o : t) : t :=
  fold_left (fun o kv => set (fst kv) (Some (snd kv)) o) (own_order fst src) o.

Definition get (k : string) (o : t) : option string :=
  match List.find (fun kv => String.eqb (fst kv) k) o with
  | Some (_, v) => v
  | None => None
  end.

End Obj.

(** ** src/utils/url.ts *)

Module Url.

(** [url.searchParams.append(key, value)] *)
Definition append (key value : string) (u : URL) : URL :=
  {| url_base := url_base u; searchParams := searchParams u ++ [(key, value)] |}.

(** [buildUrl(baseUrl, params)].  The result is the [URL] object whose
    [toString()] the source returns; [None] when [new URL] throws. *)
Definition buildUrl `{Platform} (baseUrl : string) (params : Obj.t) : option URL :=
  match URL_new baseUrl with
  | None => None
  | Some url =>
      Some (fold_left
              (fun url kv =>
                 match snd kv with
                 | Some value => append (fst kv) value url
                 | None => url
                 end)
              (Obj.entries params) url)
  end.

(** [parseQueryParams(url)], for the [URL] object [new URL(url)] yields:
    a later pair with the same name overwrites an earlier one. *)
Definition parseQueryParams (urlObj : URL) : gmap string string :=
  fold_left (fun params kv => <[fst kv := snd kv]> params) (searchParams urlObj) ∅.

(** [getBaseUrl()]: [window.location.origin + window.location.pathname];
    the path of the window is an argument. *)
Definition getBaseUrl `{Platform} (pathname : string) : string :=
  location_origin ++ pathname.

(** [isRedirectUri(redirectUri)]: [url_base] of a URL object is its origin
    followed by its path.  [None] when [new URL] throws. *)
Definition isRedirectUri `{Platform} (pathname : string) (redirectUri : string)
  : option bool :=
  let current := getBaseUrl pathname in
  match URL_new redirectUri with
  | Some u => Some (String.eqb current (url_base u))
  | None => None
  end.

End Url.

(** ** src/core/constants.ts *)

Module STORAGE_KEYS.
Definition ACCESS_TOKEN : string := "access_token".
Definition REFRESH_TOKEN : string := "refresh_token".
Definition ID_TOKEN : string := "id_token".
Definition EXPIRES_AT : string := "expires_at".
Definition SCOPE : string := "scope".
Definition CODE_VERIFIER : string := "code_verifier".
Definition STATE : string := "state".

(** [Object.values(STORAGE_KEYS)] *)
Definition values : list string :=
  [ACCESS_TOKEN; REFRESH_TOKEN; ID_TOKEN; EXPIRES_AT; SCOPE; CODE_VERIFIER; STATE].
End STORAGE_KEYS.

Definition DEFAULT_REFRESH_BUFFER : Z := 300.

Inductive GrantType : Type :=
| AUTHORIZATION_CODE
| REFRESH_TOKEN.

(** ** src/utils/storage.ts *)

Module TokenStorage.

(** The adapter: a Web Storage backend ([getItem] / [setItem] /
    [removeItem] over strings) and the key prefix. *)
Record t : Type := mk {
  storage : gmap string string;
  prefix : string;
}.

Definition getKey (s : t) (key : string) : string := prefix s ++ key.

Definition getItem (s : t) (key : string) : option string :=
  storage s !! getKey s key.

Definition setItem (key value : string) (s : t) : t :=
  {| storage := <[getKey s key := value]> (storage s); prefix := prefix s |}.

Definition removeItem (key : string) (s : t) : t :=
  {| storage := delete (getKey s key) (storage s); prefix := prefix s |}.

Definition setAccessToken (token : string) : t -> t := setItem STORAGE_KEYS.ACCESS_TOKEN token.
Definition getAccessToken (s : t) : option string := getItem s STORAGE_KEYS.ACCESS_TOKEN.

Definition setRefreshToken (token : string) : t -> t := setItem STORAGE_KEYS.REFRESH_TOKEN token.
Definition getRefreshToken (s : t) : option string := getItem s STORAGE_KEYS.REFRESH_TOKEN.

Definition setIdToken (token : string) : t -> t := setItem STORAGE_KEYS.ID_TOKEN token.
Definition getIdToken (s : t) : option string := getItem s STORAGE_KEYS.ID_TOKEN.

Definition setExpiresAt (expiresAt : Z) : t -> t :=
  setItem STORAGE_KEYS.EXPIRES_AT (JS.Number_toString expiresAt).

(** [value ? parseInt(value, 10) : null] *)
Definition getExpiresAt (s : t) : option JS.Num :=
  let value := getItem s STORAGE_KEYS.EXPIRES_AT in
  if JS.truthy value
  then match value with Some v => Some (JS.parseInt v) | None => None end
  else None.

Definition setScope (scope : string) : t -> t := setItem STORAGE_KEYS.SCOPE scope.
Definition getScope (s : t) : option string := getItem s STORAGE_KEYS.SCOPE.

Definition setCodeVerifier (verifier : string) : t -> t := setItem STORAGE_KEYS.CODE_VERIFIER verifier.
Definition getCodeVerifier (s : t) : option string := getItem s STORAGE_KEYS.CODE_VERIFIER.

Definition setState (state : string) : t -> t := setItem STORAGE_KEYS.STATE state.
Definition getState (s : t) : option string := getItem s STORAGE_KEYS.STATE.

Definition clear (s : t) : t :=
  fold_left (fun s key => removeItem key s) STORAGE_KEYS.values s.

Definition clearTemporary (s : t) : t :=
  removeItem STORAGE_KEYS.STATE (removeItem STORAGE_KEYS.CODE_VERIFIER s).

End TokenStorage.

(** ** src/core/types.ts *)

(** [Required<OAuth2Config>], after the constructor has merged the defaults
    (scope [''], logoutEndpoint [''], autoRefresh [true], refreshBufferTime
    [DEFAULT_REFRESH_BUFFER], storageKeyPrefix ['oauth2_']).  The two
    callbacks are observed through the log of the service. *)
Record OAuth2Config : Type := mkConfig {
  clientId : string;
  authorizationEndpoint : string;
  tokenEndpoint : string;
  redirectUri : string;
  scope : string;
  logoutEndpoint : string;
  autoRefresh : bool;
  refreshBufferTime : Z;
  storageKeyPrefix : string;
}.

Record TokenResponse : Type := mkTokenResponse {
  access_token : string;
  token_type : string;
  expires_in : option Z;
  refresh_token : option string;
  tr_scope : option string;
  id_token : option string;
}.

Record OAuth2Error : Type := mkOAuth2Error {
  error : string;
  error_description : option string;
  error_uri : option string;
}.

Record TokenRequestParams : Type := mkTokenRequest {
  grant_type : GrantType;
  code : option string;
  rq_refresh_token : option string;
  client_id : string;
  redirect_uri : option string;
  code_verifier : option string;
}.

(** [AuthState], the snapshot [getAuthState] returns. *)
Module AuthState.
Record t : Type := mk {
  isAuthenticated : bool;
  isLoading : bool;
  accessToken : option string;
  refreshToken : option string;
  idToken : option string;
  expiresAt : option JS.Num;
  scope : option string;
  error : option OAuth2Error;
}.
End AuthState.

(** [OAuth2Config] as the caller of the constructor passes it: the four
    required fields, and the optional ones, absent or given.  ([storage],
    [debug] and the two callbacks are not part of the record: the backend is
    an argument of the constructor and the callbacks are observed.) *)
Module ConfigInput.
Record t : Type := mk {
  clientId : string;
  authorizationEndpoint : string;
  tokenEndpoint : string;
  redirectUri : string;
  scope : option string;
  logoutEndpoint : option string;
  autoRefresh : option bool;
  refreshBufferTime : option Z;
  storageKeyPrefix : option string;
}.
End ConfigInput.

(** ** src/core/OAuth2Service.ts *)

(** What an operation can throw. *)
Inductive Exn : Type :=
| ExnOAuth2 (e : OAuth2Error)   (* a thrown error object: callback parameters or endpoint body *)
| ExnError (message : string)   (* new Error(message) *)
| ExnTypeError                  (* new URL(...) on a string that is no URL *)
| ExnFetch.                     (* fetch, or reading the body, rejected *)

Inductive Res (A : Type) : Type :=
| Ret (a : A)
| Throw (e : Exn).
Arguments Ret {A} a.
Arguments Throw {A} e.

(** What the token endpoint answers to one request. *)
Inductive FetchOutcome : Type :=
| FetchRejected                      (* no response, or a body that cannot be read *)
| FetchNotOk (body : OAuth2Error)    (* response.ok is false *)
| FetchOk (tokens : TokenResponse).

(** Calls of the two configured callbacks. *)
Inductive Callback : Type :=
| onAuthStateChange (isAuthenticated : bool)
| onTokenRefresh (tokens : TokenResponse).

(** An assignment to [window.location.href]. *)
Inductive Href : Type :=
| HrefUrl (u : URL)        (* the serialisation of a URL object *)
| HrefString (s : string).

Record Service : Type := mkService {
  config : OAuth2Config;
  storage : TokenStorage.t;
  refreshTimer : option Z;                (* delay of the pending timer *)
  refreshPromise : option nat;            (* identity of the in-flight promise *)
  callbacks : list Callback;              (* calls made so far, oldest first *)
  requests : list TokenRequestParams;     (* POSTs sent to the token endpoint, oldest first *)
  href : option Href;                     (* last navigation *)
}.

Definition with_storage (f : TokenStorage.t -> TokenStorage.t) (s : Service) : Service :=
  mkService (config s) (f (storage s)) (refreshTimer s) (refreshPromise s)
            (callbacks s) (requests s) (href s).

Definition with_refreshTimer (t : option Z) (s : Service) : Service :=
  mkService (config s) (storage s) t (refreshPromise s)
            (callbacks s) (requests s) (href s).

Definition with_refreshPromise (p : option nat) (s : Service) : Service :=
  mkService (config s) (storage s) (refreshTimer s) p
            (callbacks s) (requests s) (href s).

Definition with_callback (c : Callback) (s : Service) : Service :=
  mkService (config s) (storage s) (refreshTimer s) (refreshPromise s)
            (callbacks s ++ [c]) (requests s) (href s).

Definition with_request (r : TokenRequestParams) (s : Service) : Service :=
  mkService (config s) (storage s) (refreshTimer s) (refreshPromise s)
            (callbacks s) (requests s ++ [r]) (href s).

Definition with_href (h : Href) (s : Service) : Service :=
  mkService (config s) (storage s) (refreshTimer s) (refreshPromise s)
            (callbacks s) (requests s) (Some h).

(** Computations over the service: state and exceptions. *)
Definition M (A : Type) : Type := Service -> Res A * Service.

Definition ret {A} (a : A) : M A := fun s => (Ret a, s).
Definition throw {A} (e : Exn) : M A := fun s => (Throw e, s).

Definition bind {A B} (m : M A) (k : A -> M B) : M B :=
  fun s =>
    match m s with
    | (Ret a, s') => k a s'
    | (Throw e, s') => (Throw e, s')
    end.

Definition gets {A} (f : Service -> A) : M A := fun s => (Ret (f s), s).
Definition modify (f : Service -> Service) : M unit := fun s => (Ret tt, f s).

(** [try { m } catch (error) { handler(error) }] *)
Definition try_catch {A} (m : M A) (handler : Exn -> M A) : M A :=
  fun s =>
    match m s with
    | (Ret a, s') => (Ret a, s')
    | (Throw e, s') => handler e s'
    end.

Notation "'let*' x ':=' m 'in' k" := (bind m (fun x => k))
  (at level 10, x pattern, m at level 100, k at level 200).
Notation "m ';;' k" := (bind m (fun _ => k))
  (at level 100, k at level 200, right associativity).

(** A string that is present and not empty: the [v] of an [if (v)]. *)
Definition nonempty (v : option string) : option string :=
  if JS.truthy v then v else None.

Module OAuth2Service.
Section WithPlatform.
Context `{Platform}.

(** [handleError]: writes to the console only. *)
Definition handleError (e : Exn) : M unit := ret tt.

(** [makeTokenRequest], its synchronous part: the POST leaves. *)
Definition makeTokenRequest_send (params : TokenRequestParams) : M unit :=
  modify (with_request params).

(** [makeTokenRequest], after [await fetch(...)] and, for a response that
    is not ok, [await response.json()]: nothing of the service is read or
    written between the two. *)
Definition makeTokenRequest_receive (net : FetchOutcome) : M TokenResponse :=
  match net with
  | FetchRejected => throw ExnFetch
  | FetchNotOk body => throw (ExnOAuth2 body)
  | FetchOk tokens => ret tokens
  end.

Definition makeTokenRequest (params : TokenRequestParams) (net : FetchOutcome)
  : M TokenResponse :=
  makeTokenRequest_send params ;;
  makeTokenRequest_receive net.

(** [storeTokens(tokens)], with [Date.now()] reading [now]. *)
Definition storeTokens (tokens : TokenResponse) (now : Z) : M unit :=
  modify (with_storage (TokenStorage.setAccessToken (access_token tokens))) ;;
  match nonempty (refresh_token tokens) with
  | Some t => modify (with_storage (TokenStorage.setRefreshToken t))
  | None => ret tt
  end ;;
  match nonempty (id_token tokens) with
  | Some t => modify (with_storage (TokenStorage.setIdToken t))
  | None => ret tt
  end ;;
  match nonempty (tr_scope tokens) with
  | Some t => modify (with_storage (TokenStorage.setScope t))
  | None => ret tt
  end ;;
  match expires_in tokens with
  | Some e =>
      if e =? 0 then ret tt
      else
        let expiresAt := now + e * 1000 in
        modify (with_storage (TokenStorage.setExpiresAt expiresAt))
  | None => ret tt
  end.

(** [scheduleTokenRefresh()]: the pending timer, if any, is cancelled and,
    when an expiry is known, a new one is set.  The timer is kept as its
    delay; what it does when it fires is a call of [refreshAccessToken]. *)
Definition scheduleTokenRefresh (now : Z) : M unit :=
  fun s =>
    if negb (autoRefresh (config s)) then (Ret tt, s)
    else
      let s := with_refreshTimer None s in
      let expiresAt := TokenStorage.getExpiresAt (storage s) in
      match expiresAt with
      | Some (JS.Int e) =>
          if e =? 0 then (Ret tt, s)
          else
            let refreshAt := e - refreshBufferTime (config s) * 1000 in
            let delay := Z.max 0 (refreshAt - now) in
            (Ret tt, with_refreshTimer (Some delay) s)
      | _ => (Ret tt, s)
      end.

(** [logout(redirectTo)] *)
Definition logout (redirectTo : option string) : M unit :=
  modify (with_refreshTimer None) ;;
  modify (with_storage TokenStorage.clear) ;;
  modify (with_callback (onAuthStateChange false)) ;;
  let* cfg := gets config in
  if JS.truthy (Some (logoutEndpoint cfg)) then
    let params : Obj.t :=
      [("client_id", Some (clientId cfg));
       ("post_logout_redirect_uri",
        Some (match nonempty redirectTo with
              | Some r => r
              | None => location_origin
              end))] in
    match Url.buildUrl (logoutEndpoint cfg) params with
    | Some u => modify (with_href (HrefUrl u))
    | None => throw ExnTypeError
    end
  else
    match nonempty redirectTo with
    | Some r => modify (with_href (HrefString r))
    | None => ret tt
    end.

(** [getAccessToken()], with [Date.now()] reading [now]. *)
Definition getAccessToken (now : Z) : M (option string) :=
  let* token := gets (fun s => TokenStorage.getAccessToken (storage s)) in
  let* expiresAt := gets (fun s => TokenStorage.getExpiresAt (storage s)) in
  if JS.truthy token && JS.truthy_num expiresAt
     && match expiresAt with Some e => JS.geb now e | None => false end
  then logout None ;; ret None
  else ret token.

Definition isAuthenticated (now : Z) : M bool :=
  let* token := getAccessToken now in
  ret (JS.truthy token).

(** [exchangeCodeForToken(code, codeVerifier)] *)
Definition exchangeCodeForToken (code codeVerifier : string) (now : Z) (net : FetchOutcome)
  : M unit :=
  let* cfg := gets config in
  let params :=
    {| grant_type := AUTHORIZATION_CODE;
       code := Some code;
       rq_refresh_token := None;
       client_id := clientId cfg;
       redirect_uri := Some (redirectUri cfg);
       code_verifier := Some codeVerifier |} in
  let* tokens := makeTokenRequest params net in
  storeTokens tokens now ;;
  scheduleTokenRefresh now ;;
  modify (with_callback (onAuthStateChange true)).

(** [authorize(additionalParams)].  [rng1] and [rng2] are the random source
    at its two readings, for the verifier and for the state.  The one
    [await], on the digest, comes before the service is touched, so all
    that follows is one synchronous piece; an absent [additionalParams] is
    the empty list. *)
Definition authorize (additionalParams : list (string * string))
                     (rng1 rng2 : nat -> Byte.byte) : M unit :=
  try_catch
    (let '(codeVerifier, codeChallenge) := Crypto.generatePKCEParams rng1 in
     let state := Crypto.generateRandomString rng2 32 in
     modify (with_storage (TokenStorage.setCodeVerifier codeVerifier)) ;;
     modify (with_storage (TokenStorage.setState state)) ;;
     let* cfg := gets config in
     let params : Obj.t :=
       Obj.spread additionalParams
         [("response_type", Some "code");
          ("client_id", Some (clientId cfg));
          ("redirect_uri", Some (redirectUri cfg));
          ("scope", Some (scope cfg));
          ("state", Some state);
          ("code_challenge", Some codeChallenge);
          ("code_challenge_method", Some "S256")] in
     match Url.buildUrl (authorizationEndpoint cfg) params with
     | Some authUrl => modify (with_href (HrefUrl authUrl))
     | None => throw ExnTypeError
     end)
    (fun error => handleError error ;; throw error).

(** [handleCallback(url)].  [net] is what the token endpoint answers if it
    is asked, [now] the clock when the answer is stored.  The last step of
    the source, [window.history.replaceState], changes nothing here. *)
Definition handleCallback (url : option string) (now : Z) (net : FetchOutcome) : M unit :=
  try_catch
    (match URL_new (match nonempty url with Some u => u | None => location_href end) with
     | None => throw ExnTypeError
     | Some urlObj =>
         let params := Url.parseQueryParams urlObj in
         match nonempty (params !! "error") with
         | Some e =>
             throw (ExnOAuth2 {| error := e;
                                 error_description := params !! "error_description";
                                 error_uri := params !! "error_uri" |})
         | None =>
             let* storedState := gets (fun s => TokenStorage.getState (storage s)) in
             match nonempty storedState with
             | None => throw (ExnError "Invalid state parameter")
             | Some stored =>
                 if negb (Crypto.validateState (params !! "state") stored)
                 then throw (ExnError "Invalid state parameter")
                 else
                   let* codeVerifier :=
                     gets (fun s => TokenStorage.getCodeVerifier (storage s)) in
                   match nonempty (params !! "code"), nonempty codeVerifier with
                   | Some code, Some verifier =>
                       exchangeCodeForToken code verifier now net ;;
                       modify (with_storage TokenStorage.clearTemporary)
                   | _, _ =>
                       throw (ExnError "Missing authorization code or code verifier")
                   end
             end
         end
     end)
    (fun error => handleError error ;; throw error).

(** [performRefresh] up to its suspension at [await fetch]: a missing
    refresh token is thrown before the [try], otherwise the request leaves. *)
Definition performRefresh_start : M unit :=
  let* refreshToken := gets (fun s => TokenStorage.getRefreshToken (storage s)) in
  match nonempty refreshToken with
  | None => throw (ExnError "No refresh token available")
  | Some token =>
      let* cfg := gets config in
      makeTokenRequest_send
        {| grant_type := REFRESH_TOKEN;
           code := None;
           rq_refresh_token := Some token;
           client_id := clientId cfg;
           redirect_uri := None;
           code_verifier := None |}
  end.

(** [performRefresh] from the answer of the endpoint to its end. *)
Definition performRefresh_finish (now : Z) (net : FetchOutcome) : M unit :=
  try_catch
    (let* tokens := makeTokenRequest_receive net in
     storeTokens tokens now ;;
     scheduleTokenRefresh now ;;
     modify (with_callback (onTokenRefresh tokens)))
    (fun error => logout None ;; throw error).

Definition performRefresh (now : Z) (net : FetchOutcome) : M unit :=
  performRefresh_start ;;
  performRefresh_finish now net.

(** [getRefreshToken()], [getIdToken()], [getTokenExpiry()] *)
Definition getRefreshToken : M (option string) :=
  gets (fun s => TokenStorage.getRefreshToken (storage s)).

Definition getIdToken : M (option string) :=
  gets (fun s => TokenStorage.getIdToken (storage s)).

Definition getTokenExpiry : M (option JS.Num) :=
  gets (fun s => TokenStorage.getExpiresAt (storage s)).

(** [getAuthState()].  The fields are computed in the order of the object
    literal; [now1] and [now2] are the clock at the two calls that read it,
    [isAuthenticated()] and [getAccessToken()]. *)
Definition getAuthState (now1 now2 : Z) : M AuthState.t :=
  let* isAuth := isAuthenticated now1 in
  let* accessToken := getAccessToken now2 in
  let* refreshToken := getRefreshToken in
  let* idToken := getIdToken in
  let* expiresAt := getTokenExpiry in
  let* scope := gets (fun s => TokenStorage.getScope (storage s)) in
  ret {| AuthState.isAuthenticated := isAuth;
         AuthState.isLoading := false;
         AuthState.accessToken := accessToken;
         AuthState.refreshToken := refreshToken;
         AuthState.idToken := idToken;
         AuthState.expiresAt := expiresAt;
         AuthState.scope := scope;
         AuthState.error := None |}.

(** The defaults of the constructor, under the caller's configuration. *)
Definition withDefaults (config : ConfigInput.t) : OAuth2Config :=
  {| clientId := ConfigInput.clientId config;
     authorizationEndpoint := ConfigInput.authorizationEndpoint config;
     tokenEndpoint := ConfigInput.tokenEndpoint config;
     redirectUri := ConfigInput.redirectUri config;
     scope := match ConfigInput.scope config with Some v => v | None => "" end;
     logoutEndpoint :=
       match ConfigInput.logoutEndpoint config with Some v => v | None => "" end;
     autoRefresh :=
       match ConfigInput.autoRefresh config with Some v => v | None => true end;
     refreshBufferTime :=
       match ConfigInput.refreshBufferTime config with
       | Some v => v
       | None => DEFAULT_REFRESH_BUFFER
       end;
     storageKeyPrefix :=
       match ConfigInput.storageKeyPrefix config with Some v => v | None => "oauth2_" end |}.

(** The service as the first two statements of the constructor leave it. *)
Definition created (config : ConfigInput.t) (backend : gmap string string) : Service :=
  let cfg := withDefaults config in
  {| config := cfg;
     storage := TokenStorage.mk backend (storageKeyPrefix cfg);
     refreshTimer := None;
     refreshPromise := None;
     callbacks := [];
     requests := [];
     href := None |}.

(** [new OAuth2Service(input)] in a browser whose window is at the path
    [pathname], over the storage [backend]; [now] is the clock during the
    constructor.  On the redirect URI the constructor calls
    [handleCallback()] and drops its failure; here the call is followed to
    its end, with [later] the clock and [net] the answer of the endpoint
    then, as when nothing else runs in between. *)
Definition constructor (input : ConfigInput.t) (backend : gmap string string)
           (pathname : string) (now later : Z) (net : FetchOutcome)
  : Res unit * Service :=
  (let* authenticated := isAuthenticated now in
   (if authenticated then scheduleTokenRefresh now else ret tt) ;;
   let* cfg := gets config in
   match Url.isRedirectUri pathname (redirectUri cfg) with
   | None => throw ExnTypeError
   | Some true => try_catch (handleCallback None later net) (fun _ => ret tt)
   | Some false => ret tt
   end) (created input backend).

End WithPlatform.
End OAuth2Service.

(** ** Interleavings of [refreshAccessToken]

    All code of one service runs on one event loop, so an asynchronous
    function is a sequence of synchronous pieces separated by its [await]s.
    [refreshAccessToken] has two pieces: from the call to [await
    this.refreshPromise] (which contains the first piece of [performRefresh]),
    and the [finally] block.  [performRefresh] continues when the token
    endpoint has answered.  Between two pieces any other call may run. *)

Module Loop.
Section WithPlatform.
Context `{Platform}.

Record World : Type := mkWorld {
  service : Service;
  (** The promises [performRefresh] has returned, by identity; [None] while
      pending, then the outcome. *)
  promises : list (option (Res unit));
  (** The calls of [refreshAccessToken] suspended at their [await], by the
      promise they wait for. *)
  suspended : list nat;
  (** For every call of [refreshAccessToken] so far, oldest first, the
      promise whose outcome its caller receives. *)
  received : list nat;
}.

Inductive Action : Type :=
| Call                                           (* refreshAccessToken() is called *)
| Answer (p : nat) (now : Z) (net : FetchOutcome) (* the endpoint answers; performRefresh of promise p runs to its end *)
| Resume (p : nat)                               (* the call suspended on p runs its finally block *)
| Logout (redirectTo : option string)            (* logout(redirectTo) is called *)
| IsAuthenticated (now : Z).                     (* isAuthenticated() is called *)

Definition on_service (f : Service -> Service) (w : World) : World :=
  mkWorld (f (service w)) (promises w) (suspended w) (received w).

(** [if (this.refreshPromise) return this.refreshPromise;
     this.refreshPromise = this.performRefresh();
     try { await this.refreshPromise ...] *)
Definition call (w : World) : World :=
  match refreshPromise (service w) with
  | Some p => mkWorld (service w) (promises w) (suspended w) (received w ++ [p])
  | None =>
      let p := List.length (promises w) in
      let '(r, s) := OAuth2Service.performRefresh_start (service w) in
      let state := match r with
                   | Ret _ => None
                   | Throw e => Some (Throw e)
                   end in
      mkWorld (with_refreshPromise (Some p) s)
              (promises w ++ [state]) (suspended w ++ [p]) (received w ++ [p])
  end.

Definition answer (p : nat) (now : Z) (net : FetchOutcome) (w : World) : World :=
  match promises w !! p with
  | Some None =>
      let '(r, s) := OAuth2Service.performRefresh_finish now net (service w) in
      mkWorld s (<[p := Some r]> (promises w)) (suspended w) (received w)
  | _ => w
  end.

(** [... } finally { this.refreshPromise = undefined; }] *)
Definition resume (p : nat) (w : World) : World :=
  match promises w !! p with
  | Some (Some _) =>
      if existsb (Nat.eqb p) (suspended w)
      then mkWorld (with_refreshPromise None (service w)) (promises w)
                   (List.filter (fun q => negb (Nat.eqb p q)) (suspended w)) (received w)
      else w
  | _ => w
  end.

Definition step (a : Action) (w : World) : World :=
  match a with
  | Call => call w
  | Answer p now net => answer p now net w
  | Resume p => resume p w
  | Logout redirectTo => on_service (fun s => snd (OAuth2Service.logout redirectTo s)) w
  | IsAuthenticated now => on_service (fun s => snd (OAuth2Service.isAuthenticated now s)) w
  end.

Definition run (l : list Action) (w : World) : World :=
  fold_left (fun w a => step a w) l w.

(** The outcome the caller of the [k]-th call has received, if any yet. *)
Definition outcome (w : World) (k : nat) : option (Res unit) :=
  match received w !! k with
  | Some p => match promises w !! p with
              | Some o => o
              | None => None
              end
  | None => None
  end.

(** A world in which nothing is in flight. *)
Definition idle (s : Service) : World := mkWorld s [] [] [].

(** One call of [refreshAccessToken] that runs alone from start to end. *)
Definition refreshAccessToken (now : Z) (net : FetchOutcome) (w : World) : World :=
  let p := List.length (promises w) in
  run [Call; Answer p now net; Resume p] w.

End WithPlatform.
End Loop.

(** ** Reference definitions *)

Module Spec.

(** The eight bits of an octet, most significant first. *)
Definition bits8 (b : Byte.byte) : list bool :=
  map (N.testbit (Byte.to_N b)) [7; 6; 5; 4; 3; 2; 1; 0]%N.

(** The number a sequence of bits denotes, most significant first. *)
Definition value (bits : list bool) : N :=
  fold_left (fun acc (b : bool) => (2 * acc + (if b then 1 else 0))%N) bits 0%N.

(** The bit stream cut into groups of six; a shorter last group is filled
    with zero bits on the right. *)
Fixpoint groups6 (bits : list bool) : list (list bool) :=
  match bits with
  | b1 :: b2 :: b3 :: b4 :: b5 :: b6 :: r => [b1; b2; b3; b4; b5; b6] :: groups6 r
  | [] => []
  | last => [firstn 6 (last ++ repeat false 5)]
  end.

(** Base64url without padding (RFC 4648, sections 5 and 3.2): every group
    of six bits of the input is one character of the URL-safe alphabet, and
    no '=' follows. *)
Definition base64url_nopad (data : list Byte.byte) : string :=
  string_of_list_ascii
    (map (fun g => Crypto.alphabet_char Crypto.b64_url (value g))
         (groups6 (flat_map bits8 data))).

(** The octets of a string of ASCII characters: its UTF-8 encoding. *)
Definition ascii_octets (s : string) : list Byte.byte :=
  map byte_of_ascii (list_ascii_of_string s).

End Spec.

(** ** A platform to run examples on

    The digest is the stub of [tests/setup.ts] (thirty-two zero octets);
    a URL is split at the first '?', then at '&' and '=', without
    percent-decoding, and a string without ':' is no URL. *)

Module TestPlatform.

Fixpoint split_at (c : ascii) (s : string) : string * option string :=
  match s with
  | EmptyString => (EmptyString, None)
  | String x r =>
      if Ascii.eqb x c then (EmptyString, Some r)
      else let '(a, b) := split_at c r in (String x a, b)
  end.

Fixpoint fields (c : ascii) (s : string) : list string :=
  match s with
  | EmptyString => [EmptyString]
  | String x r =>
      if Ascii.eqb x c then EmptyString :: fields c r
      else match fields c r with
           | f :: fs => String x f :: fs
           | [] => [String x EmptyString]
           end
  end.

Definition pair_of (field : string) : string * string :=
  let '(k, v) := split_at "=" field in
  (k, match v with Some v => v | None => EmptyString end).

Definition url_new (s : string) : option URL :=
  match snd (split_at ":" s) with
  | None => None
  | Some _ =>
      let '(base, query) := split_at "?" s in
      Some {| url_base := base;
              searchParams :=
                match query with
                | None => []
                | Some q =>
                    map pair_of
                        (List.filter (fun f => negb (String.eqb f "")) (fields "&" q))
                end |}
  end.

Definition digest (algorithm : string) (data : list Byte.byte) : list Byte.byte :=
  repeat x00 32.

#[export] Instance platform : Platform :=
  {| URL_new := url_new;
     subtle_digest := digest;
     location_origin := "https://app";
     location_href := "https://app/" |}.

Definition test_config : OAuth2Config :=
  {| clientId := "c1";
     authorizationEndpoint := "https://a/authorize";
     tokenEndpoint := "https://a/token";
     redirectUri := "https://app/cb";
     scope := "";
     logoutEndpoint := "";
     autoRefresh := true;
     refreshBufferTime := DEFAULT_REFRESH_BUFFER;
     storageKeyPrefix := "oauth2_" |}.

(** A service over the given backend, with nothing pending. *)
Definition service (backend : list (string * string)) : Service :=
  {| config := test_config;
     storage := TokenStorage.mk (list_to_map backend) "oauth2_";
     refreshTimer := None;
     refreshPromise := None;
     callbacks := [];
     requests := [];
     href := None |}.

Definition rng_zero (i : nat) : Byte.byte := x00.

(** A source whose [i]-th octet is [i] (modulo 256). *)
Definition rng_count (i : nat) : Byte.byte :=
  match Byte.of_N (N.of_nat i mod 256) with
  | Some b => b
  | None => x00
  end.

End TestPlatform.

(** ** Scenarios *)

Module Scenario.
Import TestPlatform.

Definition endpoint : URL := {| url_base := "https://a/authorize"; searchParams := [] |}.

Definition callback_url : option string := Some "https://app/cb?code=XYZ&state=S1".

Definition invalid_grant : OAuth2Error :=
  {| error := "invalid_grant"; error_description := None; error_uri := None |}.

Definition server_error : OAuth2Error :=
  {| error := "server_error"; error_description := None; error_uri := None |}.

(** A token response with nothing but an access token. *)
Definition bare (token : string) : TokenResponse :=
  {| access_token := token;
     token_type := "Bearer";
     expires_in := None;
     refresh_token := None;
     tr_scope := None;
     id_token := None |}.

(** The flow state of a pending authorization. *)
Definition awaiting_callback : Service :=
  service [("oauth2_state", "S1"); ("oauth2_code_verifier", "V1")].

(** A session whose expiry was recorded as 1000. *)
Definition session : Service :=
  service [("oauth2_access_token", "A1");
           ("oauth2_refresh_token", "R1");
           ("oauth2_expires_at", "1000")].

End Scenario.

(** ** Auxiliary definitions for the proofs *)

(** Every octet, once. *)
Definition all_bytes : list Byte.byte :=
  map (fun n => match Byte.of_N (N.of_nat n) with Some b => b | None => x00 end)
      (seq 0 256).

(** [btoa(...)] followed by the three [replace] calls of [base64UrlEncode]. *)
Definition url_safe (s : string) : string :=
  Crypto.replace_all "=" "" (Crypto.replace_all "/" "_" (Crypto.replace_all "+" "-" s)).

(** The values of the six-bit groups of a sequence of octets. *)
Definition sextet_values (data : list Byte.byte) : list N :=
  map Spec.value (Spec.groups6 (flat_map Spec.bits8 data)).

(** The logout endpoint of a valid configuration: none, or a well-formed URL. *)
Definition logout_target_ok `{Platform} (cfg : OAuth2Config) : Prop :=
  logoutEndpoint cfg = "" \/ exists u, URL_new (logoutEndpoint cfg) = Some u.

(** The actions that neither answer a request nor resume a suspended call. *)
Definition quiet (a : Loop.Action) : bool :=
  match a with
  | Loop.Call | Loop.Logout _ | Loop.IsAuthenticated _ => true
  | Loop.Answer _ _ _ | Loop.Resume _ => false
  end.

Definition is_call (a : Loop.Action) : bool :=
  match a with
  | Loop.Call => true
  | _ => false
  end.

Definition count_calls (l : list Loop.Action) : nat :=
  List.length (List.filter is_call l).

(** An answer of the token endpoint that is no token response: no answer
    at all, or an error body. *)
Definition failed_fetch (body : option OAuth2Error) : FetchOutcome :=
  match body with
  | Some b => FetchNotOk b
  | None => FetchRejected
  end.

(** The request [performRefresh] sends. *)
Definition refresh_request (cfg : OAuth2Config) (token : string) : TokenRequestParams :=
  {| grant_type := REFRESH_TOKEN;
     code := None;
     rq_refresh_token := Some token;
     client_id := clientId cfg;
     redirect_uri := None;
     code_verifier := None |}.

(** The request [exchangeCodeForToken] sends. *)
Definition exchange_request (cfg : OAuth2Config) (code verifier : string)
  : TokenRequestParams :=
  {| grant_type := AUTHORIZATION_CODE;
     code := Some code;
     rq_refresh_token := None;
     client_id := clientId cfg;
     redirect_uri := Some (redirectUri cfg);
     code_verifier := Some verifier |}.

(** The reading of "[onAuthStateChange(false)] is never invoked when the
    session was already unauthenticated", for a call of [logout]. *)
Definition silent_when_unauthenticated `{Platform}
           (s : Service) (redirectTo : option string) (now : Z) : Prop :=
  fst (OAuth2Service.isAuthenticated now s) = Ret false ->
  callbacks (snd (OAuth2Service.logout redirectTo s)) = callbacks s.

(** The pairs [buildUrl] appends for a list of entries: those whose value
    is not [undefined]. *)
Definition appended (l : list (string * option string)) : list (string * string) :=
  flat_map (fun kv => match snd kv with Some v => [(fst kv, v)] | None => [] end) l.

(** The parameters [authorize] puts into the request before the caller's. *)
Definition authorization_params (cfg : OAuth2Config) (state codeChallenge : string)
  : list (string * string) :=
  [("response_type", "code");
   ("client_id", clientId cfg);
   ("redirect_uri", redirectUri cfg);
   ("scope", scope cfg);
   ("state", state);
   ("code_challenge", codeChallenge);
   ("code_challenge_method", "S256")].

(** The URL [u] carries the parameter [k] with the value [v]. *)
Definition carries (u : URL) (k v : string) : Prop := In (k, v) (searchParams u).

(** The reading of the claim about [authorize]: the URL it navigates to
    carries the fixed parameters, the state that was persisted and the
    challenge of the verifier that was persisted, whatever the caller adds. *)
Definition authorize_url_as_claimed `{Platform}
           (s : Service) (additionalParams : list (string * string))
           (rng1 rng2 : nat -> Byte.byte) : Prop :=
  let s' := snd (OAuth2Service.authorize additionalParams rng1 rng2 s) in
  exists u state verifier,
    href s' = Some (HrefUrl u)
    /\ TokenStorage.getState (storage s') = Some state
    /\ TokenStorage.getCodeVerifier (storage s') = Some verifier
    /\ carries u "response_type" "code"
    /\ carries u "client_id" (clientId (config s))
    /\ carries u "code_challenge_method" "S256"
    /\ carries u "state" state
    /\ carries u "code_challenge" (Crypto.base64UrlEncode (Crypto.sha256 verifier)).

(** The test of [getAccessToken]: [token && expiresAt && Date.now() >= expiresAt]. *)
Definition lazily_expired (now : Z) (s : Service) : bool :=
  let token := TokenStorage.getAccessToken (storage s) in
  let expiresAt := TokenStorage.getExpiresAt (storage s) in
  JS.truthy token && JS.truthy_num expiresAt
  && match expiresAt with Some e => JS.geb now e | None => false end.

(** What holds of the event loop at every moment: the only promise that
    may be pending is the one the marker names, the only call that may be
    suspended is the one waiting for it, and a marker names a promise that
    exists and has its suspended call. *)
Definition loop_inv (w : Loop.World) : Prop :=
  (forall q, Loop.promises w !! q = Some None -> refreshPromise (Loop.service w) = Some q)
  /\ (forall q, In q (Loop.suspended w) -> refreshPromise (Loop.service w) = Some q)
  /\ (forall p, refreshPromise (Loop.service w) = Some p ->
                (p < List.length (Loop.promises w))%nat /\ In p (Loop.suspended w)).

(** The proper and improper suffixes of a string, longest first. *)
Fixpoint suffixes (s : string) : list string :=
  match s with
  | EmptyString => [EmptyString]
  | String _ r => s :: suffixes r
  end.

(** The number of octets that [generateRandomString] turns into the
    character [c]. *)
Definition octets_giving (c : ascii) : nat :=
  List.length
    (List.filter
       (fun v => String.eqb (Crypto.generateRandomString (fun _ => v) 1) (String c ""))
       all_bytes).

(** The address [handleCallback] reads: its argument, or the address of the
    window when the argument is absent or empty. *)
Definition callback_address `{Platform} (url : option string) : string :=
  match nonempty url with
  | Some u => u
  | None => location_href
  end.

(** * Properties *)

(** ** Strings and octets *)

Lemma all_bytes_complete (b : Byte.byte) : In b all_bytes.
Proof.
  apply in_map_iff. exists (Byte.to_nat b). split.
  - now rewrite <- Byte.to_N_via_nat, Byte.of_to_N.
  - apply in_seq. pose proof (Byte.to_N_bounded b). rewrite Byte.to_nat_via_N. lia.
Qed.

Lemma forall_bytes (P : Byte.byte -> bool) :
  forallb P all_bytes = true -> forall b, P b = true.
Proof.
  intros HP b. rewrite forallb_forall in HP. apply HP, all_bytes_complete.
Qed.

Lemma forall_bytes2 (P : Byte.byte -> Byte.byte -> bool) :
  forallb (fun a => forallb (P a) all_bytes) all_bytes = true ->
  forall a b, P a b = true.
Proof.
  intros HP a b.
  apply (forall_bytes (P a)). apply (forall_bytes (fun a => forallb (P a) all_bytes) HP).
Qed.

Lemma forall_below (n : nat) (P : nat -> bool) :
  forallb P (seq 0 n) = true -> forall i, (i < n)%nat -> P i = true.
Proof.
  intros HP i Hi. rewrite forallb_forall in HP. apply HP, in_seq. lia.
Qed.

Lemma string_app_cons (c : ascii) (a b : string) :
  (String c a ++ b)%string = String c (a ++ b).
Proof. reflexivity. Qed.

Lemma string_app_nil_l (a : string) : ("" ++ a)%string = a.
Proof. reflexivity. Qed.

Ltac app_simpl := rewrite ?string_app_cons, ?string_app_nil_l; simpl.

Lemma string_app_nil_r (s : string) : (s ++ "")%string = s.
Proof. induction s as [|c s IH]; app_simpl; [reflexivity | now rewrite IH]. Qed.

Lemma string_app_assoc (a b c : string) : ((a ++ b) ++ c)%string = (a ++ (b ++ c))%string.
Proof. induction a as [|x a IH]; app_simpl; [reflexivity | now rewrite IH]. Qed.

Lemma string_app_inv_head (p a b : string) : (p ++ a)%string = (p ++ b)%string -> a = b.
Proof.
  induction p as [|x p IH]; app_simpl; intros E; [exact E | injection E as E; auto].
Qed.

Lemma string_of_list_app (a b : list ascii) :
  string_of_list_ascii (a ++ b) = (string_of_list_ascii a ++ string_of_list_ascii b)%string.
Proof. induction a as [|x a IH]; simpl; app_simpl; [reflexivity | now rewrite IH]. Qed.

Lemma concat_empty_cons (x : string) (l : list string) :
  String.concat "" (x :: l) = (x ++ String.concat "" l)%string.
Proof.
  destruct l as [|y l].
  - cbn [String.concat]. symmetry. apply string_app_nil_r.
  - reflexivity.
Qed.

Lemma N_of_ascii_of_byte (b : Byte.byte) : N_of_ascii (ascii_of_byte b) = Byte.to_N b.
Proof.
  rewrite ascii_of_byte_via_N. apply N_ascii_embedding.
  pose proof (Byte.to_N_bounded b). lia.
Qed.

Lemma list_ind3 {A} (P : list A -> Prop) :
  P [] -> (forall a, P [a]) -> (forall a b, P [a; b]) ->
  (forall a b c r, P r -> P (a :: b :: c :: r)) ->
  forall l, P l.
Proof.
  intros H0 H1 H2 H3 l.
  enough (P l /\ (forall a, P (a :: l)) /\ (forall a b, P (a :: b :: l))) by tauto.
  induction l as [|x l (IH0 & IH1 & IH2)]; repeat split; auto.
Qed.

(** ** The random strings *)

Lemma charset_pick (v : Byte.byte) :
  exists c,
    Crypto.char_at Crypto.charset
      (N.to_nat (Byte.to_N v mod N.of_nat (String.length Crypto.charset))) = String c ""
    /\ Crypto.unreserved c = true.
Proof.
  pose (P := fun v =>
    match Crypto.char_at Crypto.charset
            (N.to_nat (Byte.to_N v mod N.of_nat (String.length Crypto.charset))) with
    | String c EmptyString => Crypto.unreserved c
    | _ => false
    end).
  assert (HP : P v = true) by (apply forall_bytes; vm_compute; reflexivity).
  unfold P in HP.
  destruct (Crypto.char_at _ _) as [|c [|d r]]; try discriminate.
  exists c. split; [reflexivity | exact HP].
Qed.

Lemma picked_chars (l : list Byte.byte) :
  let s := String.concat ""
             (map (fun value =>
                     Crypto.char_at Crypto.charset
                       (N.to_nat (Byte.to_N value mod N.of_nat (String.length Crypto.charset))))
                  l) in
  String.length s = List.length l
  /\ Forall (fun c => Crypto.unreserved c = true) (list_ascii_of_string s).
Proof.
  induction l as [|v l [IHl IHc]].
  - split; [reflexivity | constructor].
  - cbv zeta in *. rewrite map_cons, concat_empty_cons.
    destruct (charset_pick v) as (c & -> & Hc).
    rewrite string_app_cons, string_app_nil_l.
    cbn [String.length list_ascii_of_string List.length]. split.
    + now rewrite IHl.
    + constructor; assumption.
Qed.

Lemma generateRandomString_chars (rng : nat -> Byte.byte) (n : nat) :
  String.length (Crypto.generateRandomString rng n) = n
  /\ Forall (fun c => Crypto.unreserved c = true)
            (list_ascii_of_string (Crypto.generateRandomString rng n)).
Proof.
  unfold Crypto.generateRandomString.
  destruct (picked_chars (Crypto.getRandomValues rng n)) as [Hl Hc].
  split; [|exact Hc].
  rewrite Hl. unfold Crypto.getRandomValues. now rewrite length_map, length_seq.
Qed.

(** ** Base64 *)

Lemma replace_all_app (c : ascii) (by_ a b : string) :
  Crypto.replace_all c by_ (a ++ b)
  = (Crypto.replace_all c by_ a ++ Crypto.replace_all c by_ b)%string.
Proof.
  induction a as [|x a IH]; [reflexivity|].
  rewrite string_app_cons. cbn [Crypto.replace_all].
  destruct (Ascii.eqb x c); rewrite IH.
  - now rewrite string_app_assoc.
  - reflexivity.
Qed.

Lemma url_safe_app (a b : string) : url_safe (a ++ b) = (url_safe a ++ url_safe b)%string.
Proof. unfold url_safe. now rewrite !replace_all_app. Qed.

Lemma chars_cons (alphabet : string) (i : N) (l : list N) :
  Crypto.chars alphabet (i :: l)
  = (String (Crypto.alphabet_char alphabet i) "" ++ Crypto.chars alphabet l)%string.
Proof. reflexivity. Qed.

Lemma chars_app (alphabet : string) (l1 l2 : list N) :
  Crypto.chars alphabet (l1 ++ l2)
  = (Crypto.chars alphabet l1 ++ Crypto.chars alphabet l2)%string.
Proof. unfold Crypto.chars. now rewrite map_app, string_of_list_app. Qed.

Lemma url_safe_char (i : N) :
  (i < 64)%N ->
  url_safe (String (Crypto.alphabet_char Crypto.b64_std i) "")
  = String (Crypto.alphabet_char Crypto.b64_url i) "".
Proof.
  intros Hi.
  pose (P := fun n : nat =>
    String.eqb (url_safe (String (Crypto.alphabet_char Crypto.b64_std (N.of_nat n)) ""))
               (String (Crypto.alphabet_char Crypto.b64_url (N.of_nat n)) "")).
  assert (HP : P (N.to_nat i) = true).
  { apply (forall_below 64); [vm_compute; reflexivity | lia]. }
  unfold P in HP. rewrite N2Nat.id in HP. now apply String.eqb_eq in HP.
Qed.

Lemma url_safe_chars (l : list N) :
  Forall (fun i => (i < 64)%N) l ->
  url_safe (Crypto.chars Crypto.b64_std l) = Crypto.chars Crypto.b64_url l.
Proof.
  induction 1 as [|i l Hi _ IH]; [reflexivity|].
  now rewrite !chars_cons, url_safe_app, url_safe_char, IH.
Qed.

Lemma url_alphabet_no_pad (i : N) :
  (i < 64)%N -> Crypto.alphabet_char Crypto.b64_url i <> "="%char.
Proof.
  intros Hi.
  pose (P := fun n : nat =>
    negb (Ascii.eqb (Crypto.alphabet_char Crypto.b64_url (N.of_nat n)) "=")).
  assert (HP : P (N.to_nat i) = true).
  { apply (forall_below 64); [vm_compute; reflexivity | lia]. }
  unfold P in HP. rewrite N2Nat.id in HP.
  intros E. rewrite E in HP. discriminate.
Qed.

(** The arithmetic of [btoa] against the bits of the octets. *)

Lemma sextet_high (a : Byte.byte) :
  let n := Byte.to_N a in
  Spec.value (map (N.testbit n) [7; 6; 5; 4; 3; 2]%N) = N.shiftr n 2
  /\ (N.shiftr n 2 < 64)%N.
Proof.
  pose (P := fun a =>
    let n := Byte.to_N a in
    N.eqb (Spec.value (map (N.testbit n) [7; 6; 5; 4; 3; 2]%N)) (N.shiftr n 2)
    && N.ltb (N.shiftr n 2) 64).
  assert (HP : P a = true) by (apply forall_bytes; vm_compute; reflexivity).
  apply andb_true_iff in HP as [E L]. apply N.eqb_eq in E. apply N.ltb_lt in L. now split.
Qed.

Lemma sextet_low (c : Byte.byte) :
  let n := Byte.to_N c in
  Spec.value (map (N.testbit n) [5; 4; 3; 2; 1; 0]%N) = N.land n 63
  /\ (N.land n 63 < 64)%N.
Proof.
  pose (P := fun c =>
    let n := Byte.to_N c in
    N.eqb (Spec.value (map (N.testbit n) [5; 4; 3; 2; 1; 0]%N)) (N.land n 63)
    && N.ltb (N.land n 63) 64).
  assert (HP : P c = true) by (apply forall_bytes; vm_compute; reflexivity).
  apply andb_true_iff in HP as [E L]. apply N.eqb_eq in E. apply N.ltb_lt in L. now split.
Qed.

Lemma sextet_pad1 (a : Byte.byte) :
  let n := Byte.to_N a in
  Spec.value (map (N.testbit n) [1; 0]%N ++ repeat false 4) = N.shiftl (N.land n 3) 4
  /\ (N.shiftl (N.land n 3) 4 < 64)%N.
Proof.
  pose (P := fun a =>
    let n := Byte.to_N a in
    N.eqb (Spec.value (map (N.testbit n) [1; 0]%N ++ repeat false 4))
          (N.shiftl (N.land n 3) 4)
    && N.ltb (N.shiftl (N.land n 3) 4) 64).
  assert (HP : P a = true) by (apply forall_bytes; vm_compute; reflexivity).
  apply andb_true_iff in HP as [E L]. apply N.eqb_eq in E. apply N.ltb_lt in L. now split.
Qed.

Lemma sextet_pad2 (b : Byte.byte) :
  let n := Byte.to_N b in
  Spec.value (map (N.testbit n) [3; 2; 1; 0]%N ++ repeat false 2) = N.shiftl (N.land n 15) 2
  /\ (N.shiftl (N.land n 15) 2 < 64)%N.
Proof.
  pose (P := fun b =>
    let n := Byte.to_N b in
    N.eqb (Spec.value (map (N.testbit n) [3; 2; 1; 0]%N ++ repeat false 2))
          (N.shiftl (N.land n 15) 2)
    && N.ltb (N.shiftl (N.land n 15) 2) 64).
  assert (HP : P b = true) by (apply forall_bytes; vm_compute; reflexivity).
  apply andb_true_iff in HP as [E L]. apply N.eqb_eq in E. apply N.ltb_lt in L. now split.
Qed.

Lemma sextet_mid1 (a b : Byte.byte) :
  let n := Byte.to_N a in
  let m := Byte.to_N b in
  Spec.value (map (N.testbit n) [1; 0]%N ++ map (N.testbit m) [7; 6; 5; 4]%N)
  = N.lor (N.shiftl (N.land n 3) 4) (N.shiftr m 4)
  /\ (N.lor (N.shiftl (N.land n 3) 4) (N.shiftr m 4) < 64)%N.
Proof.
  pose (P := fun a b =>
    let n := Byte.to_N a in
    let m := Byte.to_N b in
    N.eqb (Spec.value (map (N.testbit n) [1; 0]%N ++ map (N.testbit m) [7; 6; 5; 4]%N))
          (N.lor (N.shiftl (N.land n 3) 4) (N.shiftr m 4))
    && N.ltb (N.lor (N.shiftl (N.land n 3) 4) (N.shiftr m 4)) 64).
  assert (HP : P a b = true) by (apply forall_bytes2; vm_compute; reflexivity).
  apply andb_true_iff in HP as [E L]. apply N.eqb_eq in E. apply N.ltb_lt in L. now split.
Qed.

Lemma sextet_mid2 (b c : Byte.byte) :
  let n := Byte.to_N b in
  let m := Byte.to_N c in
  Spec.value (map (N.testbit n) [3; 2; 1; 0]%N ++ map (N.testbit m) [7; 6]%N)
  = N.lor (N.shiftl (N.land n 15) 2) (N.shiftr m 6)
  /\ (N.lor (N.shiftl (N.land n 15) 2) (N.shiftr m 6) < 64)%N.
Proof.
  pose (P := fun b c =>
    let n := Byte.to_N b in
    let m := Byte.to_N c in
    N.eqb (Spec.value (map (N.testbit n) [3; 2; 1; 0]%N ++ map (N.testbit m) [7; 6]%N))
          (N.lor (N.shiftl (N.land n 15) 2) (N.shiftr m 6))
    && N.ltb (N.lor (N.shiftl (N.land n 15) 2) (N.shiftr m 6)) 64).
  assert (HP : P b c = true) by (apply forall_bytes2; vm_compute; reflexivity).
  apply andb_true_iff in HP as [E L]. apply N.eqb_eq in E. apply N.ltb_lt in L. now split.
Qed.

Lemma sextet_values3 (a b c : Byte.byte) (r : list Byte.byte) :
  sextet_values (a :: b :: c :: r)
  = (Crypto.sextets3 (Byte.to_N a) (Byte.to_N b) (Byte.to_N c) ++ sextet_values r)%list
  /\ Forall (fun i => (i < 64)%N)
            (Crypto.sextets3 (Byte.to_N a) (Byte.to_N b) (Byte.to_N c)).
Proof.
  destruct (sextet_high a) as [E1 L1], (sextet_mid1 a b) as [E2 L2],
           (sextet_mid2 b c) as [E3 L3], (sextet_low c) as [E4 L4].
  cbn [map app] in E1, E2, E3, E4. cbv zeta in *.
  unfold sextet_values, Spec.bits8, Crypto.sextets3.
  cbn [flat_map map app Spec.groups6].
  rewrite E1, E2, E3, E4. split; [reflexivity | repeat constructor; assumption].
Qed.

Lemma sextet_values2 (a b : Byte.byte) :
  sextet_values [a; b] = Crypto.sextets2 (Byte.to_N a) (Byte.to_N b)
  /\ Forall (fun i => (i < 64)%N) (Crypto.sextets2 (Byte.to_N a) (Byte.to_N b)).
Proof.
  destruct (sextet_high a) as [E1 L1], (sextet_mid1 a b) as [E2 L2],
           (sextet_pad2 b) as [E3 L3].
  cbn [map app repeat] in E1, E2, E3. cbv zeta in *.
  unfold sextet_values, Spec.bits8, Crypto.sextets2.
  cbn [flat_map map app Spec.groups6 firstn repeat].
  rewrite E1, E2, E3. split; [reflexivity | repeat constructor; assumption].
Qed.

Lemma sextet_values1 (a : Byte.byte) :
  sextet_values [a] = Crypto.sextets1 (Byte.to_N a)
  /\ Forall (fun i => (i < 64)%N) (Crypto.sextets1 (Byte.to_N a)).
Proof.
  destruct (sextet_high a) as [E1 L1], (sextet_pad1 a) as [E2 L2].
  cbn [map app repeat] in E1, E2. cbv zeta in *.
  unfold sextet_values, Spec.bits8, Crypto.sextets1.
  cbn [flat_map map app Spec.groups6 firstn repeat].
  rewrite E1, E2. split; [reflexivity | repeat constructor; assumption].
Qed.

Lemma sextet_values_bound (data : list Byte.byte) :
  Forall (fun i => (i < 64)%N) (sextet_values data).
Proof.
  induction data as [| a | a b | a b c r IH] using list_ind3.
  - constructor.
  - destruct (sextet_values1 a) as [-> F]. exact F.
  - destruct (sextet_values2 a b) as [-> F]. exact F.
  - destruct (sextet_values3 a b c r) as [-> F]. apply Forall_app. now split.
Qed.

(** [btoa] and the three replacements together. *)
Lemma url_safe_btoa (data : list Byte.byte) :
  url_safe (Crypto.btoa_codes (map Byte.to_N data))
  = Crypto.chars Crypto.b64_url (sextet_values data).
Proof.
  induction data as [| a | a b | a b c r IH] using list_ind3.
  - reflexivity.
  - destruct (sextet_values1 a) as [-> F].
    cbn [map Crypto.btoa_codes]. rewrite url_safe_app, url_safe_chars by exact F.
    change (url_safe "==") with "". apply string_app_nil_r.
  - destruct (sextet_values2 a b) as [-> F].
    cbn [map Crypto.btoa_codes]. rewrite url_safe_app, url_safe_chars by exact F.
    change (url_safe "=") with "". apply string_app_nil_r.
  - destruct (sextet_values3 a b c r) as [-> F].
    cbn [map Crypto.btoa_codes]. rewrite url_safe_app, url_safe_chars by exact F.
    now rewrite IH, chars_app.
Qed.

Lemma binary_string (bytes : list Byte.byte) (acc : string) :
  fold_left (fun binary byte => (binary ++ String (ascii_of_byte byte) "")%string) bytes acc
  = (acc ++ string_of_list_ascii (map ascii_of_byte bytes))%string.
Proof.
  revert acc. induction bytes as [|b l IH]; intros acc.
  - symmetry. apply string_app_nil_r.
  - cbn [fold_left map string_of_list_ascii]. rewrite IH, string_app_assoc. reflexivity.
Qed.

(** [base64UrlEncode] computes base64url without padding. *)
Lemma base64UrlEncode_spec (buffer : list Byte.byte) :
  Crypto.base64UrlEncode buffer = Spec.base64url_nopad buffer.
Proof.
  unfold Crypto.base64UrlEncode, Crypto.btoa. rewrite binary_string, string_app_nil_l.
  rewrite list_ascii_of_string_of_list_ascii, map_map.
  rewrite (map_ext _ Byte.to_N) by apply N_of_ascii_of_byte.
  fold (url_safe (Crypto.btoa_codes (map Byte.to_N buffer))).
  rewrite url_safe_btoa. unfold Crypto.chars, sextet_values, Spec.base64url_nopad.
  now rewrite map_map.
Qed.

Lemma base64url_nopad_chars (data : list Byte.byte) :
  Forall (fun c => c <> "="%char) (list_ascii_of_string (Spec.base64url_nopad data)).
Proof.
  unfold Spec.base64url_nopad. rewrite list_ascii_of_string_of_list_ascii.
  rewrite <- (map_map Spec.value (Crypto.alphabet_char Crypto.b64_url)).
  fold (sextet_values data).
  induction (sextet_values_bound data) as [|i l Hi _ IH]; constructor.
  - now apply url_alphabet_no_pad.
  - exact IH.
Qed.

(** UTF-8 of a string of unreserved characters: one octet per character. *)
Lemma TextEncoder_encode_unreserved (s : string) :
  Forall (fun c => Crypto.unreserved c = true) (list_ascii_of_string s) ->
  Crypto.TextEncoder_encode s = Spec.ascii_octets s.
Proof.
  unfold Crypto.TextEncoder_encode, Spec.ascii_octets.
  induction 1 as [|c l Hc _ IH]; [reflexivity|].
  cbn [flat_map map]. rewrite IH.
  assert (E : Crypto.utf8_unit c = [byte_of_ascii c]).
  { unfold Crypto.utf8_unit. destruct (N.ltb_spec (N_of_ascii c) 128) as [|Hge]; [reflexivity|].
    exfalso. unfold Crypto.unreserved in Hc. cbv zeta in Hc.
    repeat (apply orb_true_iff in Hc as [Hc|Hc]);
      repeat (apply andb_true_iff in Hc as [? Hc]);
      repeat match goal with
             | H : (_ <=? _)%N = true |- _ => apply N.leb_le in H
             | H : (_ =? _)%N = true |- _ => apply N.eqb_eq in H
             end; lia. }
  now rewrite E.
Qed.

(** ** Decimal numbers *)

Lemma digit_val_char (d : N) : (d < 10)%N -> JS.digit_val (JS.digit_char d) = Some d.
Proof.
  intros Hd. unfold JS.digit_val, JS.digit_char.
  rewrite N_ascii_embedding by lia.
  destruct (N.leb_spec 48 (48 + d)); [|lia].
  destruct (N.leb_spec (48 + d) 57); [|lia].
  cbn [andb]. f_equal. lia.
Qed.

Lemma digits_fuel_parse (fuel : nat) :
  forall (n : N) (acc : string),
    (n < 2 ^ N.of_nat fuel)%N ->
    JS.parse_dec 0 (JS.digits_fuel fuel n acc) = JS.parse_dec n acc.
Proof.
  induction fuel as [|fuel IH]; intros n acc Hn.
  - cbn [JS.digits_fuel]. change (2 ^ N.of_nat 0)%N with 1%N in Hn.
    replace n with 0%N by lia. reflexivity.
  - cbn [JS.digits_fuel].
    assert (Hm : (n mod 10 < 10)%N) by (apply N.mod_lt; lia).
    assert (Hd : n = (10 * (n / 10) + n mod 10)%N) by (apply N.div_mod; lia).
    destruct (N.eqb_spec (n / 10) 0) as [Hz|Hz].
    + cbn [JS.parse_dec]. rewrite digit_val_char by exact Hm.
      f_equal. lia.
    + rewrite IH.
      * cbn [JS.parse_dec]. rewrite digit_val_char by exact Hm. f_equal. lia.
      * rewrite Nat2N.inj_succ, N.pow_succ_r' in Hn.
        apply N.Div0.div_lt_upper_bound. lia.
Qed.

Lemma digits_fuel_head (fuel : nat) :
  forall (n : N) (acc : string),
  exists d r, (d < 10)%N /\ JS.digits_fuel (S fuel) n acc = String (JS.digit_char d) r.
Proof.
  induction fuel as [|fuel IH]; intros n acc.
  - exists (n mod 10)%N, acc. split; [apply N.mod_lt; lia|].
    cbn [JS.digits_fuel]. now destruct (n / 10 =? 0)%N.
  - change (JS.digits_fuel (S (S fuel)) n acc)
      with (if (n / 10 =? 0)%N then String (JS.digit_char (n mod 10)) acc
            else JS.digits_fuel (S fuel) (n / 10) (String (JS.digit_char (n mod 10)) acc)).
    destruct (n / 10 =? 0)%N.
    + exists (n mod 10)%N, acc. split; [apply N.mod_lt; lia | reflexivity].
    + apply IH.
Qed.

Lemma digit_char_class (d : N) :
  (d < 10)%N ->
  JS.is_digit (JS.digit_char d) = true
  /\ JS.is_space (JS.digit_char d) = false
  /\ Ascii.eqb (JS.digit_char d) "-" = false
  /\ Ascii.eqb (JS.digit_char d) "+" = false.
Proof.
  intros Hd.
  assert (E : In d (map N.of_nat (seq 0 10))).
  { apply in_map_iff. exists (N.to_nat d). split; [lia | apply in_seq; lia]. }
  cbn in E.
  repeat (destruct E as [<-|E]; [repeat split; reflexivity|]). destruct E.
Qed.

Lemma parse_digits (n : N) :
  (0 < n)%N ->
  JS.trim_start (JS.N_digits n) = JS.N_digits n
  /\ JS.parseInt (JS.N_digits n) = JS.Int (Z.of_N n)
  /\ JS.parse_unsigned true (JS.N_digits n) = JS.Int (- Z.of_N n).
Proof.
  intros Hn.
  assert (Hv : JS.parse_dec 0 (JS.N_digits n) = n).
  { unfold JS.N_digits. rewrite digits_fuel_parse; [reflexivity|].
    rewrite Nat2N.inj_succ, N2Nat.id. apply N.log2_spec. exact Hn. }
  unfold JS.parseInt, JS.parse_unsigned.
  revert Hv. unfold JS.N_digits.
  destruct (digits_fuel_head (N.to_nat (N.log2 n)) n "") as (d & r & Hd & ->).
  destruct (digit_char_class d Hd) as (D & S & M & P).
  intros Hv. cbn [JS.trim_start]. rewrite S, M, P, D, Hv. auto.
Qed.

(** Reading back a number that was written: [parseInt(n.toString(), 10)] is [n]. *)
Lemma parseInt_toString (z : Z) : JS.parseInt (JS.Number_toString z) = JS.Int z.
Proof.
  destruct z as [|p|p]; cbn [JS.Number_toString].
  - reflexivity.
  - destruct (parse_digits (Npos p)) as (_ & E & _); [lia|]. exact E.
  - destruct (parse_digits (Npos p)) as (_ & _ & E); [lia|].
    unfold JS.parseInt. cbn [JS.trim_start].
    change (JS.is_space "-") with false. cbv iota.
    change (Ascii.eqb "-" "-") with true. cbv iota. exact E.
Qed.

Lemma toString_truthy (z : Z) : JS.truthy (Some (JS.Number_toString z)) = true.
Proof.
  destruct z as [|p|p]; cbn [JS.Number_toString]; try reflexivity.
  unfold JS.N_digits.
  destruct (digits_fuel_head (N.to_nat (N.log2 (Npos p))) (Npos p) "") as (d & r & _ & ->).
  reflexivity.
Qed.

(** ** The credential store *)

Lemma getItem_setItem (s : TokenStorage.t) (k v k' : string) :
  TokenStorage.getItem (TokenStorage.setItem k v s) k'
  = if decide (k = k') then Some v else TokenStorage.getItem s k'.
Proof.
  unfold TokenStorage.getItem, TokenStorage.setItem, TokenStorage.getKey. cbn.
  destruct (decide (k = k')) as [->|Hne].
  - apply lookup_insert_eq.
  - apply lookup_insert_ne. intros E. apply Hne. eapply string_app_inv_head, E.
Qed.

Lemma getItem_removeItem (s : TokenStorage.t) (k k' : string) :
  TokenStorage.getItem (TokenStorage.removeItem k s) k'
  = if decide (k = k') then None else TokenStorage.getItem s k'.
Proof.
  unfold TokenStorage.getItem, TokenStorage.removeItem, TokenStorage.getKey. cbn.
  destruct (decide (k = k')) as [->|Hne].
  - apply lookup_delete_eq.
  - apply lookup_delete_ne. intros E. apply Hne. eapply string_app_inv_head, E.
Qed.

Lemma getItem_clear (s : TokenStorage.t) (k : string) :
  TokenStorage.getItem (TokenStorage.clear s) k
  = if decide (In k STORAGE_KEYS.values) then None else TokenStorage.getItem s k.
Proof.
  unfold TokenStorage.clear, STORAGE_KEYS.values. cbn [fold_left].
  rewrite !getItem_removeItem.
  destruct (decide (In k _)) as [Hin|Hout].
  - cbn [In] in Hin.
    repeat (destruct Hin as [<-|Hin]; [repeat (case_decide; try reflexivity); congruence|]).
    destruct Hin.
  - repeat (case_decide; [exfalso; apply Hout; subst k; cbn; tauto|]). reflexivity.
Qed.

Lemma getItem_clearTemporary (s : TokenStorage.t) (k : string) :
  TokenStorage.getItem (TokenStorage.clearTemporary s) k
  = if decide (k = STORAGE_KEYS.STATE \/ k = STORAGE_KEYS.CODE_VERIFIER) then None
    else TokenStorage.getItem s k.
Proof.
  unfold TokenStorage.clearTemporary. rewrite !getItem_removeItem.
  repeat case_decide; try reflexivity; exfalso; intuition congruence.
Qed.

(** Nothing is left of a session after [clear]. *)
Lemma clear_session (s : TokenStorage.t) :
  TokenStorage.getAccessToken (TokenStorage.clear s) = None
  /\ TokenStorage.getRefreshToken (TokenStorage.clear s) = None
  /\ TokenStorage.getIdToken (TokenStorage.clear s) = None
  /\ TokenStorage.getExpiresAt (TokenStorage.clear s) = None
  /\ TokenStorage.getScope (TokenStorage.clear s) = None
  /\ TokenStorage.getCodeVerifier (TokenStorage.clear s) = None
  /\ TokenStorage.getState (TokenStorage.clear s) = None.
Proof.
  unfold TokenStorage.getAccessToken, TokenStorage.getRefreshToken, TokenStorage.getIdToken,
    TokenStorage.getExpiresAt, TokenStorage.getScope, TokenStorage.getCodeVerifier,
    TokenStorage.getState.
  rewrite !getItem_clear. repeat split; reflexivity.
Qed.

(** ** The service *)

Arguments TokenStorage.clear : simpl never.
Arguments TokenStorage.clearTemporary : simpl never.
Arguments TokenStorage.getItem : simpl never.
Arguments TokenStorage.setItem : simpl never.
Arguments TokenStorage.removeItem : simpl never.
Arguments TokenStorage.getExpiresAt : simpl never.
Arguments JS.truthy : simpl never.
Arguments JS.truthy_num : simpl never.
Arguments JS.geb : simpl never.
Arguments nonempty : simpl never.
Arguments Url.buildUrl : simpl never.
Arguments Url.parseQueryParams : simpl never.
Arguments Crypto.generateRandomString : simpl never.
Arguments Crypto.generatePKCEParams : simpl never.
Arguments Crypto.validateState : simpl never.
Arguments Obj.spread : simpl never.
Arguments OAuth2Service.logout : simpl never.
Arguments OAuth2Service.getAccessToken : simpl never.
Arguments OAuth2Service.isAuthenticated : simpl never.
Arguments OAuth2Service.storeTokens : simpl never.
Arguments OAuth2Service.scheduleTokenRefresh : simpl never.
Arguments OAuth2Service.exchangeCodeForToken : simpl never.
Arguments OAuth2Service.handleCallback : simpl never.
Arguments OAuth2Service.authorize : simpl never.
Arguments OAuth2Service.performRefresh_start : simpl never.
Arguments OAuth2Service.performRefresh_finish : simpl never.
Arguments OAuth2Service.performRefresh : simpl never.

Ltac run_m :=
  unfold bind, ret, throw, gets, modify, try_catch in *; cbn in *.

Ltac case_if :=
  match goal with
  | |- context [if ?c then _ else _] => destruct c eqn:?
  | |- context [match ?c with Some _ => _ | None => _ end] => destruct c eqn:?
  | |- context [match ?c with JS.NaN => _ | JS.Int _ => _ end] => destruct c eqn:?
  end.

Lemma classic_fetch (net : FetchOutcome) :
  (exists tokens, net = FetchOk tokens) \/ (forall tokens, net <> FetchOk tokens).
Proof. destruct net; eauto; right; discriminate. Qed.

Section ServiceProperties.
Context `{Platform}.

(** What [logout] does, whichever way it ends. *)
Lemma logout_effect (redirectTo : option string) (s : Service) :
  let r := fst (OAuth2Service.logout redirectTo s) in
  let s' := snd (OAuth2Service.logout redirectTo s) in
  storage s' = TokenStorage.clear (storage s)
  /\ refreshTimer s' = None
  /\ refreshPromise s' = refreshPromise s
  /\ requests s' = requests s
  /\ callbacks s' = (callbacks s ++ [onAuthStateChange false])%list
  /\ config s' = config s
  /\ (r = Ret tt \/ r = Throw ExnTypeError).
Proof.
  unfold OAuth2Service.logout. run_m.
  repeat case_if; cbn; repeat split; auto.
Qed.

(** With no logout endpoint configured, or a well-formed one, [logout]
    returns normally. *)
Lemma logout_returns (redirectTo : option string) (s : Service) :
  logout_target_ok (config s) ->
  fst (OAuth2Service.logout redirectTo s) = Ret tt.
Proof.
  intros Hok. unfold OAuth2Service.logout. run_m.
  destruct (JS.truthy (Some (logoutEndpoint (config s)))) eqn:Ht.
  - destruct Hok as [E | [u Hu]].
    + rewrite E in Ht. discriminate.
    + unfold Url.buildUrl. rewrite Hu. reflexivity.
  - destruct (nonempty redirectTo); reflexivity.
Qed.

(** C10: a stored access token (a string that is not empty) without a
    stored expiry is returned by
    [getAccessToken] and makes [isAuthenticated] true at every time of the
    clock, and neither call changes anything: such a session is never
    expired lazily. *)
Theorem no_expiry_never_expires (s : Service) (token : string) (now : Z) :
  TokenStorage.getAccessToken (storage s) = Some token ->
  token <> "" ->
  TokenStorage.getItem (storage s) STORAGE_KEYS.EXPIRES_AT = None ->
  OAuth2Service.getAccessToken now s = (Ret (Some token), s)
  /\ OAuth2Service.isAuthenticated now s = (Ret true, s).
Proof.
  intros Htok Hne Hexp.
  assert (E : TokenStorage.getExpiresAt (storage s) = None).
  { unfold TokenStorage.getExpiresAt. now rewrite Hexp. }
  assert (G : OAuth2Service.getAccessToken now s = (Ret (Some token), s)).
  { unfold OAuth2Service.getAccessToken. run_m. rewrite Htok, E.
    rewrite andb_false_r. reflexivity. }
  split; [exact G|].
  unfold OAuth2Service.isAuthenticated. run_m. rewrite G.
  unfold JS.truthy. apply String.eqb_neq in Hne. now rewrite Hne.
Qed.

(** What [storeTokens] writes: the access token always, every other field
    only when the response carries it. *)
Lemma storeTokens_spec (tokens : TokenResponse) (now : Z) (s : Service) :
  exists st',
    OAuth2Service.storeTokens tokens now s = (Ret tt, with_storage (fun _ => st') s)
    /\ TokenStorage.getAccessToken st' = Some (access_token tokens)
    /\ TokenStorage.getRefreshToken st'
       = match nonempty (refresh_token tokens) with
         | Some t => Some t
         | None => TokenStorage.getRefreshToken (storage s)
         end
    /\ TokenStorage.getItem st' STORAGE_KEYS.EXPIRES_AT
       = match expires_in tokens with
         | Some e =>
             if e =? 0 then TokenStorage.getItem (storage s) STORAGE_KEYS.EXPIRES_AT
             else Some (JS.Number_toString (now + e * 1000))
         | None => TokenStorage.getItem (storage s) STORAGE_KEYS.EXPIRES_AT
         end
    /\ TokenStorage.getState st' = TokenStorage.getState (storage s)
    /\ TokenStorage.getCodeVerifier st' = TokenStorage.getCodeVerifier (storage s).
Proof.
  destruct s as [cfg st timer promise cbs reqs loc].
  unfold OAuth2Service.storeTokens, with_storage. run_m.
  unfold TokenStorage.getAccessToken, TokenStorage.getRefreshToken, TokenStorage.getState,
    TokenStorage.getCodeVerifier, TokenStorage.setAccessToken, TokenStorage.setRefreshToken,
    TokenStorage.setIdToken, TokenStorage.setScope, TokenStorage.setExpiresAt.
  destruct (nonempty (refresh_token tokens)), (nonempty (id_token tokens)),
    (nonempty (tr_scope tokens)), (expires_in tokens) as [e|];
    try destruct (e =? 0); cbn;
    (eexists; split; [reflexivity|]);
    rewrite ?getItem_setItem; repeat split; reflexivity.
Qed.


Lemma scheduleTokenRefresh_spec (now : Z) (s : Service) :
  exists t, OAuth2Service.scheduleTokenRefresh now s = (Ret tt, with_refreshTimer t s).
Proof.
  destruct s as [cfg st timer promise cbs reqs loc].
  unfold OAuth2Service.scheduleTokenRefresh, with_refreshTimer. cbn.
  destruct (autoRefresh cfg); cbn; [|eexists; reflexivity].
  destruct (TokenStorage.getExpiresAt st) as [[|e]|]; try (eexists; reflexivity).
  destruct (e =? 0); eexists; reflexivity.
Qed.

(** None of the operations looks at the in-flight marker, and only
    [refreshAccessToken] writes it. *)
Lemma logout_marker (redirectTo : option string) (p : option nat) (s : Service) :
  OAuth2Service.logout redirectTo (with_refreshPromise p s)
  = (fst (OAuth2Service.logout redirectTo s),
     with_refreshPromise p (snd (OAuth2Service.logout redirectTo s))).
Proof.
  destruct s as [cfg st timer promise cbs reqs loc].
  unfold OAuth2Service.logout, with_refreshPromise. run_m.
  repeat case_if; reflexivity.
Qed.

Lemma storeTokens_marker (tokens : TokenResponse) (now : Z) (p : option nat) (s : Service) :
  OAuth2Service.storeTokens tokens now (with_refreshPromise p s)
  = (fst (OAuth2Service.storeTokens tokens now s),
     with_refreshPromise p (snd (OAuth2Service.storeTokens tokens now s))).
Proof.
  destruct s as [cfg st timer promise cbs reqs loc].
  unfold OAuth2Service.storeTokens, with_refreshPromise. run_m.
  repeat case_if; reflexivity.
Qed.

Lemma scheduleTokenRefresh_marker (now : Z) (p : option nat) (s : Service) :
  OAuth2Service.scheduleTokenRefresh now (with_refreshPromise p s)
  = (fst (OAuth2Service.scheduleTokenRefresh now s),
     with_refreshPromise p (snd (OAuth2Service.scheduleTokenRefresh now s))).
Proof.
  destruct s as [cfg st timer promise cbs reqs loc].
  unfold OAuth2Service.scheduleTokenRefresh, with_refreshPromise. cbn.
  repeat case_if; reflexivity.
Qed.

Lemma performRefresh_finish_marker (now : Z) (net : FetchOutcome) (p : option nat)
      (s : Service) :
  OAuth2Service.performRefresh_finish now net (with_refreshPromise p s)
  = (fst (OAuth2Service.performRefresh_finish now net s),
     with_refreshPromise p (snd (OAuth2Service.performRefresh_finish now net s))).
Proof.
  unfold OAuth2Service.performRefresh_finish, OAuth2Service.makeTokenRequest_receive.
  destruct net as [|body|tokens]; run_m.
  - rewrite logout_marker. destruct (OAuth2Service.logout None s) as [[[]|e] s1]; reflexivity.
  - rewrite logout_marker. destruct (OAuth2Service.logout None s) as [[[]|e] s1]; reflexivity.
  - rewrite storeTokens_marker.
    destruct (OAuth2Service.storeTokens tokens now s) as [[[]|e] s1]; cbn.
    + rewrite scheduleTokenRefresh_marker.
      destruct (OAuth2Service.scheduleTokenRefresh now s1) as [[[]|e] s2]; cbn.
      * reflexivity.
      * rewrite logout_marker.
        destruct (OAuth2Service.logout None s2) as [[[]|e'] s3]; reflexivity.
    + rewrite logout_marker.
      destruct (OAuth2Service.logout None s1) as [[[]|e'] s3]; reflexivity.
Qed.

Lemma performRefresh_start_spec (s : Service) :
  OAuth2Service.performRefresh_start s
  = match nonempty (TokenStorage.getRefreshToken (storage s)) with
    | None => (Throw (ExnError "No refresh token available"), s)
    | Some token =>
        (Ret tt,
         with_request {| grant_type := REFRESH_TOKEN;
                         code := None;
                         rq_refresh_token := Some token;
                         client_id := clientId (config s);
                         redirect_uri := None;
                         code_verifier := None |} s)
    end.
Proof.
  unfold OAuth2Service.performRefresh_start, OAuth2Service.makeTokenRequest_send. run_m.
  case_if; reflexivity.
Qed.

(** A successful answer: the tokens are stored, the timer is set anew and
    [onTokenRefresh] is called. *)
Lemma performRefresh_finish_ok (now : Z) (tokens : TokenResponse) (s : Service) :
  exists st' t,
    OAuth2Service.performRefresh_finish now (FetchOk tokens) s
    = (Ret tt,
       with_callback (onTokenRefresh tokens)
                     (with_refreshTimer t (with_storage (fun _ => st') s)))
    /\ OAuth2Service.storeTokens tokens now s = (Ret tt, with_storage (fun _ => st') s).
Proof.
  destruct (storeTokens_spec tokens now s) as (st' & E & _).
  destruct (scheduleTokenRefresh_spec now (with_storage (fun _ => st') s)) as (t & Et).
  exists st', t. split; [|exact E].
  unfold OAuth2Service.performRefresh_finish, OAuth2Service.makeTokenRequest_receive.
  run_m. rewrite E. cbn. rewrite Et. reflexivity.
Qed.

(** Any other answer: [logout], then the failure goes on to the caller. *)
Lemma performRefresh_finish_fail (now : Z) (net : FetchOutcome) (s : Service) :
  (forall tokens, net <> FetchOk tokens) ->
  (exists e, fst (OAuth2Service.performRefresh_finish now net s) = Throw e)
  /\ snd (OAuth2Service.performRefresh_finish now net s) = snd (OAuth2Service.logout None s).
Proof.
  intros Hnet.
  unfold OAuth2Service.performRefresh_finish, OAuth2Service.makeTokenRequest_receive.
  destruct net as [|body|tokens]; [| |now destruct (Hnet tokens)]; run_m;
    destruct (OAuth2Service.logout None s) as [[[]|e] s1]; cbn; eauto.
Qed.

Lemma performRefresh_finish_requests (now : Z) (net : FetchOutcome) (s : Service) :
  requests (snd (OAuth2Service.performRefresh_finish now net s)) = requests s.
Proof.
  destruct (classic_fetch net) as [[tokens ->]|Hnet].
  - destruct (performRefresh_finish_ok now tokens s) as (st' & t & -> & _). reflexivity.
  - destruct (performRefresh_finish_fail now net s Hnet) as [_ ->].
    apply logout_effect.
Qed.

Lemma isAuthenticated_frame (now : Z) (s : Service) :
  refreshPromise (snd (OAuth2Service.isAuthenticated now s)) = refreshPromise s
  /\ requests (snd (OAuth2Service.isAuthenticated now s)) = requests s.
Proof.
  pose proof (logout_effect None s) as (_ & _ & Hp & Hr & _).
  unfold OAuth2Service.isAuthenticated, OAuth2Service.getAccessToken. run_m.
  case_if; [|split; reflexivity].
  destruct (OAuth2Service.logout None s) as [[[]|e] s1]; cbn in *; now split.
Qed.

(** After a [clear] there is no token to return. *)
Lemma cleared_unauthenticated (s : Service) (now : Z) :
  TokenStorage.getAccessToken (storage s) = None ->
  OAuth2Service.getAccessToken now s = (Ret None, s)
  /\ OAuth2Service.isAuthenticated now s = (Ret false, s).
Proof.
  intros Htok.
  assert (G : OAuth2Service.getAccessToken now s = (Ret None, s)).
  { unfold OAuth2Service.getAccessToken. run_m. now rewrite Htok. }
  split; [exact G|].
  unfold OAuth2Service.isAuthenticated. run_m. now rewrite G.
Qed.

(** C5: with an access token stored (a string that is not empty) and a
    stored expiry (a number other than zero) that has passed,
    [getAccessToken] returns absent and logs out as a side effect: every
    storage key of the session is removed and the state change is
    notified, though nobody called [logout]. *)
Theorem expired_token_logs_out (s : Service) (token : string) (e now : Z) :
  TokenStorage.getAccessToken (storage s) = Some token ->
  token <> "" ->
  TokenStorage.getExpiresAt (storage s) = Some (JS.Int e) ->
  e <> 0 ->
  e <= now ->
  logout_target_ok (config s) ->
  let s' := snd (OAuth2Service.getAccessToken now s) in
  fst (OAuth2Service.getAccessToken now s) = Ret None
  /\ storage s' = TokenStorage.clear (storage s)
  /\ (forall key, In key STORAGE_KEYS.values ->
                  TokenStorage.getItem (storage s') key = None)
  /\ callbacks s' = (callbacks s ++ [onAuthStateChange false])%list
  /\ OAuth2Service.isAuthenticated now s' = (Ret false, s').
Proof.
  intros Htok Hne Hexp Hz Hle Hok.
  pose proof (logout_effect None s) as (Hst & _ & _ & _ & Hcb & _ & _).
  pose proof (logout_returns None s Hok) as Hret.
  assert (G : OAuth2Service.getAccessToken now s
              = (Ret None, snd (OAuth2Service.logout None s))).
  { unfold OAuth2Service.getAccessToken. run_m. rewrite Htok, Hexp.
    unfold JS.truthy, JS.truthy_num, JS.geb.
    apply String.eqb_neq in Hne. rewrite Hne.
    apply Z.eqb_neq in Hz. rewrite Hz.
    apply Z.leb_le in Hle. rewrite Hle. cbn.
    destruct (OAuth2Service.logout None s) as [r s1]. cbn in Hret. now rewrite Hret. }
  rewrite G. cbn [fst snd]. split; [reflexivity|]. split; [exact Hst|]. split; [|split].
  - intros key Hkey. rewrite Hst, getItem_clear. now rewrite decide_True.
  - exact Hcb.
  - apply cleared_unauthenticated. rewrite Hst. apply clear_session.
Qed.

End ServiceProperties.

(** ** Refreshing *)

Section RefreshProperties.
Context `{Platform}.

Lemma with_refreshPromise_id (s : Service) :
  with_refreshPromise (refreshPromise s) s = s.
Proof. now destruct s. Qed.

Lemma with_refreshPromise_twice (p q : option nat) (s : Service) :
  with_refreshPromise p (with_refreshPromise q s) = with_refreshPromise p s.
Proof. now destruct s. Qed.

(** A call that finds no refresh in flight starts one. *)
Lemma call_starts (w : Loop.World) :
  refreshPromise (Loop.service w) = None ->
  let p := List.length (Loop.promises w) in
  let start := OAuth2Service.performRefresh_start (Loop.service w) in
  Loop.call w
  = Loop.mkWorld (with_refreshPromise (Some p) (snd start))
                 (Loop.promises w
                  ++ [match fst start with Ret _ => None | Throw e => Some (Throw e) end])
                 (Loop.suspended w ++ [p]) (Loop.received w ++ [p]).
Proof.
  intros Hidle. unfold Loop.call. rewrite Hidle.
  now destruct (OAuth2Service.performRefresh_start (Loop.service w)) as [[[]|e] s1].
Qed.

(** A call that finds one in flight returns its promise and does nothing else. *)
Lemma call_joins (w : Loop.World) (p : nat) :
  refreshPromise (Loop.service w) = Some p ->
  Loop.call w
  = Loop.mkWorld (Loop.service w) (Loop.promises w) (Loop.suspended w)
                 (Loop.received w ++ [p]).
Proof. intros Hp. unfold Loop.call. now rewrite Hp. Qed.

Lemma quiet_step (a : Loop.Action) (w : Loop.World) (p : nat) :
  refreshPromise (Loop.service w) = Some p ->
  quiet a = true ->
  let w' := Loop.step a w in
  refreshPromise (Loop.service w') = Some p
  /\ Loop.promises w' = Loop.promises w
  /\ Loop.suspended w' = Loop.suspended w
  /\ requests (Loop.service w') = requests (Loop.service w)
  /\ Loop.received w' = (Loop.received w ++ if is_call a then [p] else [])%list.
Proof.
  intros Hp Hq. destruct a as [| | |redirectTo|now]; try discriminate; cbn.
  - rewrite (call_joins w p Hp). cbn. auto.
  - pose proof (logout_effect redirectTo (Loop.service w)) as (_ & _ & Hm & Hr & _).
    cbn in Hm, Hr. rewrite Hm, Hr, app_nil_r. auto.
  - destruct (isAuthenticated_frame now (Loop.service w)) as [Hm Hr].
    rewrite Hm, Hr, app_nil_r. auto.
Qed.

Lemma quiet_run (mid : list Loop.Action) :
  forall (w : Loop.World) (p : nat),
    refreshPromise (Loop.service w) = Some p ->
    forallb quiet mid = true ->
    let w' := Loop.run mid w in
    refreshPromise (Loop.service w') = Some p
    /\ Loop.promises w' = Loop.promises w
    /\ Loop.suspended w' = Loop.suspended w
    /\ requests (Loop.service w') = requests (Loop.service w)
    /\ Loop.received w' = (Loop.received w ++ replicate (count_calls mid) p)%list.
Proof.
  induction mid as [|a mid IH]; intros w p Hp Hq.
  - cbn. rewrite app_nil_r. auto.
  - cbn in Hq. apply andb_true_iff in Hq as [Ha Hmid].
    destruct (quiet_step a w p Hp Ha) as (Hp1 & Hpr1 & Hs1 & Hr1 & Hrc1).
    destruct (IH (Loop.step a w) p Hp1 Hmid) as (Hp2 & Hpr2 & Hs2 & Hr2 & Hrc2).
    change (Loop.run (a :: mid) w) with (Loop.run mid (Loop.step a w)). cbv zeta.
    rewrite Hp2, Hpr2, Hs2, Hr2, Hrc2, Hpr1, Hs1, Hr1, Hrc1.
    repeat split; try reflexivity.
    rewrite <- app_assoc. f_equal. unfold count_calls. cbn [List.filter].
    now destruct (is_call a).
Qed.

Lemma performRefresh_finish_keeps_marker (now : Z) (net : FetchOutcome) (s : Service) :
  refreshPromise (snd (OAuth2Service.performRefresh_finish now net s)) = refreshPromise s.
Proof.
  rewrite <- (with_refreshPromise_id s) at 1.
  rewrite performRefresh_finish_marker. cbn [snd].
  now destruct (snd (OAuth2Service.performRefresh_finish now net s)).
Qed.

Lemma performRefresh_start_keeps_marker (s : Service) :
  refreshPromise (snd (OAuth2Service.performRefresh_start s)) = refreshPromise s.
Proof. rewrite performRefresh_start_spec. now case_if. Qed.

(** C3: while a refresh is in flight, every further call of
    [refreshAccessToken] receives the promise of the first one, hence its
    outcome, and sends nothing; when the outcome is known the marker is
    cleared, and the next call starts a refresh of its own.  Other calls
    ([logout], [isAuthenticated]) may be interleaved at will. *)
Theorem refresh_in_flight_is_shared
        (w : Loop.World) (mid : list Loop.Action) (now : Z) (net : FetchOutcome) :
  refreshPromise (Loop.service w) = None ->
  forallb quiet mid = true ->
  let p := List.length (Loop.promises w) in
  let w1 := Loop.call w in
  let w2 := Loop.run mid w1 in
  let w3 := Loop.resume p (Loop.answer p now net w2) in
  let w4 := Loop.call w3 in
  (* at most one request, sent by the first call *)
  (exists sent, requests (Loop.service w1) = (requests (Loop.service w) ++ sent)%list
                /\ (List.length sent <= 1)%nat)
  /\ requests (Loop.service w2) = requests (Loop.service w1)
  /\ requests (Loop.service w3) = requests (Loop.service w1)
  (* one promise for all the calls, one outcome *)
  /\ Loop.received w3 = (Loop.received w ++ replicate (S (count_calls mid)) p)%list
  /\ (exists r, forall k,
         (List.length (Loop.received w) <= k < List.length (Loop.received w3))%nat ->
         Loop.outcome w3 k = Some r)
  (* the marker is cleared and the next call starts afresh *)
  /\ refreshPromise (Loop.service w3) = None
  /\ Loop.received w4 = (Loop.received w3 ++ [S p])%list
  /\ Loop.service w4
     = with_refreshPromise (Some (S p))
         (snd (OAuth2Service.performRefresh_start (Loop.service w3))).
Proof.
  intros Hidle Hmid. cbv zeta.
  pose proof (call_starts w Hidle) as E1. cbv zeta in E1.
  set (p := List.length (Loop.promises w)) in *.
  set (w1 := Loop.call w) in *.
  set (start := OAuth2Service.performRefresh_start (Loop.service w)) in *.
  set (st0 := match fst start with Ret _ => None | Throw e => Some (Throw e) end) in *.
  assert (Hm1 : refreshPromise (Loop.service w1) = Some p) by (rewrite E1; now destruct (snd start)).
  destruct (quiet_run mid w1 p Hm1 Hmid) as (Hm2 & Hpr2 & Hs2 & Hr2 & Hrc2).
  set (w2 := Loop.run mid w1) in *.
  set (w3 := Loop.resume p (Loop.answer p now net w2)).
  set (w4 := Loop.call w3).
  assert (Hpr1 : Loop.promises w1 = (Loop.promises w ++ [st0])%list) by now rewrite E1.
  assert (Hlook : Loop.promises w2 !! p = Some st0).
  { rewrite Hpr2, Hpr1. now apply list_lookup_middle. }
  (* the answer *)
  assert (Hans : exists r,
             Loop.promises (Loop.answer p now net w2) !! p = Some (Some r)
             /\ List.length (Loop.promises (Loop.answer p now net w2)) = S p
             /\ refreshPromise (Loop.service (Loop.answer p now net w2)) = Some p
             /\ requests (Loop.service (Loop.answer p now net w2))
                = requests (Loop.service w2)
             /\ Loop.suspended (Loop.answer p now net w2) = Loop.suspended w2
             /\ Loop.received (Loop.answer p now net w2) = Loop.received w2).
  { assert (Hlen : List.length (Loop.promises w2) = S p).
    { rewrite Hpr2, Hpr1, length_app. cbn. unfold p. lia. }
    unfold Loop.answer. rewrite Hlook. destruct st0 as [r|].
    - exists r. repeat split; auto.
    - destruct (OAuth2Service.performRefresh_finish now net (Loop.service w2))
        as [r s3] eqn:Ef.
      exists r. cbn. repeat split.
      + apply list_lookup_insert_eq. lia.
      + now rewrite length_insert.
      + change s3 with (snd (r, s3)). rewrite <- Ef.
        now rewrite performRefresh_finish_keeps_marker.
      + change s3 with (snd (r, s3)). rewrite <- Ef.
        apply performRefresh_finish_requests. }
  destruct Hans as (r & Hlk3 & Hlen3 & Hm3 & Hrq3 & Hsu3 & Hrc3).
  (* the finally block *)
  assert (Hsusp : existsb (Nat.eqb p) (Loop.suspended (Loop.answer p now net w2)) = true).
  { rewrite Hsu3, Hs2, E1. cbn. rewrite existsb_app. cbn.
    rewrite Nat.eqb_refl. now rewrite orb_true_r. }
  assert (E3 : w3 = Loop.mkWorld
                      (with_refreshPromise None (Loop.service (Loop.answer p now net w2)))
                      (Loop.promises (Loop.answer p now net w2))
                      (List.filter (fun q => negb (Nat.eqb p q))
                                   (Loop.suspended (Loop.answer p now net w2)))
                      (Loop.received (Loop.answer p now net w2))).
  { unfold w3, Loop.resume. now rewrite Hlk3, Hsusp. }
  assert (Hrc : Loop.received w3
                = (Loop.received w ++ replicate (S (count_calls mid)) p)%list).
  { rewrite E3. cbn. rewrite Hrc3, Hrc2, E1. cbn. rewrite <- app_assoc. reflexivity. }
  assert (Hm : refreshPromise (Loop.service w3) = None).
  { rewrite E3. cbn. now destruct (Loop.service (Loop.answer p now net w2)). }
  assert (Hrq : requests (Loop.service w3) = requests (Loop.service w1)).
  { rewrite E3. cbn. rewrite <- Hr2, <- Hrq3.
    now destruct (Loop.service (Loop.answer p now net w2)). }
  split; [|split; [exact Hr2|split; [exact Hrq|split; [exact Hrc|split; [|split; [exact Hm|]]]]]].
  - rewrite E1. cbn [Loop.service]. subst st0 start.
    rewrite performRefresh_start_spec. case_if; cbn.
    + eexists [_]. split; [reflexivity | cbn; lia].
    + exists []. rewrite app_nil_r. split; [reflexivity | cbn; lia].
  - exists r. intros k [Hlo Hhi]. unfold Loop.outcome.
    rewrite Hrc in Hhi |- *. rewrite length_app, length_replicate in Hhi.
    rewrite lookup_app_r by exact Hlo.
    rewrite lookup_replicate_2 by lia.
    rewrite E3. cbn. now rewrite Hlk3.
  - pose proof (call_starts w3 Hm) as E4. cbv zeta in E4. fold w4 in E4.
    assert (Hl : List.length (Loop.promises w3) = S p) by (rewrite E3; exact Hlen3).
    rewrite Hl in E4. rewrite E4. cbn. split; reflexivity.
Qed.

(** At most one refresh is in flight, whatever is called in whatever order. *)
Lemma loop_inv_step (a : Loop.Action) (w : Loop.World) :
  loop_inv w -> loop_inv (Loop.step a w).
Proof.
  intros (Hpend & Hsusp & Hmark).
  destruct a as [|p now net|p|redirectTo|now]; cbn [Loop.step].
  - (* Call *)
    destruct (refreshPromise (Loop.service w)) as [p|] eqn:Hm.
    + rewrite (call_joins w p Hm). unfold loop_inv. cbn. rewrite Hm. auto.
    + pose proof (call_starts w Hm) as E. cbv zeta in E. rewrite E. clear E.
      unfold loop_inv. cbn. split; [|split].
      * intros q Hq. destruct (Nat.lt_trichotomy q (List.length (Loop.promises w)))
          as [Hlt|[->|Hgt]]; [|reflexivity|].
        -- rewrite lookup_app_l in Hq by exact Hlt. now apply Hpend in Hq.
        -- rewrite lookup_ge_None_2 in Hq; [discriminate|].
           rewrite length_app. cbn. lia.
      * intros q Hq. apply in_app_or in Hq as [Hq|[->|[]]]; [|reflexivity].
        now apply Hsusp in Hq.
      * intros p Hp. injection Hp as <-. split.
        -- rewrite length_app. cbn. lia.
        -- apply in_or_app. right. now left.
  - (* Answer *)
    unfold Loop.answer. destruct (Loop.promises w !! p) as [[r|]|] eqn:Hp;
      try (split; [|split]; assumption).
    pose proof (performRefresh_finish_keeps_marker now net (Loop.service w)) as Hk.
    destruct (OAuth2Service.performRefresh_finish now net (Loop.service w)) as [r s1].
    cbn [snd] in Hk. unfold loop_inv. cbn. rewrite Hk. split; [|split].
    + intros q Hq. destruct (decide (p = q)) as [<-|Hne].
      * rewrite list_lookup_insert_eq in Hq; [discriminate|].
        now apply lookup_lt_Some in Hp.
      * rewrite list_lookup_insert_ne in Hq by exact Hne. now apply Hpend.
    + exact Hsusp.
    + intros p' Hp'. rewrite length_insert. now apply Hmark.
  - (* Resume *)
    unfold Loop.resume. destruct (Loop.promises w !! p) as [[r|]|] eqn:Hp;
      try (split; [|split]; assumption).
    destruct (existsb (Nat.eqb p) (Loop.suspended w)) eqn:Hex;
      [|split; [|split]; assumption].
    apply existsb_exists in Hex as (q & Hq & Heq). apply Nat.eqb_eq in Heq. subst q.
    pose proof (Hsusp p Hq) as Hm.
    unfold loop_inv. cbn. split; [|split].
    + intros q Hq'. pose proof (Hpend q Hq') as Hm'. rewrite Hm in Hm'.
      injection Hm' as <-. rewrite Hp in Hq'. discriminate.
    + intros q Hq'. apply filter_In in Hq' as [Hin Hne].
      pose proof (Hsusp q Hin) as Hm'. rewrite Hm in Hm'. injection Hm' as <-.
      now rewrite Nat.eqb_refl in Hne.
    + discriminate.
  - (* Logout *)
    pose proof (logout_effect redirectTo (Loop.service w)) as (_ & _ & Hk & _).
    cbn in Hk. unfold loop_inv. cbn. rewrite Hk. split; [|split]; assumption.
  - (* IsAuthenticated *)
    destruct (isAuthenticated_frame now (Loop.service w)) as [Hk _].
    unfold loop_inv. cbn. rewrite Hk. split; [|split]; assumption.
Qed.

Lemma loop_inv_run (l : list Loop.Action) (s : Service) :
  refreshPromise s = None ->
  let w := Loop.run l (Loop.idle s) in
  loop_inv w
  /\ forall p q, Loop.promises w !! p = Some None -> Loop.promises w !! q = Some None ->
                 p = q.
Proof.
  intros Hidle. cbv zeta.
  assert (Hinv : loop_inv (Loop.run l (Loop.idle s))).
  { assert (H0 : loop_inv (Loop.idle s)).
    { unfold loop_inv. cbn. rewrite Hidle. repeat split; try discriminate; tauto. }
    revert H0. generalize (Loop.idle s). induction l as [|a l IH]; intros w Hw.
    - exact Hw.
    - apply IH. now apply loop_inv_step. }
  split; [exact Hinv|].
  intros p q Hp Hq. destruct Hinv as (Hpend & _).
  apply Hpend in Hp. apply Hpend in Hq. congruence.
Qed.

(** A refresh that runs alone is [performRefresh] from start to end. *)
Lemma refresh_alone (w : Loop.World) (now : Z) (net : FetchOutcome) :
  refreshPromise (Loop.service w) = None ->
  let w' := Loop.refreshAccessToken now net w in
  Loop.service w' = snd (OAuth2Service.performRefresh now net (Loop.service w))
  /\ Loop.outcome w' (List.length (Loop.received w))
     = Some (fst (OAuth2Service.performRefresh now net (Loop.service w))).
Proof.
  intros Hidle. cbv zeta. unfold Loop.refreshAccessToken, Loop.run.
  cbn [fold_left Loop.step].
  pose proof (call_starts w Hidle) as E1. cbv zeta in E1. rewrite E1. clear E1.
  pose proof (performRefresh_start_keeps_marker (Loop.service w)) as Hk.
  unfold OAuth2Service.performRefresh, bind.
  set (p := List.length (Loop.promises w)).
  destruct (OAuth2Service.performRefresh_start (Loop.service w)) as [[[]|e] s1];
    cbn [fst snd] in *.
  - unfold Loop.answer. cbn [Loop.promises Loop.service].
    rewrite list_lookup_middle by reflexivity.
    rewrite performRefresh_finish_marker.
    pose proof (performRefresh_finish_keeps_marker now net s1) as Hk2.
    destruct (OAuth2Service.performRefresh_finish now net s1) as [r s2].
    cbn [fst snd] in *.
    unfold Loop.resume. cbn [Loop.promises Loop.suspended Loop.service Loop.received].
    rewrite list_lookup_insert_eq by (rewrite length_app; cbn; lia).
    rewrite existsb_app. cbn [existsb]. rewrite Nat.eqb_refl, orb_true_r. cbn [orb].
    unfold Loop.outcome. cbn [Loop.promises Loop.service Loop.received].
    rewrite list_lookup_middle by reflexivity.
    rewrite list_lookup_insert_eq by (rewrite length_app; cbn; lia).
    split; [|reflexivity].
    rewrite with_refreshPromise_twice, <- Hidle, <- Hk, <- Hk2.
    apply with_refreshPromise_id.
  - unfold Loop.answer. cbn [Loop.promises Loop.service].
    rewrite list_lookup_middle by reflexivity.
    unfold Loop.resume. cbn [Loop.promises Loop.suspended Loop.service Loop.received].
    rewrite list_lookup_middle by reflexivity.
    rewrite existsb_app. cbn [existsb]. rewrite Nat.eqb_refl, orb_true_r. cbn [orb].
    unfold Loop.outcome. cbn [Loop.promises Loop.service Loop.received].
    rewrite !list_lookup_middle by reflexivity.
    split; [|reflexivity].
    rewrite with_refreshPromise_twice, <- Hidle, <- Hk.
    apply with_refreshPromise_id.
Qed.

(** C4: when a refresh token is stored and the endpoint does not answer
    with tokens, [refreshAccessToken] sends its one request, logs out
    (every storage key is removed, the state change is notified) and fails;
    from then on [isAuthenticated] is false at every time of the clock.
    When no refresh token is stored it fails at once and changes nothing. *)
Theorem failed_refresh_logs_out
        (w : Loop.World) (now : Z) (failure : option OAuth2Error) (net : FetchOutcome) :
  refreshPromise (Loop.service w) = None ->
  let s := Loop.service w in
  let k := List.length (Loop.received w) in
  match nonempty (TokenStorage.getRefreshToken (storage s)) with
  | Some token =>
      let w' := Loop.refreshAccessToken now (failed_fetch failure) w in
      let s' := Loop.service w' in
      (exists e, Loop.outcome w' k = Some (Throw e))
      /\ requests s' = (requests s ++ [refresh_request (config s) token])%list
      /\ storage s' = TokenStorage.clear (storage s)
      /\ (forall key, In key STORAGE_KEYS.values ->
                      TokenStorage.getItem (storage s') key = None)
      /\ callbacks s' = (callbacks s ++ [onAuthStateChange false])%list
      /\ (forall later, OAuth2Service.isAuthenticated later s' = (Ret false, s'))
  | None =>
      let w' := Loop.refreshAccessToken now net w in
      Loop.outcome w' k = Some (Throw (ExnError "No refresh token available"))
      /\ Loop.service w' = s
  end.
Proof.
  intros Hidle. cbv zeta.
  destruct (nonempty (TokenStorage.getRefreshToken (storage (Loop.service w))))
    as [token|] eqn:Htok.
  - destruct (refresh_alone w now (failed_fetch failure) Hidle) as [-> ->].
    unfold OAuth2Service.performRefresh, bind.
    rewrite performRefresh_start_spec, Htok.
    set (s1 := with_request _ (Loop.service w)).
    assert (Hfail : forall tokens, failed_fetch failure <> FetchOk tokens)
      by (destruct failure; discriminate).
    destruct (performRefresh_finish_fail now (failed_fetch failure) s1 Hfail) as [[e He] Hs].
    destruct (OAuth2Service.performRefresh_finish now (failed_fetch failure) s1) as [r s2].
    cbn [fst snd] in *. subst r s2.
    pose proof (logout_effect None s1) as (Hst & _ & _ & Hrq & Hcb & _ & _).
    rewrite Hst, Hrq, Hcb.
    split; [eauto|]. split; [reflexivity|]. split; [reflexivity|]. split; [|split].
    + intros key Hkey. rewrite getItem_clear. now rewrite decide_True.
    + reflexivity.
    + intros later. apply cleared_unauthenticated. rewrite Hst. apply clear_session.
  - destruct (refresh_alone w now net Hidle) as [-> ->].
    unfold OAuth2Service.performRefresh, bind.
    rewrite performRefresh_start_spec, Htok. split; reflexivity.
Qed.

(** C6: a successful refresh whose response carries no refresh token
    leaves the stored one as it was; one that carries a refresh token (a
    string that is not empty) stores it in place of the old one. *)
Theorem refresh_token_rotation
        (w : Loop.World) (now : Z) (tokens : TokenResponse) (old : string) :
  refreshPromise (Loop.service w) = None ->
  nonempty (TokenStorage.getRefreshToken (storage (Loop.service w))) = Some old ->
  refresh_token tokens <> Some "" ->
  let w' := Loop.refreshAccessToken now (FetchOk tokens) w in
  Loop.outcome w' (List.length (Loop.received w)) = Some (Ret tt)
  /\ TokenStorage.getRefreshToken (storage (Loop.service w'))
     = match refresh_token tokens with
       | Some new => Some new
       | None => TokenStorage.getRefreshToken (storage (Loop.service w))
       end.
Proof.
  intros Hidle Hold Hnew. cbv zeta.
  destruct (refresh_alone w now (FetchOk tokens) Hidle) as [-> ->].
  unfold OAuth2Service.performRefresh, bind.
  rewrite performRefresh_start_spec, Hold.
  set (s1 := with_request _ (Loop.service w)).
  destruct (performRefresh_finish_ok now tokens s1) as (st' & t & -> & Est).
  destruct (storeTokens_spec tokens now s1) as (st2 & Est2 & _ & Hrt & _).
  rewrite Est in Est2. injection Est2 as Est2.
  assert (st' = st2) as ->.
  { change st' with (storage (with_storage (fun _ => st') s1)). now rewrite Est2. }
  split; [reflexivity|].
  cbn [snd storage with_callback with_refreshTimer with_storage].
  rewrite Hrt. change (storage s1) with (storage (Loop.service w)).
  destruct (refresh_token tokens) as [new|]; [|reflexivity].
  unfold nonempty, JS.truthy.
  destruct (String.eqb_spec new ""); [congruence | reflexivity].
Qed.

End RefreshProperties.

(** ** The callbacks and the flow state *)

Section FlowProperties.
Context `{Platform}.

Lemma exchangeCodeForToken_ok (code verifier : string) (now : Z) (tokens : TokenResponse)
      (s : Service) :
  exists st' t,
    OAuth2Service.exchangeCodeForToken code verifier now (FetchOk tokens) s
    = (Ret tt,
       with_callback (onAuthStateChange true)
         (with_refreshTimer t
            (with_storage (fun _ => st')
               (with_request (exchange_request (config s) code verifier) s))))
    /\ OAuth2Service.storeTokens tokens now
         (with_request (exchange_request (config s) code verifier) s)
       = (Ret tt, with_storage (fun _ => st')
                    (with_request (exchange_request (config s) code verifier) s)).
Proof.
  set (s1 := with_request (exchange_request (config s) code verifier) s).
  destruct (storeTokens_spec tokens now s1) as (st' & E & _).
  destruct (scheduleTokenRefresh_spec now (with_storage (fun _ => st') s1)) as (t & Et).
  exists st', t. split; [|exact E].
  unfold OAuth2Service.exchangeCodeForToken, OAuth2Service.makeTokenRequest,
    OAuth2Service.makeTokenRequest_send, OAuth2Service.makeTokenRequest_receive.
  run_m. fold (exchange_request (config s) code verifier). fold s1.
  rewrite E. cbn. rewrite Et. reflexivity.
Qed.

Lemma exchangeCodeForToken_fail (code verifier : string) (now : Z) (net : FetchOutcome)
      (s : Service) :
  (forall tokens, net <> FetchOk tokens) ->
  exists e,
    OAuth2Service.exchangeCodeForToken code verifier now net s
    = (Throw e, with_request (exchange_request (config s) code verifier) s).
Proof.
  intros Hnet.
  unfold OAuth2Service.exchangeCodeForToken, OAuth2Service.makeTokenRequest,
    OAuth2Service.makeTokenRequest_send, OAuth2Service.makeTokenRequest_receive.
  destruct net as [|body|tokens]; [| |now destruct (Hnet tokens)]; run_m; eauto.
Qed.

(** C9, as the code has it: [logout] signals [false] whatever the state
    was, so also when the session was already unauthenticated; a
    successful code exchange signals [true] whatever the state was, and
    never calls [onTokenRefresh]; a successful refresh calls
    [onTokenRefresh] and nothing else; a failed exchange calls nothing; a
    failed refresh signals [false]; [getAccessToken] signals [false] when it
    finds the token expired, and nothing otherwise. *)
Theorem callbacks_follow_operations (s : Service) :
  (forall redirectTo,
      callbacks (snd (OAuth2Service.logout redirectTo s))
      = (callbacks s ++ [onAuthStateChange false])%list)
  /\ (forall code verifier now tokens,
        callbacks (snd (OAuth2Service.exchangeCodeForToken code verifier now
                                                          (FetchOk tokens) s))
        = (callbacks s ++ [onAuthStateChange true])%list)
  /\ (forall code verifier now failure,
        callbacks (snd (OAuth2Service.exchangeCodeForToken code verifier now
                                                          (failed_fetch failure) s))
        = callbacks s)
  /\ (forall now tokens,
        callbacks (snd (OAuth2Service.performRefresh_finish now (FetchOk tokens) s))
        = (callbacks s ++ [onTokenRefresh tokens])%list)
  /\ (forall now failure,
        callbacks (snd (OAuth2Service.performRefresh_finish now (failed_fetch failure) s))
        = (callbacks s ++ [onAuthStateChange false])%list)
  /\ (forall now,
        callbacks (snd (OAuth2Service.getAccessToken now s))
        = (callbacks s ++ if lazily_expired now s then [onAuthStateChange false] else [])%list).
Proof.
  split; [|split; [|split; [|split; [|split]]]].
  - intros redirectTo. apply logout_effect.
  - intros code verifier now tokens.
    destruct (exchangeCodeForToken_ok code verifier now tokens s) as (st' & t & -> & _).
    reflexivity.
  - intros code verifier now failure.
    destruct (exchangeCodeForToken_fail code verifier now (failed_fetch failure) s)
      as (e & ->); [destruct failure; discriminate | reflexivity].
  - intros now tokens.
    destruct (performRefresh_finish_ok now tokens s) as (st' & t & -> & _). reflexivity.
  - intros now failure.
    destruct (performRefresh_finish_fail now (failed_fetch failure) s) as [_ ->];
      [destruct failure; discriminate | apply logout_effect].
  - intros now.
    pose proof (logout_effect None s) as (_ & _ & _ & _ & Hcb & _).
    unfold OAuth2Service.getAccessToken, lazily_expired. run_m.
    case_if; cbn; [|now rewrite app_nil_r].
    destruct (OAuth2Service.logout None s) as [[[]|e] s1]; exact Hcb.
Qed.

(** A callback that fails leaves the storage as it was: the verifier and
    the state stay. *)
Lemma handleCallback_failure_keeps_storage (url : option string) (now : Z) (net : FetchOutcome)
      (s : Service) (e : Exn) :
  fst (OAuth2Service.handleCallback url now net s) = Throw e ->
  storage (snd (OAuth2Service.handleCallback url now net s)) = storage s.
Proof.
  unfold OAuth2Service.handleCallback, OAuth2Service.handleError. run_m.
  repeat (case_if; cbn; try reflexivity).
  match goal with
  | |- context [OAuth2Service.exchangeCodeForToken ?c ?v now net s] =>
      destruct (classic_fetch net) as [[tokens ->]|Hnet];
      [ destruct (exchangeCodeForToken_ok c v now tokens s) as (st' & t & -> & _)
      | destruct (exchangeCodeForToken_fail c v now net s Hnet) as (e' & ->) ]
  end; cbn; [discriminate | reflexivity].
Qed.

(** A callback that succeeds removes them, and the same callback again is
    refused before anything is sent. *)
Lemma handleCallback_success_clears (url : option string) (now : Z) (net : FetchOutcome)
      (s : Service) :
  fst (OAuth2Service.handleCallback url now net s) = Ret tt ->
  let s' := snd (OAuth2Service.handleCallback url now net s) in
  TokenStorage.getState (storage s') = None
  /\ TokenStorage.getCodeVerifier (storage s') = None
  /\ forall now' net',
      OAuth2Service.handleCallback url now' net' s'
      = (Throw (ExnError "Invalid state parameter"), s').
Proof.
  intros Hok.
  assert (Hcl : exists s1,
             snd (OAuth2Service.handleCallback url now net s)
             = with_storage TokenStorage.clearTemporary s1
             /\ exists u, URL_new (match nonempty url with
                                   | Some u => u
                                   | None => location_href
                                   end) = Some u
                          /\ nonempty (Url.parseQueryParams u !! "error") = None).
  { revert Hok. unfold OAuth2Service.handleCallback, OAuth2Service.handleError. run_m.
    repeat (case_if; cbn; try discriminate).
    match goal with
    | |- context [OAuth2Service.exchangeCodeForToken ?c ?v now net s] =>
        destruct (OAuth2Service.exchangeCodeForToken c v now net s) as [[[]|e'] sx]
    end; cbn; [|discriminate].
    intros _. eauto. }
  destruct Hcl as (s1 & -> & u & Hu & Herr). cbv zeta.
  assert (Hst : TokenStorage.getState (storage (with_storage TokenStorage.clearTemporary s1))
                = None).
  { cbn. unfold TokenStorage.getState. rewrite getItem_clearTemporary.
    rewrite decide_True; [reflexivity | now left]. }
  split; [exact Hst|]. split.
  - cbn. unfold TokenStorage.getCodeVerifier. rewrite getItem_clearTemporary.
    rewrite decide_True; [reflexivity | now right].
  - intros now' net'.
    unfold OAuth2Service.handleCallback, OAuth2Service.handleError. run_m.
    rewrite Hu, Herr. cbn in Hst |- *. rewrite Hst. reflexivity.
Qed.

End FlowProperties.

(** ** Parameter objects and URLs *)

Lemma insert_index_perm {A} (i : N) (x : A) (l : list (N * A)) :
  Permutation (Obj.insert_index i x l) ((i, x) :: l).
Proof.
  induction l as [|[j y] l IH]; cbn; [reflexivity|].
  destruct (i <=? j)%N; [reflexivity|].
  rewrite IH. apply perm_swap.
Qed.

Lemma own_order_perm {A} (key : A -> string) (l : list A) :
  Permutation (Obj.own_order key l) l.
Proof.
  unfold Obj.own_order. induction l as [|x l IH]; [reflexivity|].
  cbn [Obj.indexed fold_right Obj.named List.filter].
  fold (Obj.indexed key l). fold (Obj.named key l).
  destruct (Obj.array_index (key x)) as [i|].
  - rewrite insert_index_perm. cbn. now rewrite IH.
  - rewrite <- Permutation_middle. now rewrite IH.
Qed.

Lemma get_set (k k0 : string) (v : option string) (o : Obj.t) :
  Obj.get k0 (Obj.set k v o) = if String.eqb k k0 then v else Obj.get k0 o.
Proof.
  unfold Obj.get. induction o as [|[k' v'] o IH]; cbn.
  - destruct (String.eqb k k0); reflexivity.
  - destruct (String.eqb_spec k' k) as [->|Hne]; cbn.
    + destruct (String.eqb k k0); reflexivity.
    + destruct (String.eqb_spec k' k0) as [->|Hne0].
      * destruct (String.eqb_spec k k0); [congruence | reflexivity].
      * exact IH.
Qed.

Lemma set_keys (k : string) (v : option string) (o : Obj.t) :
  List.NoDup (map fst o) ->
  List.NoDup (map fst (Obj.set k v o))
  /\ forall k', In k' (map fst (Obj.set k v o)) <-> k' = k \/ In k' (map fst o).
Proof.
  induction o as [|[k' v'] o IH]; cbn; intros Hnd.
  - split; [constructor; [intros []|constructor] | intros; cbn; intuition congruence].
  - inversion Hnd as [|? ? Hout Hnd']; subst.
    destruct (String.eqb_spec k' k) as [->|Hne]; cbn.
    + split; [exact Hnd | intros; intuition congruence].
    + destruct (IH Hnd') as [IH1 IH2]. split.
      * constructor; [|exact IH1]. rewrite IH2. intros [E|Hin]; congruence.
      * intros k0. rewrite IH2. intuition congruence.
Qed.

Lemma get_in (k : string) (v : string) (o : Obj.t) :
  List.NoDup (map fst o) -> (In (k, Some v) o <-> Obj.get k o = Some v).
Proof.
  unfold Obj.get. induction o as [|[k' v'] o IH]; cbn; intros Hnd.
  - split; [tauto | discriminate].
  - inversion Hnd as [|? ? Hout Hnd']; subst.
    destruct (String.eqb_spec k' k) as [->|Hne].
    + split.
      * intros [E|Hin]; [congruence|].
        exfalso. apply Hout. change k with (fst (k, Some v)). now apply in_map.
      * intros ->. now left.
    + rewrite <- (IH Hnd'). split; [intros [E|Hin]; [congruence | exact Hin] | now right].
Qed.

Lemma spread_keys (src : list (string * string)) (o : Obj.t) :
  List.NoDup (map fst o) -> List.NoDup (map fst (Obj.spread src o)).
Proof.
  unfold Obj.spread. generalize (Obj.own_order fst src). intros l. revert o.
  induction l as [|x l IH]; intros o Hnd; cbn; [exact Hnd|].
  apply IH. now apply set_keys.
Qed.

Lemma fold_set_other (l : list (string * string)) (k0 : string) :
  forall o : Obj.t,
    ~ In k0 (map fst l) ->
    Obj.get k0 (fold_left (fun o kv => Obj.set (fst kv) (Some (snd kv)) o) l o)
    = Obj.get k0 o.
Proof.
  induction l as [|[k v] l IH]; intros o Hout; cbn; [reflexivity|].
  cbn in Hout. rewrite IH by tauto. rewrite get_set.
  destruct (String.eqb_spec k k0); [tauto | reflexivity].
Qed.

Lemma fold_set_in (l : list (string * string)) (k0 v0 : string) :
  forall o : Obj.t,
    List.NoDup (map fst l) ->
    In (k0, v0) l ->
    Obj.get k0 (fold_left (fun o kv => Obj.set (fst kv) (Some (snd kv)) o) l o)
    = Some v0.
Proof.
  induction l as [|[k v] l IH]; intros o Hnd Hin; cbn; [destruct Hin|].
  inversion Hnd as [|? ? Hout Hnd']; subst.
  destruct Hin as [E|Hin].
  - injection E as -> ->. rewrite fold_set_other by exact Hout.
    rewrite get_set. now rewrite String.eqb_refl.
  - now apply IH.
Qed.

(** A caller's parameter is in the merged object, whatever was there; a
    name the caller does not use keeps what was there. *)
Lemma spread_get (src : list (string * string)) (o : Obj.t) (k : string) :
  List.NoDup (map fst src) ->
  (forall v, In (k, v) src -> Obj.get k (Obj.spread src o) = Some v)
  /\ (~ In k (map fst src) -> Obj.get k (Obj.spread src o) = Obj.get k o).
Proof.
  intros Hnd. unfold Obj.spread.
  pose proof (own_order_perm fst src) as Hperm.
  split.
  - intros v Hin. apply fold_set_in.
    + eapply Permutation_NoDup; [|exact Hnd]. symmetry. now apply Permutation_map.
    + eapply Permutation_in; [symmetry; exact Hperm | exact Hin].
  - intros Hout. apply fold_set_other. intros Hin. apply Hout.
    eapply Permutation_in; [apply Permutation_map; exact Hperm | exact Hin].
Qed.

Lemma appended_in (l : list (string * option string)) (k v : string) :
  In (k, v) (appended l) <-> In (k, Some v) l.
Proof.
  unfold appended. rewrite in_flat_map. split.
  - intros ([k' [v'|]] & Hin & Hx); cbn in Hx; [|destruct Hx].
    destruct Hx as [E|[]]. now injection E as -> ->.
  - intros Hin. exists (k, Some v). split; [exact Hin | now left].
Qed.

Lemma buildUrl_params `{Platform} (baseUrl : string) (params : Obj.t) (base : URL) :
  URL_new baseUrl = Some base ->
  exists u, Url.buildUrl baseUrl params = Some u
            /\ url_base u = url_base base
            /\ searchParams u = (searchParams base ++ appended (Obj.entries params))%list.
Proof.
  intros Hbase. unfold Url.buildUrl. rewrite Hbase. eexists. split; [reflexivity|].
  clear Hbase. generalize (Obj.entries params). intros l. revert base.
  induction l as [|[k [v|]] l IH]; intros base; cbn.
  - now rewrite app_nil_r.
  - destruct (IH (Url.append k v base)) as [-> ->]. cbn.
    now rewrite <- app_assoc.
  - apply IH.
Qed.

(** What the URL carries of a parameter object, beyond the base URL's own
    parameters: for every name the value the object holds. *)
Lemma entries_get (params : Obj.t) (k v : string) :
  List.NoDup (map fst params) ->
  (In (k, v) (appended (Obj.entries params)) <-> Obj.get k params = Some v).
Proof.
  intros Hnd. rewrite appended_in, <- get_in by exact Hnd.
  unfold Obj.entries. split; apply Permutation_in;
    [apply own_order_perm | symmetry; apply own_order_perm].
Qed.

(** ** Starting the flow *)

Section AuthorizeProperties.
Context `{Platform}.

Lemma authorize_spec (additionalParams : list (string * string))
      (rng1 rng2 : nat -> Byte.byte) (s : Service) :
  let verifier := fst (Crypto.generatePKCEParams rng1) in
  let challenge := snd (Crypto.generatePKCEParams rng1) in
  let state := Crypto.generateRandomString rng2 32 in
  let s1 := with_storage (TokenStorage.setState state)
              (with_storage (TokenStorage.setCodeVerifier verifier) s) in
  let params :=
    Obj.spread additionalParams
      (map (fun kv => (fst kv, Some (snd kv)))
           (authorization_params (config s) state challenge)) in
  OAuth2Service.authorize additionalParams rng1 rng2 s
  = match Url.buildUrl (authorizationEndpoint (config s)) params with
    | Some u => (Ret tt, with_href (HrefUrl u) s1)
    | None => (Throw ExnTypeError, s1)
    end.
Proof.
  unfold OAuth2Service.authorize, OAuth2Service.handleError.
  destruct (Crypto.generatePKCEParams rng1) as [verifier challenge]. run_m.
  case_if; reflexivity.
Qed.

Lemma authorize_stores (additionalParams : list (string * string))
      (rng1 rng2 : nat -> Byte.byte) (s : Service) :
  let s' := snd (OAuth2Service.authorize additionalParams rng1 rng2 s) in
  TokenStorage.getState (storage s') = Some (Crypto.generateRandomString rng2 32)
  /\ TokenStorage.getCodeVerifier (storage s')
     = Some (fst (Crypto.generatePKCEParams rng1)).
Proof.
  cbv zeta. rewrite authorize_spec. cbv zeta.
  unfold TokenStorage.getState, TokenStorage.getCodeVerifier,
    TokenStorage.setState, TokenStorage.setCodeVerifier.
  case_if; cbn; rewrite !getItem_setItem; split; reflexivity.
Qed.

Lemma authorization_params_keys (cfg : OAuth2Config) (state challenge : string) :
  List.NoDup (map fst (map (fun kv : string * string => (fst kv, Some (snd kv)))
                           (authorization_params cfg state challenge))).
Proof.
  cbn. repeat (constructor; [cbn; intuition discriminate|]). constructor.
Qed.

(** C1, as the code has it: the extra parameters are merged last and
    replace any parameter of the same name, [state] and [code_challenge]
    included.  The URL carries every extra parameter, and every parameter
    of [authorize] itself whose name the caller does not use: then
    response_type=code, the configured client id, S256, the persisted
    state and the challenge of the persisted verifier. *)
Theorem authorize_url (s : Service) (additionalParams : list (string * string))
        (rng1 rng2 : nat -> Byte.byte) (base : URL) :
  URL_new (authorizationEndpoint (config s)) = Some base ->
  List.NoDup (map fst additionalParams) ->
  let verifier := fst (Crypto.generatePKCEParams rng1) in
  let challenge := snd (Crypto.generatePKCEParams rng1) in
  let state := Crypto.generateRandomString rng2 32 in
  let s' := snd (OAuth2Service.authorize additionalParams rng1 rng2 s) in
  fst (OAuth2Service.authorize additionalParams rng1 rng2 s) = Ret tt
  /\ TokenStorage.getState (storage s') = Some state
  /\ TokenStorage.getCodeVerifier (storage s') = Some verifier
  /\ challenge = Crypto.base64UrlEncode (Crypto.sha256 verifier)
  /\ exists u q,
      href s' = Some (HrefUrl u)
      /\ searchParams u = (searchParams base ++ q)%list
      /\ (forall k v, In (k, v) additionalParams ->
                      forall v', In (k, v') q <-> v' = v)
      /\ (forall k v, In (k, v) (authorization_params (config s) state challenge) ->
                      ~ In k (map fst additionalParams) ->
                      forall v', In (k, v') q <-> v' = v).
Proof.
  intros Hbase Hnd. cbv zeta.
  destruct (authorize_stores additionalParams rng1 rng2 s) as [Hst Hcv].
  split; [|split; [exact Hst|split; [exact Hcv|split; [reflexivity|]]]].
  - rewrite authorize_spec. cbv zeta.
    destruct (buildUrl_params _ (Obj.spread additionalParams
                (map (fun kv => (fst kv, Some (snd kv)))
                     (authorization_params (config s)
                        (Crypto.generateRandomString rng2 32)
                        (snd (Crypto.generatePKCEParams rng1))))) base Hbase)
      as (u & -> & _). reflexivity.
  - rewrite authorize_spec. cbv zeta.
    set (own := map (fun kv : string * string => (fst kv, Some (snd kv)))
                    (authorization_params (config s)
                       (Crypto.generateRandomString rng2 32)
                       (snd (Crypto.generatePKCEParams rng1)))).
    destruct (buildUrl_params _ (Obj.spread additionalParams own) base Hbase)
      as (u & -> & _ & Hq).
    assert (Hkeys : List.NoDup (map fst (Obj.spread additionalParams own)))
      by apply spread_keys, authorization_params_keys.
    exists u, (appended (Obj.entries (Obj.spread additionalParams own))).
    split; [reflexivity|]. split; [exact Hq|]. split.
    + intros k v Hin v'. rewrite entries_get by exact Hkeys.
      destruct (spread_get additionalParams own k Hnd) as [Hget _].
      rewrite (Hget v Hin). split; congruence.
    + intros k v Hin Hout v'. rewrite entries_get by exact Hkeys.
      destruct (spread_get additionalParams own k Hnd) as [_ Hget].
      rewrite (Hget Hout).
      assert (Hown : Obj.get k own = Some v).
      { apply get_in; [apply authorization_params_keys|].
        unfold own. apply in_map_iff. exists (k, v). now split. }
      rewrite Hown. split; congruence.
Qed.

(** C7: the verifier [authorize] generates and persists has 128
    characters, so between 43 and 128, all of them unreserved, and the
    challenge is the base64url encoding without padding of the digest the
    platform computes, under the name SHA-256, of the verifier's octets. *)
Theorem pkce_pair_well_formed (s : Service) (additionalParams : list (string * string))
        (rng1 rng2 : nat -> Byte.byte) :
  let verifier := fst (Crypto.generatePKCEParams rng1) in
  let challenge := snd (Crypto.generatePKCEParams rng1) in
  let s' := snd (OAuth2Service.authorize additionalParams rng1 rng2 s) in
  TokenStorage.getCodeVerifier (storage s') = Some verifier
  /\ String.length verifier = 128%nat
  /\ (43 <= String.length verifier <= 128)%nat
  /\ Forall (fun c => Crypto.unreserved c = true) (list_ascii_of_string verifier)
  /\ challenge
     = Spec.base64url_nopad (subtle_digest "SHA-256" (Spec.ascii_octets verifier))
  /\ Forall (fun c => c <> "="%char) (list_ascii_of_string challenge).
Proof.
  cbv zeta.
  destruct (authorize_stores additionalParams rng1 rng2 s) as [_ Hcv].
  unfold Crypto.generatePKCEParams in *. cbn [fst snd] in *.
  destruct (generateRandomString_chars rng1 128) as [Hlen Hchars].
  split; [exact Hcv|]. split; [exact Hlen|]. split; [rewrite Hlen; lia|].
  split; [exact Hchars|].
  rewrite base64UrlEncode_spec. unfold Crypto.sha256.
  rewrite TextEncoder_encode_unreserved by exact Hchars.
  split; [reflexivity | apply base64url_nopad_chars].
Qed.

End AuthorizeProperties.


(** ** The scenarios of the specification *)

(** [authorize()] without extra parameters on the configuration [c1]: the
    URL carries [client_id=c1], [response_type=code],
    [code_challenge_method=S256] and the state that was persisted. *)
Example scenario_authorize :
  authorize_url_as_claimed (H := TestPlatform.platform)
    (TestPlatform.service []) [] TestPlatform.rng_count TestPlatform.rng_zero.
Proof.
  unfold authorize_url_as_claimed, carries.
  eexists _, _, _. vm_compute. repeat split; try reflexivity; tauto.
Qed.

(** The callback [?code=XYZ&state=S1] against the stored state [S1] and
    verifier [V1], the endpoint answering an access token [A1] that lives
    3600 seconds. *)
Example scenario_callback :
  let tokens := {| access_token := "A1"; token_type := "Bearer"; expires_in := Some 3600;
                   refresh_token := None; tr_scope := None; id_token := None |} in
  let r := OAuth2Service.handleCallback (H := TestPlatform.platform)
             Scenario.callback_url 1000 (FetchOk tokens) Scenario.awaiting_callback in
  fst r = Ret tt
  /\ OAuth2Service.isAuthenticated (H := TestPlatform.platform) 2000 (snd r)
     = (Ret true, snd r)
  /\ fst (OAuth2Service.getAccessToken (H := TestPlatform.platform) 2000 (snd r))
     = Ret (Some "A1")
  /\ TokenStorage.getExpiresAt (storage (snd r)) = Some (JS.Int 3601000)
  /\ TokenStorage.getState (storage (snd r)) = None
  /\ TokenStorage.getCodeVerifier (storage (snd r)) = None
  /\ callbacks (snd r) = [onAuthStateChange true].
Proof. vm_compute. repeat split; reflexivity. Qed.

(** The callback [?error=access_denied]: refused, and nothing is sent. *)
Example scenario_denied :
  let r := OAuth2Service.handleCallback (H := TestPlatform.platform)
             (Some "https://app/cb?error=access_denied") 1000 FetchRejected
             Scenario.awaiting_callback in
  fst r = Throw (ExnOAuth2 {| error := "access_denied";
                              error_description := None;
                              error_uri := None |})
  /\ requests (snd r) = [].
Proof. vm_compute. split; reflexivity. Qed.

(** C2, where the code departs from it: the token endpoint answers the
    first callback with an error.  The call fails, the state and the verifier
    are still stored afterwards, and the same callback handled again passes
    the checks and sends a second token request. *)
Theorem handleCallback_failure_allows_replay :
  let first := OAuth2Service.handleCallback (H := TestPlatform.platform)
                 Scenario.callback_url 0 (FetchNotOk Scenario.server_error)
                 Scenario.awaiting_callback in
  let second := OAuth2Service.handleCallback (H := TestPlatform.platform)
                  Scenario.callback_url 1 (FetchNotOk Scenario.server_error)
                  (snd first) in
  fst first = Throw (ExnOAuth2 Scenario.server_error)
  /\ TokenStorage.getState (storage (snd first)) = Some "S1"
  /\ TokenStorage.getCodeVerifier (storage (snd first)) = Some "V1"
  /\ List.length (requests (snd first)) = 1%nat
  /\ List.length (requests (snd second)) = 2%nat.
Proof. vm_compute. repeat split; reflexivity. Qed.

(** C8, where the code departs from it: a refresh at time 5000 whose
    response carries no [expires_in].  The new access token is stored and the
    expiry 1000 of the earlier token stays with it, so the next
    [getAccessToken] takes the new token for expired and logs out. *)
Theorem stale_expiry_survives_refresh :
  let w := Loop.refreshAccessToken (H := TestPlatform.platform) 5000
             (FetchOk (Scenario.bare "A2")) (Loop.idle Scenario.session) in
  let s := Loop.service w in
  Loop.outcome w 0 = Some (Ret tt)
  /\ TokenStorage.getAccessToken (storage s) = Some "A2"
  /\ TokenStorage.getExpiresAt (storage s) = Some (JS.Int 1000)
  /\ fst (OAuth2Service.getAccessToken (H := TestPlatform.platform) 5001 s) = Ret None.
Proof. vm_compute. repeat split; reflexivity. Qed.

(** C1 fails as stated: a caller that passes its own [state] gets a URL
    that carries that value and not the persisted one. *)
Lemma authorize_state_overridden :
  ~ authorize_url_as_claimed (H := TestPlatform.platform)
      (TestPlatform.service []) [("state", "evil")]
      TestPlatform.rng_count TestPlatform.rng_zero.
Proof.
  unfold authorize_url_as_claimed, carries.
  intros (u & state & verifier & Hu & Hst & _ & _ & _ & _ & Hin & _).
  vm_compute in Hu. injection Hu as <-.
  vm_compute in Hst. injection Hst as <-.
  vm_compute in Hin.
  repeat (destruct Hin as [Hin|Hin]; [discriminate Hin|]). exact Hin.
Qed.

(** C9 fails as stated: [logout] on a service that holds no session
    signals [false] all the same. *)
Lemma logout_signals_when_unauthenticated :
  ~ silent_when_unauthenticated (H := TestPlatform.platform)
      (TestPlatform.service []) None 0.
Proof.
  unfold silent_when_unauthenticated. intros Hsilent.
  assert (Hno : fst (OAuth2Service.isAuthenticated (H := TestPlatform.platform) 0
                       (TestPlatform.service [])) = Ret false)
    by (vm_compute; reflexivity).
  specialize (Hsilent Hno). vm_compute in Hsilent. discriminate Hsilent.
Qed.

(** C1, on the configuration of the specification's scenario and a caller
    that adds [prompt=consent]: the URL is built and the flow state stored. *)
Lemma authorize_url_witness :
  let s := TestPlatform.service [] in
  let extra := [("prompt", "consent")] in
  URL_new (Platform := TestPlatform.platform) (authorizationEndpoint (config s))
  = Some Scenario.endpoint
  /\ List.NoDup (map fst extra)
  /\ fst (OAuth2Service.authorize (H := TestPlatform.platform) extra
            TestPlatform.rng_count TestPlatform.rng_zero s) = Ret tt.
Proof.
  cbv zeta.
  assert (Hbase : URL_new (Platform := TestPlatform.platform)
                    (authorizationEndpoint (config (TestPlatform.service [])))
                  = Some Scenario.endpoint) by reflexivity.
  assert (Hnd : List.NoDup (map fst [("prompt", "consent")]))
    by (constructor; [intros [] | constructor]).
  split; [exact Hbase|]. split; [exact Hnd|].
  exact (proj1 (authorize_url (H := TestPlatform.platform) (TestPlatform.service [])
                  [("prompt", "consent")] TestPlatform.rng_count TestPlatform.rng_zero
                  Scenario.endpoint Hbase Hnd)).
Defined.

(** C3, on a stored refresh token: two more calls and a query arrive while
    the first refresh waits for the endpoint; the marker is clear at the end. *)
Lemma refresh_in_flight_is_shared_witness :
  let w := Loop.idle (TestPlatform.service [("oauth2_refresh_token", "R1")]) in
  let mid := [Loop.Call; Loop.IsAuthenticated 5; Loop.Call] in
  refreshPromise (Loop.service w) = None
  /\ forallb quiet mid = true
  /\ requests (Loop.service (Loop.run (H := TestPlatform.platform) mid (Loop.call w)))
     = requests (Loop.service (Loop.call w)).
Proof.
  cbv zeta. split; [reflexivity|]. split; [reflexivity|].
  exact (proj1 (proj2
           (refresh_in_flight_is_shared (H := TestPlatform.platform)
              (Loop.idle (TestPlatform.service [("oauth2_refresh_token", "R1")]))
              [Loop.Call; Loop.IsAuthenticated 5; Loop.Call] 10
              (FetchOk (Scenario.bare "A2")) eq_refl eq_refl))).
Defined.

(** C4, on the scenario of the specification: the endpoint answers the
    refresh with [invalid_grant]; from then on nobody is authenticated. *)
Lemma failed_refresh_logs_out_witness :
  let w := Loop.idle Scenario.session in
  let w' := Loop.refreshAccessToken (H := TestPlatform.platform) 100
              (FetchNotOk Scenario.invalid_grant) w in
  refreshPromise (Loop.service w) = None
  /\ forall later,
      OAuth2Service.isAuthenticated (H := TestPlatform.platform) later (Loop.service w')
      = (Ret false, Loop.service w').
Proof.
  cbv zeta. split; [reflexivity|].
  pose proof (failed_refresh_logs_out (H := TestPlatform.platform)
                (Loop.idle Scenario.session) 100 (Some Scenario.invalid_grant)
                FetchRejected eq_refl) as T.
  cbv zeta in T.
  change (nonempty (TokenStorage.getRefreshToken
                      (storage (Loop.service (Loop.idle Scenario.session)))))
    with (Some "R1") in T.
  cbv iota beta in T.
  exact (proj2 (proj2 (proj2 (proj2 (proj2 T))))).
Defined.

(** C5, on a session whose expiry 1000 has passed at time 5000. *)
Lemma expired_token_logs_out_witness :
  let s := Scenario.session in
  TokenStorage.getAccessToken (storage s) = Some "A1"
  /\ "A1" <> ""
  /\ TokenStorage.getExpiresAt (storage s) = Some (JS.Int 1000)
  /\ 1000 <> 0
  /\ 1000 <= 5000
  /\ logout_target_ok (H := TestPlatform.platform) (config s)
  /\ fst (OAuth2Service.getAccessToken (H := TestPlatform.platform) 5000 s) = Ret None.
Proof.
  cbv zeta.
  assert (H1 : TokenStorage.getAccessToken (storage Scenario.session) = Some "A1")
    by reflexivity.
  assert (H2 : "A1" <> "") by discriminate.
  assert (H3 : TokenStorage.getExpiresAt (storage Scenario.session) = Some (JS.Int 1000))
    by reflexivity.
  assert (H4 : 1000 <> 0) by discriminate.
  assert (H5 : 1000 <= 5000) by discriminate.
  assert (H6 : logout_target_ok (H := TestPlatform.platform) (config Scenario.session))
    by (left; reflexivity).
  repeat (split; [assumption|]).
  exact (proj1 (expired_token_logs_out (H := TestPlatform.platform) Scenario.session
                  "A1" 1000 5000 H1 H2 H3 H4 H5 H6)).
Defined.

(** C6, on a response without refresh token: the stored one stays. *)
Lemma refresh_token_rotation_witness :
  let w := Loop.idle Scenario.session in
  let w' := Loop.refreshAccessToken (H := TestPlatform.platform) 5000
              (FetchOk (Scenario.bare "A2")) w in
  refreshPromise (Loop.service w) = None
  /\ nonempty (TokenStorage.getRefreshToken (storage (Loop.service w))) = Some "R1"
  /\ refresh_token (Scenario.bare "A2") <> Some ""
  /\ TokenStorage.getRefreshToken (storage (Loop.service w'))
     = TokenStorage.getRefreshToken (storage (Loop.service w)).
Proof.
  cbv zeta.
  assert (H3 : refresh_token (Scenario.bare "A2") <> Some "") by discriminate.
  split; [reflexivity|]. split; [reflexivity|]. split; [exact H3|].
  exact (proj2 (refresh_token_rotation (H := TestPlatform.platform)
                  (Loop.idle Scenario.session) 5000 (Scenario.bare "A2") "R1"
                  eq_refl eq_refl H3)).
Defined.

(** C10, on a stored access token without expiry, at an arbitrary time. *)
Lemma no_expiry_never_expires_witness :
  let s := TestPlatform.service [("oauth2_access_token", "A1")] in
  TokenStorage.getAccessToken (storage s) = Some "A1"
  /\ "A1" <> ""
  /\ TokenStorage.getItem (storage s) STORAGE_KEYS.EXPIRES_AT = None
  /\ OAuth2Service.isAuthenticated (H := TestPlatform.platform) 4102444800000 s
     = (Ret true, s).
Proof.
  cbv zeta.
  assert (H2 : "A1" <> "") by discriminate.
  split; [reflexivity|]. split; [exact H2|]. split; [reflexivity|].
  exact (proj2 (no_expiry_never_expires (H := TestPlatform.platform)
                  (TestPlatform.service [("oauth2_access_token", "A1")]) "A1"
                  4102444800000 eq_refl H2 eq_refl)).
Defined.

(** * Further properties of the code *)

(** ** src/utils/storage.ts *)

Lemma string_length_app (a b : string) :
  String.length (a ++ b) = (String.length a + String.length b)%nat.
Proof. induction a as [|x a IH]; app_simpl; [reflexivity | now rewrite IH]. Qed.

Lemma suffixes_spec (p k : string) : In k (suffixes (p ++ k)).
Proof.
  induction p as [|c p IH]; app_simpl.
  - destruct k; now left.
  - now right.
Qed.

Lemma key_suffix (p k1 k2 : string) :
  In k1 STORAGE_KEYS.values -> In k2 STORAGE_KEYS.values ->
  k1 = (p ++ k2)%string -> p = "" /\ k1 = k2.
Proof.
  intros H1 H2 E.
  assert (Hk : k1 = k2).
  { pose proof (suffixes_spec p k2) as Hs. rewrite <- E in Hs.
    cbn in H1, H2.
    repeat (destruct H1 as [<-|H1];
            [ repeat (destruct H2 as [<-|H2];
                      [ first [ reflexivity
                              | exfalso; vm_compute in Hs;
                                repeat (destruct Hs as [Hs|Hs]; [discriminate Hs|]);
                                exact Hs ] |]);
              destruct H2 |]).
    destruct H1. }
  split; [|exact Hk]. subst k2.
  apply (f_equal String.length) in E. rewrite string_length_app in E.
  destruct p; [reflexivity | cbn in E; lia].
Qed.

Lemma prefixed_key_inj (p1 : string) :
  forall (p2 k1 k2 : string),
    In k1 STORAGE_KEYS.values -> In k2 STORAGE_KEYS.values ->
    (p1 ++ k1)%string = (p2 ++ k2)%string -> p1 = p2 /\ k1 = k2.
Proof.
  induction p1 as [|c p1 IH]; intros p2 k1 k2 H1 H2 E.
  - rewrite string_app_nil_l in E. destruct (key_suffix p2 k1 k2 H1 H2 E) as [-> ->].
    now split.
  - destruct p2 as [|c' p2].
    + rewrite string_app_nil_l in E. symmetry in E.
      destruct (key_suffix (String c p1) k2 k1 H2 H1 E) as [Hp _]. discriminate Hp.
    + rewrite !string_app_cons in E. injection E as -> E.
      destruct (IH p2 k1 k2 H1 H2 E) as [-> ->]. now split.
Qed.

(** Two adapters over one backend, with different prefixes, do not see
    each other: what one of them sets, removes or clears leaves unchanged
    what the other one reads under every key. *)
Theorem adapters_with_different_prefixes_are_isolated
        (backend : gmap string string) (p1 p2 : string) (k2 : string) :
  p1 <> p2 ->
  In k2 STORAGE_KEYS.values ->
  let mine := TokenStorage.mk backend p1 in
  let theirs (a : TokenStorage.t) := TokenStorage.mk (TokenStorage.storage a) p2 in
  (forall k1 v, In k1 STORAGE_KEYS.values ->
                TokenStorage.getItem (theirs (TokenStorage.setItem k1 v mine)) k2
                = TokenStorage.getItem (theirs mine) k2)
  /\ (forall k1, In k1 STORAGE_KEYS.values ->
                 TokenStorage.getItem (theirs (TokenStorage.removeItem k1 mine)) k2
                 = TokenStorage.getItem (theirs mine) k2)
  /\ TokenStorage.getItem (theirs (TokenStorage.clear mine)) k2
     = TokenStorage.getItem (theirs mine) k2.
Proof.
  intros Hne Hk2. cbv zeta.
  assert (Hkey : forall k1, In k1 STORAGE_KEYS.values ->
                            (p1 ++ k1)%string <> (p2 ++ k2)%string).
  { intros k1 Hk1 E. now destruct (prefixed_key_inj p1 p2 k1 k2 Hk1 Hk2 E). }
  assert (Hrm : forall k1 m, In k1 STORAGE_KEYS.values ->
                  TokenStorage.getItem
                    (TokenStorage.mk
                       (TokenStorage.storage
                          (TokenStorage.removeItem k1 (TokenStorage.mk m p1))) p2) k2
                  = TokenStorage.getItem (TokenStorage.mk m p2) k2).
  { intros k1 m Hk1. unfold TokenStorage.getItem, TokenStorage.removeItem,
      TokenStorage.getKey. cbn. apply lookup_delete_ne. now apply Hkey. }
  split; [|split].
  - intros k1 v Hk1. unfold TokenStorage.getItem, TokenStorage.setItem, TokenStorage.getKey.
    cbn. apply lookup_insert_ne. now apply Hkey.
  - intros k1 Hk1. now apply Hrm.
  - unfold TokenStorage.clear, STORAGE_KEYS.values. cbn [fold_left].
    unfold TokenStorage.getItem, TokenStorage.removeItem, TokenStorage.getKey. cbn.
    rewrite !lookup_delete_ne; [reflexivity|..];
      apply Hkey; cbn; tauto.
Qed.

(** A number written by [setExpiresAt] is read back by [getExpiresAt]:
    every integer that a number holds exactly (below 2^53 in absolute
    value, where [toString] writes all the digits), zero and the negative
    ones included. *)
Theorem expiry_round_trip (s : TokenStorage.t) (expiresAt : Z) :
  - 2 ^ 53 < expiresAt < 2 ^ 53 ->
  TokenStorage.getExpiresAt (TokenStorage.setExpiresAt expiresAt s)
  = Some (JS.Int expiresAt).
Proof.
  intros _.
  unfold TokenStorage.getExpiresAt, TokenStorage.setExpiresAt.
  rewrite getItem_setItem. rewrite decide_True by reflexivity.
  now rewrite toString_truthy, parseInt_toString.
Qed.

Lemma clear_lookup_own (s : TokenStorage.t) (j : string) :
  In j (map (TokenStorage.getKey s) STORAGE_KEYS.values) ->
  TokenStorage.storage (TokenStorage.clear s) !! j = None.
Proof.
  intros Hin. apply in_map_iff in Hin as (k & <- & Hk).
  change (TokenStorage.getItem (TokenStorage.clear s) k = None).
  rewrite getItem_clear. now rewrite decide_True.
Qed.

Lemma clear_lookup_other (s : TokenStorage.t) (j : string) :
  ~ In j (map (TokenStorage.getKey s) STORAGE_KEYS.values) ->
  TokenStorage.storage (TokenStorage.clear s) !! j = TokenStorage.storage s !! j.
Proof.
  intros Hout. unfold TokenStorage.clear, STORAGE_KEYS.values. cbn [fold_left].
  unfold TokenStorage.removeItem, TokenStorage.getKey. cbn.
  rewrite !lookup_delete_ne; [reflexivity|..]; intros E; apply Hout; cbn; tauto.
Qed.

Lemma clear_twice (s : TokenStorage.t) :
  TokenStorage.clear (TokenStorage.clear s) = TokenStorage.clear s.
Proof.
  assert (Hp : forall a, TokenStorage.prefix (TokenStorage.clear a) = TokenStorage.prefix a)
    by reflexivity.
  assert (E : TokenStorage.storage (TokenStorage.clear (TokenStorage.clear s))
              = TokenStorage.storage (TokenStorage.clear s)).
  { apply map_eq. intros j.
    assert (Hkeys : map (TokenStorage.getKey (TokenStorage.clear s)) STORAGE_KEYS.values
                    = map (TokenStorage.getKey s) STORAGE_KEYS.values) by reflexivity.
    destruct (in_dec String.string_dec j
                (map (TokenStorage.getKey s) STORAGE_KEYS.values)) as [Hin|Hout].
    - rewrite (clear_lookup_own s j Hin). apply clear_lookup_own. now rewrite Hkeys.
    - apply clear_lookup_other. now rewrite Hkeys. }
  assert (Hext : forall a b : TokenStorage.t,
             TokenStorage.storage a = TokenStorage.storage b ->
             TokenStorage.prefix a = TokenStorage.prefix b -> a = b).
  { intros [m1 q1] [m2 q2]. cbn. now intros -> ->. }
  apply Hext; [exact E | apply Hp].
Qed.

(** [clear] removes the seven items of this adapter and nothing else of the
    backend, and clearing twice is clearing once. *)
Theorem clear_removes_only_own_items (s : TokenStorage.t) :
  (forall key, In key STORAGE_KEYS.values ->
               TokenStorage.getItem (TokenStorage.clear s) key = None)
  /\ (forall j, ~ In j (map (TokenStorage.getKey s) STORAGE_KEYS.values) ->
                TokenStorage.storage (TokenStorage.clear s) !! j
                = TokenStorage.storage s !! j)
  /\ TokenStorage.clear (TokenStorage.clear s) = TokenStorage.clear s.
Proof.
  split; [|split].
  - intros key Hkey. rewrite getItem_clear. now rewrite decide_True.
  - intros j Hj. now apply clear_lookup_other.
  - apply clear_twice.
Qed.

(** [clearTemporary] removes the state and the verifier and leaves the
    session as it is. *)
Theorem clearTemporary_keeps_session (s : TokenStorage.t) :
  let s' := TokenStorage.clearTemporary s in
  TokenStorage.getState s' = None
  /\ TokenStorage.getCodeVerifier s' = None
  /\ TokenStorage.getAccessToken s' = TokenStorage.getAccessToken s
  /\ TokenStorage.getRefreshToken s' = TokenStorage.getRefreshToken s
  /\ TokenStorage.getIdToken s' = TokenStorage.getIdToken s
  /\ TokenStorage.getExpiresAt s' = TokenStorage.getExpiresAt s
  /\ TokenStorage.getScope s' = TokenStorage.getScope s.
Proof.
  cbv zeta.
  unfold TokenStorage.getState, TokenStorage.getCodeVerifier, TokenStorage.getAccessToken,
    TokenStorage.getRefreshToken, TokenStorage.getIdToken, TokenStorage.getExpiresAt,
    TokenStorage.getScope.
  rewrite !getItem_clearTemporary.
  repeat split; repeat case_decide; try reflexivity;
    match goal with H : _ \/ _ |- _ => destruct H; discriminate
                  | H : ~ _ |- _ => exfalso; apply H; tauto end.
Qed.

(** ** src/utils/crypto.ts *)




(** The reduction modulo 66 of an octet is not uniform: each of the first
    58 characters of [charset] comes from four octets, each of the last
    eight from three. *)
Theorem random_characters_are_not_uniform (i : nat) :
  (i < 66)%nat ->
  exists c, String.get i Crypto.charset = Some c
            /\ octets_giving c = if (i <? 58)%nat then 4%nat else 3%nat.
Proof.
  intros Hi.
  pose (P := fun i : nat =>
    match String.get i Crypto.charset with
    | Some c => Nat.eqb (octets_giving c) (if (i <? 58)%nat then 4 else 3)
    | None => false
    end).
  assert (HP : P i = true) by (apply (forall_below 66); [vm_compute; reflexivity | exact Hi]).
  unfold P in HP. destruct (String.get i Crypto.charset) as [c|]; [|discriminate].
  exists c. split; [reflexivity | now apply Nat.eqb_eq].
Qed.

Lemma chars_length (alphabet : string) (l : list N) :
  String.length (Crypto.chars alphabet l) = List.length l.
Proof.
  unfold Crypto.chars. induction l as [|i l IH]; cbn; [reflexivity | now rewrite IH].
Qed.

Lemma sextet_values_length (data : list Byte.byte) :
  List.length (sextet_values data) = ((4 * List.length data + 2) / 3)%nat.
Proof.
  induction data as [| a | a b | a b c r IH] using list_ind3.
  - reflexivity.
  - reflexivity.
  - reflexivity.
  - destruct (sextet_values3 a b c r) as [-> _].
    rewrite length_app, IH. cbn [List.length Crypto.sextets3].
    replace (4 * S (S (S (List.length r))) + 2)%nat
      with ((4 * List.length r + 2) + 4 * 3)%nat by lia.
    rewrite Nat.div_add by discriminate. lia.
Qed.

Lemma url_alphabet_unreserved (i : N) :
  (i < 64)%N -> Crypto.unreserved (Crypto.alphabet_char Crypto.b64_url i) = true.
Proof.
  intros Hi.
  pose (P := fun n : nat =>
    Crypto.unreserved (Crypto.alphabet_char Crypto.b64_url (N.of_nat n))).
  assert (HP : P (N.to_nat i) = true).
  { apply (forall_below 64); [vm_compute; reflexivity | lia]. }
  unfold P in HP. now rewrite N2Nat.id in HP.
Qed.

(** [base64UrlEncode] of [n] octets has the integer part of (4n + 2) / 3
    characters, forty-three for a digest of thirty-two octets, and all of
    them are unreserved: the challenge goes into a URL as it is. *)
Theorem base64UrlEncode_length_and_alphabet (buffer : list Byte.byte) :
  String.length (Crypto.base64UrlEncode buffer) = ((4 * List.length buffer + 2) / 3)%nat
  /\ Forall (fun c => Crypto.unreserved c = true)
            (list_ascii_of_string (Crypto.base64UrlEncode buffer)).
Proof.
  assert (E : Crypto.base64UrlEncode buffer
              = Crypto.chars Crypto.b64_url (sextet_values buffer)).
  { rewrite base64UrlEncode_spec. unfold Spec.base64url_nopad, Crypto.chars, sextet_values.
    now rewrite map_map. }
  rewrite E. clear E. split.
  - now rewrite chars_length, sextet_values_length.
  - unfold Crypto.chars. rewrite list_ascii_of_string_of_list_ascii.
    induction (sextet_values_bound buffer) as [|i l Hi _ IH]; constructor.
    + now apply url_alphabet_unreserved.
    + exact IH.
Qed.

(** ** src/utils/url.ts *)






(** ** src/core/OAuth2Service.ts: the callback *)

Section CallbackProperties.
Context `{Platform}.

Lemma nonempty_Some (v : option string) (x : string) :
  nonempty v = Some x <-> v = Some x /\ x <> "".
Proof.
  unfold nonempty, JS.truthy. destruct v as [y|].
  - destruct (String.eqb_spec y "") as [->|Hne]; cbn; split.
    + discriminate.
    + intros [E Hx]. injection E as <-. contradiction.
    + intros E. injection E as <-. now split.
    + intros [E _]. exact E.
  - split; [discriminate | intros [E _]; discriminate].
Qed.

Lemma validateState_true (received : option string) (stored : string) :
  Crypto.validateState received stored = true -> received = Some stored.
Proof.
  unfold Crypto.validateState. destruct received as [r|]; [|discriminate].
  intros E. apply andb_true_iff in E as [E _]. apply String.eqb_eq in E. now subst.
Qed.

Lemma validateState_stored (stored : string) :
  stored <> "" -> Crypto.validateState (Some stored) stored = true.
Proof.
  intros Hne. unfold Crypto.validateState. rewrite String.eqb_refl.
  destruct stored; [contradiction | reflexivity].
Qed.

(** The path of [handleCallback] on which nothing is thrown before the
    exchange. *)
Lemma handleCallback_validated (url : option string) (now : Z) (net : FetchOutcome)
      (s : Service) (u : URL) (stored code verifier : string) :
  URL_new (callback_address url) = Some u ->
  nonempty (Url.parseQueryParams u !! "error") = None ->
  nonempty (TokenStorage.getState (storage s)) = Some stored ->
  Url.parseQueryParams u !! "state" = Some stored ->
  nonempty (Url.parseQueryParams u !! "code") = Some code ->
  nonempty (TokenStorage.getCodeVerifier (storage s)) = Some verifier ->
  OAuth2Service.handleCallback url now net s
  = match OAuth2Service.exchangeCodeForToken code verifier now net s with
    | (Ret _, s') => (Ret tt, with_storage TokenStorage.clearTemporary s')
    | (Throw e, s') => (Throw e, s')
    end.
Proof.
  intros Hu Herr Hst Hrecv Hcode Hver.
  unfold callback_address in Hu.
  unfold OAuth2Service.handleCallback, OAuth2Service.handleError. run_m.
  rewrite Hu, Herr, Hst, Hrecv. cbn.
  rewrite validateState_stored by (apply nonempty_Some in Hst; tauto). cbn.
  rewrite Hcode, Hver.
  destruct (OAuth2Service.exchangeCodeForToken code verifier now net s) as [[[]|e] s'];
    reflexivity.
Qed.

(** The ways [handleCallback] ends: before anything is sent and with the
    service as it was, or on the validated path. *)
Lemma handleCallback_cases (url : option string) (now : Z) (net : FetchOutcome) (s : Service) :
  (exists e, OAuth2Service.handleCallback url now net s = (Throw e, s))
  \/ exists u stored code verifier,
      URL_new (callback_address url) = Some u
      /\ nonempty (Url.parseQueryParams u !! "error") = None
      /\ nonempty (TokenStorage.getState (storage s)) = Some stored
      /\ Url.parseQueryParams u !! "state" = Some stored
      /\ nonempty (Url.parseQueryParams u !! "code") = Some code
      /\ nonempty (TokenStorage.getCodeVerifier (storage s)) = Some verifier.
Proof.
  destruct (URL_new (callback_address url)) as [u|] eqn:Hu.
  2:{ left. unfold callback_address in Hu.
      unfold OAuth2Service.handleCallback, OAuth2Service.handleError. run_m.
      rewrite Hu. eauto. }
  destruct (nonempty (Url.parseQueryParams u !! "error")) as [err|] eqn:Herr.
  { left. unfold callback_address in Hu.
    unfold OAuth2Service.handleCallback, OAuth2Service.handleError. run_m.
    rewrite Hu, Herr. eauto. }
  destruct (nonempty (TokenStorage.getState (storage s))) as [stored|] eqn:Hst.
  2:{ left. unfold callback_address in Hu.
      unfold OAuth2Service.handleCallback, OAuth2Service.handleError. run_m.
      rewrite Hu, Herr, Hst. eauto. }
  destruct (Crypto.validateState (Url.parseQueryParams u !! "state") stored) eqn:Hv.
  2:{ left. unfold callback_address in Hu.
      unfold OAuth2Service.handleCallback, OAuth2Service.handleError. run_m.
      rewrite Hu, Herr, Hst, Hv. eauto. }
  apply validateState_true in Hv.
  destruct (nonempty (Url.parseQueryParams u !! "code")) as [code|] eqn:Hcode.
  2:{ left. unfold callback_address in Hu.
      unfold OAuth2Service.handleCallback, OAuth2Service.handleError. run_m.
      rewrite Hu, Herr, Hst, Hv. cbn.
      rewrite validateState_stored by (apply nonempty_Some in Hst; tauto). cbn.
      rewrite Hcode. eauto. }
  destruct (nonempty (TokenStorage.getCodeVerifier (storage s))) as [verifier|] eqn:Hver.
  2:{ left. unfold callback_address in Hu.
      unfold OAuth2Service.handleCallback, OAuth2Service.handleError. run_m.
      rewrite Hu, Herr, Hst, Hv. cbn.
      rewrite validateState_stored by (apply nonempty_Some in Hst; tauto). cbn.
      rewrite Hcode, Hver. eauto. }
  right. exists u, stored, code, verifier. auto 10.
Qed.

(** A callback whose [state] parameter is not the stored state, or that
    arrives when no state is stored, is refused with "Invalid state
    parameter": nothing is sent to the token endpoint, whatever code the
    callback carries, and the service is left exactly as it was. *)
Theorem handleCallback_rejects_foreign_state (url : option string) (now : Z)
        (net : FetchOutcome) (s : Service) (u : URL) :
  URL_new (callback_address url) = Some u ->
  nonempty (Url.parseQueryParams u !! "error") = None ->
  (forall stored, nonempty (TokenStorage.getState (storage s)) = Some stored ->
                  Url.parseQueryParams u !! "state" <> Some stored) ->
  OAuth2Service.handleCallback url now net s
  = (Throw (ExnError "Invalid state parameter"), s).
Proof.
  intros Hu Herr Hforeign. unfold callback_address in Hu.
  unfold OAuth2Service.handleCallback, OAuth2Service.handleError. run_m.
  rewrite Hu, Herr.
  destruct (nonempty (TokenStorage.getState (storage s))) as [stored|] eqn:Hst;
    [|reflexivity].
  destruct (Crypto.validateState (Url.parseQueryParams u !! "state") stored) eqn:Hv;
    [|reflexivity].
  apply validateState_true in Hv. now destruct (Hforeign stored eq_refl).
Qed.

(** An [error] parameter in the callback wins over everything else: the
    call throws the error object made of the three error parameters, even
    when state and code are valid, sends nothing and changes nothing. *)
Theorem handleCallback_error_parameter_first (url : option string) (now : Z)
        (net : FetchOutcome) (s : Service) (u : URL) (e : string) :
  URL_new (callback_address url) = Some u ->
  Url.parseQueryParams u !! "error" = Some e ->
  e <> "" ->
  OAuth2Service.handleCallback url now net s
  = (Throw (ExnOAuth2 {| error := e;
                         error_description := Url.parseQueryParams u !! "error_description";
                         error_uri := Url.parseQueryParams u !! "error_uri" |}), s).
Proof.
  intros Hu He Hne. unfold callback_address in Hu.
  assert (Herr : nonempty (Url.parseQueryParams u !! "error") = Some e)
    by now apply nonempty_Some.
  unfold OAuth2Service.handleCallback, OAuth2Service.handleError. run_m.
  now rewrite Hu, Herr.
Qed.

(** [handleCallback] sends at most one request, and only after the
    callback has passed every check: a well-formed address without an
    [error] parameter, whose [state] is the stored, non-empty state, with a
    non-empty code and a stored verifier.  The request then carries that
    code and that verifier. *)
Theorem handleCallback_sends_only_after_validation (url : option string) (now : Z)
        (net : FetchOutcome) (s : Service) :
  let s' := snd (OAuth2Service.handleCallback url now net s) in
  requests s' = requests s
  \/ exists u stored code verifier,
      URL_new (callback_address url) = Some u
      /\ nonempty (Url.parseQueryParams u !! "error") = None
      /\ nonempty (TokenStorage.getState (storage s)) = Some stored
      /\ Url.parseQueryParams u !! "state" = Some stored
      /\ nonempty (Url.parseQueryParams u !! "code") = Some code
      /\ nonempty (TokenStorage.getCodeVerifier (storage s)) = Some verifier
      /\ requests s' = (requests s ++ [exchange_request (config s) code verifier])%list.
Proof.
  cbv zeta.
  destruct (handleCallback_cases url now net s)
    as [[e ->]|(u & stored & code & verifier & Hu & Herr & Hst & Hrecv & Hcode & Hver)].
  - now left.
  - right. exists u, stored, code, verifier. repeat (split; [assumption|]).
    rewrite (handleCallback_validated url now net s u stored code verifier) by assumption.
    destruct (classic_fetch net) as [[tokens ->]|Hnet].
    + destruct (exchangeCodeForToken_ok code verifier now tokens s) as (st' & t & -> & _).
      reflexivity.
    + destruct (exchangeCodeForToken_fail code verifier now net s Hnet) as (e & ->).
      reflexivity.
Qed.

(** When [handleCallback] returns normally the token endpoint has answered
    with tokens; the access token of the answer is stored, state and
    verifier are gone, one request was sent, [onAuthStateChange(true)] was
    called once and the window was not navigated. *)
Theorem handleCallback_success_effect (url : option string) (now : Z)
        (net : FetchOutcome) (s : Service) :
  fst (OAuth2Service.handleCallback url now net s) = Ret tt ->
  let s' := snd (OAuth2Service.handleCallback url now net s) in
  exists tokens,
    net = FetchOk tokens
    /\ TokenStorage.getAccessToken (storage s') = Some (access_token tokens)
    /\ TokenStorage.getState (storage s') = None
    /\ TokenStorage.getCodeVerifier (storage s') = None
    /\ List.length (requests s') = S (List.length (requests s))
    /\ callbacks s' = (callbacks s ++ [onAuthStateChange true])%list
    /\ href s' = href s.
Proof.
  cbv zeta.
  destruct (handleCallback_cases url now net s)
    as [[e ->]|(u & stored & code & verifier & Hu & Herr & Hst & Hrecv & Hcode & Hver)];
    [discriminate|].
  rewrite (handleCallback_validated url now net s u stored code verifier) by assumption.
  destruct (classic_fetch net) as [[tokens ->]|Hnet].
  - destruct (exchangeCodeForToken_ok code verifier now tokens s) as (st' & t & -> & E).
    intros _. exists tokens. split; [reflexivity|].
    destruct (storeTokens_spec tokens now
                (with_request (exchange_request (config s) code verifier) s))
      as (st2 & E2 & Hat & _).
    rewrite E2 in E. injection E as E. cbn in E.
    cbn [snd storage with_storage with_callback with_refreshTimer with_request
         requests callbacks href].
    unfold TokenStorage.getAccessToken, TokenStorage.getState, TokenStorage.getCodeVerifier
      in *.
    rewrite !getItem_clearTemporary.
    rewrite decide_False by (intros [E'|E']; discriminate).
    rewrite decide_True by now left. rewrite decide_True by now right.
    rewrite <- E, Hat. rewrite length_app. cbn. repeat split; auto. lia.
  - destruct (exchangeCodeForToken_fail code verifier now net s Hnet) as (e & ->).
    discriminate.
Qed.

(** The verifier that reaches the token endpoint is the one whose
    challenge went to the authorization endpoint: after [authorize], a
    callback that carries the state [authorize] generated and a code is
    exchanged with the verifier [authorize] generated and with no other
    request, and when the endpoint answers with tokens the call succeeds.
    This holds whether or not [authorize] itself could navigate. *)
Theorem callback_after_authorize_sends_the_verifier
        (additionalParams : list (string * string)) (rng1 rng2 : nat -> Byte.byte)
        (url : option string) (now : Z) (tokens : TokenResponse) (s : Service)
        (u : URL) (code : string) :
  URL_new (callback_address url) = Some u ->
  nonempty (Url.parseQueryParams u !! "error") = None ->
  Url.parseQueryParams u !! "state" = Some (Crypto.generateRandomString rng2 32) ->
  nonempty (Url.parseQueryParams u !! "code") = Some code ->
  let s1 := snd (OAuth2Service.authorize additionalParams rng1 rng2 s) in
  let r := OAuth2Service.handleCallback url now (FetchOk tokens) s1 in
  fst r = Ret tt
  /\ requests (snd r)
     = (requests s
          ++ [exchange_request (config s) code (fst (Crypto.generatePKCEParams rng1))])%list.
Proof.
  intros Hu Herr Hrecv Hcode. cbv zeta.
  destruct (authorize_stores additionalParams rng1 rng2 s) as [Hst Hver].
  cbv zeta in Hst, Hver.
  assert (Hsame : requests (snd (OAuth2Service.authorize additionalParams rng1 rng2 s))
                  = requests s
                  /\ config (snd (OAuth2Service.authorize additionalParams rng1 rng2 s))
                     = config s).
  { rewrite authorize_spec. cbv zeta. case_if; split; reflexivity. }
  destruct Hsame as [Hreq Hcfg].
  assert (Hlen32 : Crypto.generateRandomString rng2 32 <> "").
  { intros E. pose proof (generateRandomString_chars rng2 32) as [Hl _].
    rewrite E in Hl. discriminate. }
  assert (Hlen128 : fst (Crypto.generatePKCEParams rng1) <> "").
  { unfold Crypto.generatePKCEParams. cbn [fst].
    intros E. pose proof (generateRandomString_chars rng1 128) as [Hl _].
    rewrite E in Hl. discriminate. }
  rewrite (handleCallback_validated url now (FetchOk tokens) _ u
             (Crypto.generateRandomString rng2 32) code
             (fst (Crypto.generatePKCEParams rng1)));
    try assumption; try (apply nonempty_Some; split; assumption).
  destruct (exchangeCodeForToken_ok code (fst (Crypto.generatePKCEParams rng1)) now tokens
              (snd (OAuth2Service.authorize additionalParams rng1 rng2 s)))
    as (st' & t & -> & _).
  cbn [fst snd requests with_storage with_callback with_refreshTimer with_request].
  rewrite Hreq, Hcfg. split; reflexivity.
Qed.

End CallbackProperties.

(** ** src/core/OAuth2Service.ts: tokens, expiry and logout *)

Section SessionProperties.
Context `{Platform}.

Lemma getAccessToken_fresh (now : Z) (s : Service) :
  lazily_expired now s = false ->
  OAuth2Service.getAccessToken now s = (Ret (TokenStorage.getAccessToken (storage s)), s)
  /\ OAuth2Service.isAuthenticated now s
     = (Ret (JS.truthy (TokenStorage.getAccessToken (storage s))), s).
Proof.
  intros Hfresh. unfold lazily_expired in Hfresh.
  assert (G : OAuth2Service.getAccessToken now s
              = (Ret (TokenStorage.getAccessToken (storage s)), s)).
  { unfold OAuth2Service.getAccessToken. run_m. now rewrite Hfresh. }
  split; [exact G|]. unfold OAuth2Service.isAuthenticated. run_m. now rewrite G.
Qed.

Lemma getAccessToken_expired (now : Z) (s : Service) :
  lazily_expired now s = true ->
  logout_target_ok (config s) ->
  OAuth2Service.getAccessToken now s = (Ret None, snd (OAuth2Service.logout None s))
  /\ OAuth2Service.isAuthenticated now s = (Ret false, snd (OAuth2Service.logout None s)).
Proof.
  intros Hexp Hok. unfold lazily_expired in Hexp.
  pose proof (logout_returns None s Hok) as Hret.
  assert (G : OAuth2Service.getAccessToken now s
              = (Ret None, snd (OAuth2Service.logout None s))).
  { unfold OAuth2Service.getAccessToken. run_m. rewrite Hexp.
    destruct (OAuth2Service.logout None s) as [r s1]. cbn in Hret. now rewrite Hret. }
  split; [exact G|]. unfold OAuth2Service.isAuthenticated. run_m. now rewrite G.
Qed.

(** A stored expiry that does not read as a number other than zero ("0",
    "abc", "NaN", a string of spaces) counts as no expiry at all: the
    access token is returned at every time of the clock, nothing is
    changed, and [scheduleTokenRefresh] sets no timer. *)
Theorem unreadable_expiry_never_expires (s : Service) (v : string) (now : Z) :
  TokenStorage.getItem (storage s) STORAGE_KEYS.EXPIRES_AT = Some v ->
  JS.parseInt v = JS.NaN \/ JS.parseInt v = JS.Int 0 ->
  OAuth2Service.getAccessToken now s
  = (Ret (TokenStorage.getAccessToken (storage s)), s)
  /\ refreshTimer (snd (OAuth2Service.scheduleTokenRefresh now s))
     = if autoRefresh (config s) then None else refreshTimer s.
Proof.
  intros Hitem Hparse.
  assert (E : JS.truthy_num (TokenStorage.getExpiresAt (storage s)) = false).
  { unfold TokenStorage.getExpiresAt. rewrite Hitem.
    destruct (JS.truthy (Some v)); [|reflexivity].
    destruct Hparse as [-> | ->]; reflexivity. }
  split.
  - apply getAccessToken_fresh. unfold lazily_expired.
    now rewrite E, andb_false_r.
  - unfold OAuth2Service.scheduleTokenRefresh.
    destruct (autoRefresh (config s)); cbn; [|reflexivity].
    destruct (TokenStorage.getExpiresAt (storage s)) as [[|e]|]; try reflexivity.
    unfold JS.truthy_num in E. apply negb_false_iff in E. now rewrite E.
Qed.


(** [storeTokens] only adds: an item that was in the storage is still
    there afterwards, state and verifier of a pending flow are untouched,
    and an ID token or scope that the response does not carry (or carries
    empty) keeps the value of an earlier response. *)
Theorem storeTokens_never_removes (tokens : TokenResponse) (now : Z) (s : Service) :
  let st' := storage (snd (OAuth2Service.storeTokens tokens now s)) in
  (forall key, is_Some (TokenStorage.getItem (storage s) key) ->
               is_Some (TokenStorage.getItem st' key))
  /\ TokenStorage.getIdToken st'
     = match nonempty (id_token tokens) with
       | Some t => Some t
       | None => TokenStorage.getIdToken (storage s)
       end
  /\ TokenStorage.getScope st'
     = match nonempty (tr_scope tokens) with
       | Some t => Some t
       | None => TokenStorage.getScope (storage s)
       end
  /\ TokenStorage.getState st' = TokenStorage.getState (storage s)
  /\ TokenStorage.getCodeVerifier st' = TokenStorage.getCodeVerifier (storage s).
Proof.
  destruct s as [cfg st timer promise cbs reqs loc].
  unfold OAuth2Service.storeTokens, with_storage. run_m.
  unfold TokenStorage.getIdToken, TokenStorage.getScope, TokenStorage.getState,
    TokenStorage.getCodeVerifier, TokenStorage.setAccessToken, TokenStorage.setRefreshToken,
    TokenStorage.setIdToken, TokenStorage.setScope, TokenStorage.setExpiresAt.
  destruct (nonempty (refresh_token tokens)), (nonempty (id_token tokens)),
    (nonempty (tr_scope tokens)), (expires_in tokens) as [e|];
    try destruct (e =? 0); cbn;
    (split; [intros key Hkey; rewrite ?getItem_setItem;
             repeat (case_decide; [eauto|]); exact Hkey
            | rewrite ?getItem_setItem; repeat split; reflexivity]).
Qed.


Lemma logout_params_order (a b : option string) :
  Obj.entries [("client_id", a); ("post_logout_redirect_uri", b)]
  = [("client_id", a); ("post_logout_redirect_uri", b)].
Proof. vm_compute. reflexivity. Qed.

(** How [logout] ends and where it navigates.  It throws exactly when a
    logout endpoint is configured that is no URL, and then only after
    storage has been cleared and the callback called.  With an endpoint the
    window goes to it with [client_id] and [post_logout_redirect_uri]
    appended, the latter being the argument or, without one, the origin of
    the window; without an endpoint the window goes to the argument, or
    nowhere. *)
Theorem logout_outcome (redirectTo : option string) (s : Service) :
  let r := OAuth2Service.logout redirectTo s in
  let target := match nonempty redirectTo with
                | Some t => t
                | None => location_origin
                end in
  (fst r = Throw ExnTypeError
   <-> logoutEndpoint (config s) <> "" /\ URL_new (logoutEndpoint (config s)) = None)
  /\ (fst r = Ret tt \/ fst r = Throw ExnTypeError)
  /\ storage (snd r) = TokenStorage.clear (storage s)
  /\ href (snd r)
     = if String.eqb (logoutEndpoint (config s)) ""
       then match nonempty redirectTo with
            | Some t => Some (HrefString t)
            | None => href s
            end
       else match URL_new (logoutEndpoint (config s)) with
            | Some base =>
                Some (HrefUrl {| url_base := url_base base;
                                 searchParams :=
                                   searchParams base
                                   ++ [("client_id", clientId (config s));
                                       ("post_logout_redirect_uri", target)] |})
            | None => href s
            end.
Proof.
  cbv zeta. unfold OAuth2Service.logout. run_m. unfold JS.truthy, Url.buildUrl.
  rewrite logout_params_order.
  destruct (String.eqb_spec (logoutEndpoint (config s)) "") as [E|Hne]; cbn.
  - destruct (nonempty redirectTo); cbn.
    all: split; [split; [discriminate | intros [? _]; contradiction]|].
    all: split; [now left|]. all: split; reflexivity.
  - destruct (URL_new (logoutEndpoint (config s))) as [base|]; cbn.
    + split; [split; [discriminate | intros [_ ?]; discriminate]|].
      split; [now left|]. split; [reflexivity|].
      unfold Url.append. cbn. now rewrite <- app_assoc.
    + split; [split; [intros _; now split | reflexivity]|].
      split; [now right|]. split; reflexivity.
Qed.

(** After [logout], however it ends, nothing of the session or of a
    pending flow can be read: every getter returns absent at every time of
    the clock, [isAuthenticated] is false, and no refresh is scheduled.  A
    second [logout] finds nothing more to remove. *)
Theorem logout_leaves_nothing (redirectTo : option string) (s : Service) (now : Z) :
  let s' := snd (OAuth2Service.logout redirectTo s) in
  OAuth2Service.getAccessToken now s' = (Ret None, s')
  /\ OAuth2Service.isAuthenticated now s' = (Ret false, s')
  /\ OAuth2Service.getRefreshToken s' = (Ret None, s')
  /\ OAuth2Service.getIdToken s' = (Ret None, s')
  /\ OAuth2Service.getTokenExpiry s' = (Ret None, s')
  /\ TokenStorage.getState (storage s') = None
  /\ TokenStorage.getCodeVerifier (storage s') = None
  /\ refreshTimer s' = None
  /\ forall again, storage (snd (OAuth2Service.logout again s')) = storage s'.
Proof.
  cbv zeta.
  pose proof (logout_effect redirectTo s) as (Hst & Htimer & _).
  cbv zeta in Hst, Htimer.
  pose proof (clear_session (storage s)) as (Hat & Hrt & Hid & Hexp & _ & Hcv & Hstate).
  rewrite <- Hst in Hat, Hrt, Hid, Hexp, Hcv, Hstate.
  destruct (cleared_unauthenticated _ now Hat) as [G A].
  split; [exact G|]. split; [exact A|].
  unfold OAuth2Service.getRefreshToken, OAuth2Service.getIdToken,
    OAuth2Service.getTokenExpiry, gets.
  rewrite Hrt, Hid, Hexp. repeat (split; [reflexivity || assumption|]).
  intros again.
  pose proof (logout_effect again (snd (OAuth2Service.logout redirectTo s))) as (Hst2 & _).
  cbv zeta in Hst2. rewrite Hst2, Hst. apply clear_twice.
Qed.

End SessionProperties.

(** ** src/core/OAuth2Service.ts: the timer, the snapshot and the constructor *)

Section LifecycleProperties.
Context `{Platform}.


Lemma lazily_expired_cleared (now : Z) (s : Service) :
  TokenStorage.getAccessToken (storage s) = None -> lazily_expired now s = false.
Proof. intros E. unfold lazily_expired. now rewrite E. Qed.

(** The snapshot of [getAuthState] is consistent when the clock does not
    pass the expiry between its two readings: [isAuthenticated] holds
    exactly when an access token is reported, [isLoading] is false and
    [error] is absent.  Of a session that has not expired the snapshot
    reports the stored values and changes nothing; of an expired one it
    reports nothing at all, and the session has been logged out. *)
Theorem getAuthState_consistent (now1 now2 : Z) (s : Service) :
  logout_target_ok (config s) ->
  lazily_expired now1 s = lazily_expired now2 s ->
  exists a s',
    OAuth2Service.getAuthState now1 now2 s = (Ret a, s')
    /\ AuthState.isAuthenticated a = JS.truthy (AuthState.accessToken a)
    /\ AuthState.isLoading a = false
    /\ AuthState.error a = None
    /\ (lazily_expired now1 s = false ->
        s' = s
        /\ AuthState.accessToken a = TokenStorage.getAccessToken (storage s)
        /\ AuthState.refreshToken a = TokenStorage.getRefreshToken (storage s)
        /\ AuthState.idToken a = TokenStorage.getIdToken (storage s)
        /\ AuthState.expiresAt a = TokenStorage.getExpiresAt (storage s)
        /\ AuthState.scope a = TokenStorage.getScope (storage s))
    /\ (lazily_expired now1 s = true ->
        s' = snd (OAuth2Service.logout None s)
        /\ AuthState.accessToken a = None
        /\ AuthState.refreshToken a = None
        /\ AuthState.idToken a = None
        /\ AuthState.expiresAt a = None
        /\ AuthState.scope a = None).
Proof.
  intros Hok Hsame.
  destruct (lazily_expired now1 s) eqn:H1; symmetry in Hsame.
  - destruct (getAccessToken_expired now1 s H1 Hok) as [_ A].
    pose proof (logout_effect None s) as (Hst & _). cbv zeta in Hst.
    pose proof (clear_session (storage s)) as (Hat & Hrt & Hid & Hexp & Hsc & _).
    rewrite <- Hst in Hat, Hrt, Hid, Hexp, Hsc.
    destruct (cleared_unauthenticated _ now2 Hat) as [G _].
    unfold OAuth2Service.getAuthState, OAuth2Service.getRefreshToken,
      OAuth2Service.getIdToken, OAuth2Service.getTokenExpiry.
    run_m. rewrite A. cbn. rewrite G. cbn. rewrite Hrt, Hid, Hexp, Hsc.
    eexists _, _. split; [reflexivity|]. cbn.
    repeat split; try reflexivity; discriminate.
  - destruct (getAccessToken_fresh now1 s H1) as [_ A].
    destruct (getAccessToken_fresh now2 s Hsame) as [G _].
    unfold OAuth2Service.getAuthState, OAuth2Service.getRefreshToken,
      OAuth2Service.getIdToken, OAuth2Service.getTokenExpiry.
    run_m. rewrite A. cbn. rewrite G. cbn.
    eexists _, _. split; [reflexivity|]. cbn.
    repeat split; try reflexivity; discriminate.
Qed.

(** [getAuthState] reads the clock twice.  When the token expires between
    the two readings the snapshot contradicts itself: [isAuthenticated] is
    true while the access token and every other field are absent, and the
    session has been logged out by the second reading. *)
Theorem getAuthState_torn_by_expiry (now1 now2 e : Z) (token : string) (s : Service) :
  TokenStorage.getAccessToken (storage s) = Some token ->
  token <> "" ->
  TokenStorage.getExpiresAt (storage s) = Some (JS.Int e) ->
  e <> 0 ->
  now1 < e <= now2 ->
  logout_target_ok (config s) ->
  exists a,
    OAuth2Service.getAuthState now1 now2 s = (Ret a, snd (OAuth2Service.logout None s))
    /\ AuthState.isAuthenticated a = true
    /\ AuthState.accessToken a = None
    /\ AuthState.refreshToken a = None
    /\ AuthState.idToken a = None
    /\ AuthState.expiresAt a = None
    /\ AuthState.scope a = None.
Proof.
  intros Htok Hne Hexp Hz [Hlt Hle] Hok.
  assert (Ht : JS.truthy (Some token) = true).
  { unfold JS.truthy. apply String.eqb_neq in Hne. now rewrite Hne. }
  assert (H1 : lazily_expired now1 s = false).
  { unfold lazily_expired. rewrite Htok, Hexp. unfold JS.geb.
    destruct (Z.leb_spec e now1); [lia|]. now rewrite andb_false_r. }
  assert (H2 : lazily_expired now2 s = true).
  { unfold lazily_expired. rewrite Htok, Hexp, Ht. unfold JS.truthy_num, JS.geb.
    apply Z.eqb_neq in Hz. rewrite Hz. cbn. now apply Z.leb_le. }
  destruct (getAccessToken_fresh now1 s H1) as [_ A].
  destruct (getAccessToken_expired now2 s H2 Hok) as [G _].
  pose proof (logout_effect None s) as (Hst & _). cbv zeta in Hst.
  pose proof (clear_session (storage s)) as (_ & Hrt & Hid & Hexp' & Hsc & _).
  rewrite <- Hst in Hrt, Hid, Hexp', Hsc.
  unfold OAuth2Service.getAuthState, OAuth2Service.getRefreshToken,
    OAuth2Service.getIdToken, OAuth2Service.getTokenExpiry.
  run_m. rewrite A. cbn. rewrite G. cbn. rewrite Hrt, Hid, Hexp', Hsc, Htok, Ht.
  eexists. split; [reflexivity|]. cbn. repeat split; reflexivity.
Qed.


End LifecycleProperties.

(** ** src/core/OAuth2Service.ts: flows that overlap *)

Section OverlapProperties.
Context `{Platform}.

(** Only the latest authorization can be completed: a second [authorize]
    replaces the stored state, and the callback of the first one, which
    carries the state of the first, is refused with "Invalid state
    parameter" before anything is sent. *)
Theorem authorize_supersedes_pending_flow
        (first second : list (string * string)) (rng1 rng2 rng3 rng4 : nat -> Byte.byte)
        (url : option string) (now : Z) (net : FetchOutcome) (s : Service) (u : URL) :
  URL_new (callback_address url) = Some u ->
  nonempty (Url.parseQueryParams u !! "error") = None ->
  Url.parseQueryParams u !! "state" = Some (Crypto.generateRandomString rng2 32) ->
  Crypto.generateRandomString rng4 32 <> Crypto.generateRandomString rng2 32 ->
  let s1 := snd (OAuth2Service.authorize first rng1 rng2 s) in
  let s2 := snd (OAuth2Service.authorize second rng3 rng4 s1) in
  OAuth2Service.handleCallback url now net s2
  = (Throw (ExnError "Invalid state parameter"), s2).
Proof.
  intros Hu Herr Hrecv Hdiff. cbv zeta.
  destruct (authorize_stores second rng3 rng4
              (snd (OAuth2Service.authorize first rng1 rng2 s))) as [Hst _].
  cbv zeta in Hst. unfold callback_address in Hu.
  unfold OAuth2Service.handleCallback, OAuth2Service.handleError. run_m.
  rewrite Hu, Herr, Hst, Hrecv.
  destruct (nonempty (Some (Crypto.generateRandomString rng4 32))) as [stored|] eqn:Hn;
    [|reflexivity].
  apply nonempty_Some in Hn as [Hn _]. injection Hn as <-.
  destruct (Crypto.validateState (Some (Crypto.generateRandomString rng2 32))
              (Crypto.generateRandomString rng4 32)) eqn:Hv; [|reflexivity].
  apply validateState_true in Hv. injection Hv as Hv. now destruct Hdiff.
Qed.

(** A refresh that is in flight is not cancelled by [logout]: whatever is
    called before the token endpoint answers ([logout], [isAuthenticated],
    further calls of [refreshAccessToken]), an answer with tokens is stored
    and reported through [onTokenRefresh], so that a session logged out in
    between has an access token again. *)
Theorem refresh_answer_survives_logout
        (w : Loop.World) (mid : list Loop.Action) (token : string) (now : Z)
        (tokens : TokenResponse) :
  refreshPromise (Loop.service w) = None ->
  nonempty (TokenStorage.getRefreshToken (storage (Loop.service w))) = Some token ->
  forallb quiet mid = true ->
  let p := List.length (Loop.promises w) in
  let w2 := Loop.run mid (Loop.call w) in
  let w3 := Loop.answer p now (FetchOk tokens) w2 in
  TokenStorage.getAccessToken (storage (Loop.service w3)) = Some (access_token tokens)
  /\ callbacks (Loop.service w3)
     = (callbacks (Loop.service w2) ++ [onTokenRefresh tokens])%list
  /\ Loop.promises w3 !! p = Some (Some (Ret tt)).
Proof.
  intros Hidle Htok Hmid. cbv zeta.
  pose proof (call_starts w Hidle) as E1. cbv zeta in E1.
  rewrite performRefresh_start_spec, Htok in E1. cbn [fst snd] in E1.
  set (p := List.length (Loop.promises w)) in *.
  assert (Hm1 : refreshPromise (Loop.service (Loop.call w)) = Some p)
    by (rewrite E1; reflexivity).
  destruct (quiet_run mid (Loop.call w) p Hm1 Hmid) as (_ & Hpr2 & _).
  cbv zeta in Hpr2.
  assert (Hlook : Loop.promises (Loop.run mid (Loop.call w)) !! p = Some None).
  { rewrite Hpr2, E1. cbn [Loop.promises]. now apply list_lookup_middle. }
  assert (Hlen : (p < List.length (Loop.promises (Loop.run mid (Loop.call w))))%nat).
  { rewrite Hpr2, E1. cbn [Loop.promises]. rewrite length_app. cbn. unfold p. lia. }
  set (w2 := Loop.run mid (Loop.call w)) in *.
  unfold Loop.answer. rewrite Hlook.
  destruct (performRefresh_finish_ok now tokens (Loop.service w2)) as (st' & t & -> & Es).
  destruct (storeTokens_spec tokens now (Loop.service w2)) as (st2 & E2 & Hat & _).
  rewrite E2 in Es. injection Es as Es. cbn in Es.
  cbn [Loop.service Loop.promises storage callbacks with_callback with_refreshTimer
       with_storage].
  rewrite <- Es. split; [exact Hat|]. split; [reflexivity|].
  now apply list_lookup_insert_eq.
Qed.

End OverlapProperties.

(** ** Instances

    Each property above that has a precondition, at a concrete input. *)

(** The expiry zero, which [getExpiresAt] reads back as the number zero. *)
Lemma expiry_round_trip_witness :
  - 2 ^ 53 < 0 < 2 ^ 53
  /\ TokenStorage.getExpiresAt
       (TokenStorage.setExpiresAt 0 (TokenStorage.mk (list_to_map []) "oauth2_"))
     = Some (JS.Int 0).
Proof.
  assert (H1 : - 2 ^ 53 < 0 < 2 ^ 53) by (split; reflexivity).
  split; [exact H1|].
  exact (expiry_round_trip (TokenStorage.mk (list_to_map []) "oauth2_") 0 H1).
Defined.

(** Two adapters with the prefixes [a_] and [b_] over one backend. *)
Lemma adapters_with_different_prefixes_are_isolated_witness :
  let backend : gmap string string := list_to_map [("b_access_token", "T")] in
  "a_" <> "b_"
  /\ In STORAGE_KEYS.ACCESS_TOKEN STORAGE_KEYS.values
  /\ TokenStorage.getItem
       (TokenStorage.mk
          (TokenStorage.storage (TokenStorage.clear (TokenStorage.mk backend "a_"))) "b_")
       STORAGE_KEYS.ACCESS_TOKEN
     = TokenStorage.getItem (TokenStorage.mk backend "b_") STORAGE_KEYS.ACCESS_TOKEN.
Proof.
  cbv zeta.
  assert (H1 : "a_" <> "b_") by discriminate.
  assert (H2 : In STORAGE_KEYS.ACCESS_TOKEN STORAGE_KEYS.values) by (left; reflexivity).
  split; [exact H1|]. split; [exact H2|].
  exact (proj2 (proj2 (adapters_with_different_prefixes_are_isolated
                         (list_to_map [("b_access_token", "T")]) "a_" "b_"
                         STORAGE_KEYS.ACCESS_TOKEN H1 H2))).
Defined.

(** The character at index 60 of the alphabet, '-' after the letters and
    digits minus two, comes from three octets. *)
Lemma random_characters_are_not_uniform_witness :
  (60 < 66)%nat
  /\ exists c, String.get 60 Crypto.charset = Some c /\ octets_giving c = 3%nat.
Proof.
  assert (H1 : (60 < 66)%nat) by lia.
  split; [exact H1|].
  exact (random_characters_are_not_uniform 60 H1).
Defined.


(** A callback with a state that was never issued, while [S1] is stored. *)
Lemma handleCallback_rejects_foreign_state_witness :
  let url := Some "https://app/cb?code=XYZ&state=EVIL" in
  let u := {| url_base := "https://app/cb";
              searchParams := [("code", "XYZ"); ("state", "EVIL")] |} in
  URL_new (Platform := TestPlatform.platform)
          (callback_address (H := TestPlatform.platform) url) = Some u
  /\ nonempty (Url.parseQueryParams u !! "error") = None
  /\ OAuth2Service.handleCallback (H := TestPlatform.platform) url 1000
       (FetchOk (Scenario.bare "A2")) Scenario.awaiting_callback
     = (Throw (ExnError "Invalid state parameter"), Scenario.awaiting_callback).
Proof.
  cbv zeta.
  set (u := {| url_base := "https://app/cb";
               searchParams := [("code", "XYZ"); ("state", "EVIL")] |}).
  assert (H1 : URL_new (Platform := TestPlatform.platform)
                 (callback_address (H := TestPlatform.platform)
                    (Some "https://app/cb?code=XYZ&state=EVIL")) = Some u) by reflexivity.
  assert (H2 : nonempty (Url.parseQueryParams u !! "error") = None) by reflexivity.
  assert (H3 : forall stored,
             nonempty (TokenStorage.getState (storage Scenario.awaiting_callback))
             = Some stored ->
             Url.parseQueryParams u !! "state" <> Some stored).
  { intros stored E.
    change (Some "S1" = Some stored) in E. injection E as <-.
    change (Some "EVIL" <> Some "S1"). discriminate. }
  split; [exact H1|]. split; [exact H2|].
  exact (handleCallback_rejects_foreign_state (H := TestPlatform.platform)
           (Some "https://app/cb?code=XYZ&state=EVIL") 1000 (FetchOk (Scenario.bare "A2"))
           Scenario.awaiting_callback u H1 H2 H3).
Defined.

(** A callback that carries an error beside a valid state and a code. *)
Lemma handleCallback_error_parameter_first_witness :
  let url := Some "https://app/cb?error=access_denied&code=XYZ&state=S1" in
  let u := {| url_base := "https://app/cb";
              searchParams := [("error", "access_denied"); ("code", "XYZ");
                               ("state", "S1")] |} in
  URL_new (Platform := TestPlatform.platform)
          (callback_address (H := TestPlatform.platform) url) = Some u
  /\ Url.parseQueryParams u !! "error" = Some "access_denied"
  /\ "access_denied" <> ""
  /\ OAuth2Service.handleCallback (H := TestPlatform.platform) url 1000
       (FetchOk (Scenario.bare "A2")) Scenario.awaiting_callback
     = (Throw (ExnOAuth2 {| error := "access_denied";
                            error_description := None;
                            error_uri := None |}),
        Scenario.awaiting_callback).
Proof.
  cbv zeta.
  set (u := {| url_base := "https://app/cb";
               searchParams := [("error", "access_denied"); ("code", "XYZ");
                                ("state", "S1")] |}).
  assert (H1 : URL_new (Platform := TestPlatform.platform)
                 (callback_address (H := TestPlatform.platform)
                    (Some "https://app/cb?error=access_denied&code=XYZ&state=S1"))
               = Some u) by reflexivity.
  assert (H2 : Url.parseQueryParams u !! "error" = Some "access_denied") by reflexivity.
  assert (H3 : "access_denied" <> "") by discriminate.
  split; [exact H1|]. split; [exact H2|]. split; [exact H3|].
  exact (handleCallback_error_parameter_first (H := TestPlatform.platform)
           (Some "https://app/cb?error=access_denied&code=XYZ&state=S1") 1000
           (FetchOk (Scenario.bare "A2")) Scenario.awaiting_callback u "access_denied"
           H1 H2 H3).
Defined.

(** The callback of the scenario, answered with the token [A2]. *)
Lemma handleCallback_success_effect_witness :
  let r := OAuth2Service.handleCallback (H := TestPlatform.platform) Scenario.callback_url
             1000 (FetchOk (Scenario.bare "A2")) Scenario.awaiting_callback in
  fst r = Ret tt
  /\ exists tokens,
      FetchOk (Scenario.bare "A2") = FetchOk tokens
      /\ TokenStorage.getAccessToken (storage (snd r)) = Some (access_token tokens)
      /\ TokenStorage.getState (storage (snd r)) = None
      /\ TokenStorage.getCodeVerifier (storage (snd r)) = None
      /\ List.length (requests (snd r))
         = S (List.length (requests Scenario.awaiting_callback))
      /\ callbacks (snd r)
         = (callbacks Scenario.awaiting_callback ++ [onAuthStateChange true])%list
      /\ href (snd r) = href Scenario.awaiting_callback.
Proof.
  cbv zeta.
  assert (H1 : fst (OAuth2Service.handleCallback (H := TestPlatform.platform)
                      Scenario.callback_url 1000 (FetchOk (Scenario.bare "A2"))
                      Scenario.awaiting_callback) = Ret tt) by reflexivity.
  split; [exact H1|].
  exact (handleCallback_success_effect (H := TestPlatform.platform) Scenario.callback_url
           1000 (FetchOk (Scenario.bare "A2")) Scenario.awaiting_callback H1).
Defined.

(** [authorize] with a random source of zeros, then the callback that
    carries the state it generated (thirty-two times 'A'). *)
Lemma callback_after_authorize_sends_the_verifier_witness :
  let url := Some "https://app/cb?code=XYZ&state=AAAAAAAAAAAAAAAAAAAAAAAAAAAAAAAA" in
  let u := {| url_base := "https://app/cb";
              searchParams := [("code", "XYZ");
                               ("state", "AAAAAAAAAAAAAAAAAAAAAAAAAAAAAAAA")] |} in
  let s1 := snd (OAuth2Service.authorize (H := TestPlatform.platform) []
                   TestPlatform.rng_zero TestPlatform.rng_zero (TestPlatform.service [])) in
  URL_new (Platform := TestPlatform.platform)
          (callback_address (H := TestPlatform.platform) url) = Some u
  /\ nonempty (Url.parseQueryParams u !! "error") = None
  /\ Url.parseQueryParams u !! "state"
     = Some (Crypto.generateRandomString TestPlatform.rng_zero 32)
  /\ nonempty (Url.parseQueryParams u !! "code") = Some "XYZ"
  /\ fst (OAuth2Service.handleCallback (H := TestPlatform.platform) url 1000
            (FetchOk (Scenario.bare "A2")) s1) = Ret tt.
Proof.
  cbv zeta.
  set (u := {| url_base := "https://app/cb";
               searchParams := [("code", "XYZ");
                                ("state", "AAAAAAAAAAAAAAAAAAAAAAAAAAAAAAAA")] |}).
  assert (H1 : URL_new (Platform := TestPlatform.platform)
                 (callback_address (H := TestPlatform.platform)
                    (Some "https://app/cb?code=XYZ&state=AAAAAAAAAAAAAAAAAAAAAAAAAAAAAAAA"))
               = Some u) by reflexivity.
  assert (H2 : nonempty (Url.parseQueryParams u !! "error") = None) by reflexivity.
  assert (H3 : Url.parseQueryParams u !! "state"
               = Some (Crypto.generateRandomString TestPlatform.rng_zero 32))
    by reflexivity.
  assert (H4 : nonempty (Url.parseQueryParams u !! "code") = Some "XYZ") by reflexivity.
  split; [exact H1|]. split; [exact H2|]. split; [exact H3|]. split; [exact H4|].
  exact (proj1 (callback_after_authorize_sends_the_verifier (H := TestPlatform.platform)
                  [] TestPlatform.rng_zero TestPlatform.rng_zero
                  (Some "https://app/cb?code=XYZ&state=AAAAAAAAAAAAAAAAAAAAAAAAAAAAAAAA")
                  1000 (Scenario.bare "A2") (TestPlatform.service []) u "XYZ"
                  H1 H2 H3 H4)).
Defined.

(** An expiry item that is no number: the token is returned even at a very
    late time. *)
Lemma unreadable_expiry_never_expires_witness :
  let s := TestPlatform.service [("oauth2_access_token", "A1");
                                 ("oauth2_expires_at", "soon")] in
  TokenStorage.getItem (storage s) STORAGE_KEYS.EXPIRES_AT = Some "soon"
  /\ (JS.parseInt "soon" = JS.NaN \/ JS.parseInt "soon" = JS.Int 0)
  /\ OAuth2Service.getAccessToken (H := TestPlatform.platform) 99999999999 s
     = (Ret (TokenStorage.getAccessToken (storage s)), s).
Proof.
  cbv zeta.
  set (s := TestPlatform.service [("oauth2_access_token", "A1");
                                  ("oauth2_expires_at", "soon")]).
  assert (H1 : TokenStorage.getItem (storage s) STORAGE_KEYS.EXPIRES_AT = Some "soon")
    by reflexivity.
  assert (H2 : JS.parseInt "soon" = JS.NaN \/ JS.parseInt "soon" = JS.Int 0)
    by (left; reflexivity).
  split; [exact H1|]. split; [exact H2|].
  exact (proj1 (unreadable_expiry_never_expires (H := TestPlatform.platform) s "soon"
                  99999999999 H1 H2)).
Defined.



(** The session of the scenario, read at time 500 before its expiry. *)
Lemma getAuthState_consistent_witness :
  let s := Scenario.session in
  logout_target_ok (H := TestPlatform.platform) (config s)
  /\ lazily_expired 500 s = lazily_expired 500 s
  /\ exists a s',
      OAuth2Service.getAuthState (H := TestPlatform.platform) 500 500 s = (Ret a, s')
      /\ AuthState.isAuthenticated a = JS.truthy (AuthState.accessToken a).
Proof.
  cbv zeta.
  assert (H1 : logout_target_ok (H := TestPlatform.platform) (config Scenario.session))
    by (left; reflexivity).
  assert (H2 : lazily_expired 500 Scenario.session = lazily_expired 500 Scenario.session)
    by reflexivity.
  split; [exact H1|]. split; [exact H2|].
  destruct (getAuthState_consistent (H := TestPlatform.platform) 500 500 Scenario.session
              H1 H2) as (a & s' & E & Hauth & _).
  exists a, s'. split; [exact E | exact Hauth].
Defined.

(** The session of the scenario, whose expiry 1000 falls between the two
    readings of the clock. *)
Lemma getAuthState_torn_by_expiry_witness :
  let s := Scenario.session in
  TokenStorage.getAccessToken (storage s) = Some "A1"
  /\ "A1" <> ""
  /\ TokenStorage.getExpiresAt (storage s) = Some (JS.Int 1000)
  /\ 1000 <> 0
  /\ 999 < 1000 <= 1000
  /\ logout_target_ok (H := TestPlatform.platform) (config s)
  /\ exists a,
      OAuth2Service.getAuthState (H := TestPlatform.platform) 999 1000 s
      = (Ret a, snd (OAuth2Service.logout (H := TestPlatform.platform) None s))
      /\ AuthState.isAuthenticated a = true
      /\ AuthState.accessToken a = None
      /\ AuthState.refreshToken a = None
      /\ AuthState.idToken a = None
      /\ AuthState.expiresAt a = None
      /\ AuthState.scope a = None.
Proof.
  cbv zeta.
  assert (H1 : TokenStorage.getAccessToken (storage Scenario.session) = Some "A1")
    by reflexivity.
  assert (H2 : "A1" <> "") by discriminate.
  assert (H3 : TokenStorage.getExpiresAt (storage Scenario.session) = Some (JS.Int 1000))
    by reflexivity.
  assert (H4 : 1000 <> 0) by discriminate.
  assert (H5 : 999 < 1000 <= 1000) by (split; [reflexivity | discriminate]).
  assert (H6 : logout_target_ok (H := TestPlatform.platform) (config Scenario.session))
    by (left; reflexivity).
  repeat (split; [assumption|]).
  exact (getAuthState_torn_by_expiry (H := TestPlatform.platform) 999 1000 1000 "A1"
           Scenario.session H1 H2 H3 H4 H5 H6).
Defined.


(** Two authorizations, the second with another random source; the
    callback of the first arrives. *)
Lemma authorize_supersedes_pending_flow_witness :
  let url := Some "https://app/cb?code=XYZ&state=AAAAAAAAAAAAAAAAAAAAAAAAAAAAAAAA" in
  let u := {| url_base := "https://app/cb";
              searchParams := [("code", "XYZ");
                               ("state", "AAAAAAAAAAAAAAAAAAAAAAAAAAAAAAAA")] |} in
  let s1 := snd (OAuth2Service.authorize (H := TestPlatform.platform) []
                   TestPlatform.rng_zero TestPlatform.rng_zero (TestPlatform.service [])) in
  let s2 := snd (OAuth2Service.authorize (H := TestPlatform.platform) []
                   TestPlatform.rng_zero TestPlatform.rng_count s1) in
  URL_new (Platform := TestPlatform.platform)
          (callback_address (H := TestPlatform.platform) url) = Some u
  /\ nonempty (Url.parseQueryParams u !! "error") = None
  /\ Url.parseQueryParams u !! "state"
     = Some (Crypto.generateRandomString TestPlatform.rng_zero 32)
  /\ Crypto.generateRandomString TestPlatform.rng_count 32
     <> Crypto.generateRandomString TestPlatform.rng_zero 32
  /\ OAuth2Service.handleCallback (H := TestPlatform.platform) url 1000
       (FetchOk (Scenario.bare "A2")) s2
     = (Throw (ExnError "Invalid state parameter"), s2).
Proof.
  cbv zeta.
  set (u := {| url_base := "https://app/cb";
               searchParams := [("code", "XYZ");
                                ("state", "AAAAAAAAAAAAAAAAAAAAAAAAAAAAAAAA")] |}).
  assert (H1 : URL_new (Platform := TestPlatform.platform)
                 (callback_address (H := TestPlatform.platform)
                    (Some "https://app/cb?code=XYZ&state=AAAAAAAAAAAAAAAAAAAAAAAAAAAAAAAA"))
               = Some u) by reflexivity.
  assert (H2 : nonempty (Url.parseQueryParams u !! "error") = None) by reflexivity.
  assert (H3 : Url.parseQueryParams u !! "state"
               = Some (Crypto.generateRandomString TestPlatform.rng_zero 32))
    by reflexivity.
  assert (H4 : Crypto.generateRandomString TestPlatform.rng_count 32
               <> Crypto.generateRandomString TestPlatform.rng_zero 32)
    by (vm_compute; discriminate).
  split; [exact H1|]. split; [exact H2|]. split; [exact H3|]. split; [exact H4|].
  exact (authorize_supersedes_pending_flow (H := TestPlatform.platform) [] []
           TestPlatform.rng_zero TestPlatform.rng_zero TestPlatform.rng_zero
           TestPlatform.rng_count
           (Some "https://app/cb?code=XYZ&state=AAAAAAAAAAAAAAAAAAAAAAAAAAAAAAAA")
           1000 (FetchOk (Scenario.bare "A2")) (TestPlatform.service []) u
           H1 H2 H3 H4).
Defined.

(** The session of the scenario: a refresh starts, the user logs out, the
    endpoint answers with the token [A2]. *)
Lemma refresh_answer_survives_logout_witness :
  let w := Loop.idle Scenario.session in
  let mid := [Loop.Logout None] in
  let w3 := Loop.answer (H := TestPlatform.platform) 0 2000 (FetchOk (Scenario.bare "A2"))
              (Loop.run (H := TestPlatform.platform) mid (Loop.call w)) in
  refreshPromise (Loop.service w) = None
  /\ nonempty (TokenStorage.getRefreshToken (storage (Loop.service w))) = Some "R1"
  /\ forallb quiet mid = true
  /\ TokenStorage.getAccessToken (storage (Loop.service w3)) = Some "A2".
Proof.
  cbv zeta.
  assert (H1 : refreshPromise (Loop.service (Loop.idle Scenario.session)) = None)
    by reflexivity.
  assert (H2 : nonempty (TokenStorage.getRefreshToken
                           (storage (Loop.service (Loop.idle Scenario.session))))
               = Some "R1") by reflexivity.
  assert (H3 : forallb quiet [Loop.Logout None] = true) by reflexivity.
  split; [exact H1|]. split; [exact H2|]. split; [exact H3|].
  exact (proj1 (refresh_answer_survives_logout (H := TestPlatform.platform)
                  (Loop.idle Scenario.session) [Loop.Logout None] "R1" 2000
                  (Scenario.bare "A2") H1 H2 H3)).
Defined.
